(** * tgz: gzip-compressed tar archives (github.com/zxdev/tgz)

    A shallow embedding of [tgz.go]: the three exported functions [Bytes],
    [Tar] and [Untar], written over a model of the parts of Go's standard
    library they call (io, time, strings, path/filepath, os, compress/gzip,
    archive/tar).

    Conventions.
    - A Go [string] is a [string]; a [[]byte] is a [list byte].
    - Go's [int64], [uint32] and [byte] values are [Z]; conversions that
      wrap are written out.
    - An [error] value is [option error] ([None] is Go's [nil]).
    - Stateful library objects (writers, readers, the file table) are
      records passed explicitly; every operation returns the new state.
    - The byte formats of the two codecs are interfaces ([flate.Codec],
      [tar.Format]); the control flow around them (what is written to which
      writer and when, which error is kept) follows the library. *)

From Stdlib Require Import ZArith Ascii String List Bool Lia.
From Stdlib Require Import Strings.Byte.
From stdpp Require Import base option list gmap strings.

Abbreviation byteslice := (list Init.Byte.byte).

Global Instance byte_eq_dec : EqDecision Init.Byte.byte := Byte.byte_eq_dec.

(** ** Errors *)

Inductive errno : Type := ENOENT | ENOTDIR | EISDIR | EACCES | EEXIST.

Inductive error : Type :=
| EOF                            (* io.EOF *)
| ErrUnexpectedEOF               (* io.ErrUnexpectedEOF *)
| ErrShortWrite                  (* io.ErrShortWrite *)
| ErrInvalid                     (* os.ErrInvalid, a nil *os.File *)
| SkipDir                        (* filepath.SkipDir *)
| SkipAll                        (* filepath.SkipAll *)
| TarErrHeader                   (* tar.ErrHeader *)
| TarErrWriteTooLong             (* tar.ErrWriteTooLong *)
| TarErrWriteAfterClose          (* tar.ErrWriteAfterClose *)
| TarMissedWriting (n : Z)       (* "archive/tar: missed writing n bytes" *)
| TarSocket                      (* "archive/tar: sockets not supported" *)
| TarUnknownMode (m : Z)         (* "archive/tar: unknown file mode" *)
| GzipErrHeader                  (* gzip.ErrHeader *)
| GzipErrChecksum                (* gzip.ErrChecksum *)
| PathError (op path : string) (e : errno)    (* *fs.PathError *)
| Custom (msg : string).         (* any other error value, by message *)

Global Instance errno_eq_dec : EqDecision errno.
Proof. solve_decision. Defined.
Global Instance error_eq_dec : EqDecision error.
Proof. solve_decision. Defined.

(** ** package time *)

Module time.

(** A [Time] is the number of nanoseconds since the zero time, January 1,
    year 1, 00:00:00 UTC. *)
Definition Time := Z.

Definition zero : Time := 0%Z.
Definition Second : Z := 1000000000%Z.

Definition IsZero (t : Time) : bool := (t =? 0)%Z.

(** [t.Round(d)]: nearest multiple of [d] since the zero time, halfway
    values rounded up; [t] itself when [d <= 0]. *)
Definition Round (t : Time) (d : Z) : Time :=
  if (d <=? 0)%Z then t
  else let r := (t mod d)%Z in
       if (r + r <? d)%Z then (t - r)%Z else (t + d - r)%Z.

(** Civil date of a day count since January 1, year 1 (proleptic
    Gregorian calendar), as (year, month, day). *)
Definition civil (days : Z) : Z * Z * Z :=
  let z := (days + 306)%Z in
  let era := (z / 146097)%Z in
  let doe := (z - era * 146097)%Z in
  let yoe := ((doe - doe / 1460 + doe / 36524 - doe / 146096) / 365)%Z in
  let doy := (doe - (365 * yoe + yoe / 4 - yoe / 100))%Z in
  let mp := ((5 * doy + 2) / 153)%Z in
  let d := (doy - (153 * mp + 2) / 5 + 1)%Z in
  let m := if (mp <? 10)%Z then (mp + 3)%Z else (mp - 9)%Z in
  let y := (yoe + era * 400 + (if (m <=? 2)%Z then 1 else 0))%Z in
  (y, m, d).

Definition digit (n : Z) : ascii :=
  ascii_of_N (48 + Z.to_N (n mod 10)).

Definition digits2 (n : Z) : string :=
  String (digit (n / 10)) (String (digit n) "").

Definition digits4 (n : Z) : string :=
  String (digit (n / 1000)) (String (digit (n / 100)) (digits2 n)).

(** [t.Format("20060102T150405")] for a UTC time in the years 0..9999. *)
Definition Format_compact (t : Time) : string :=
  let secs := (t / Second)%Z in
  let '(y, m, d) := civil (secs / 86400) in
  let sod := (secs mod 86400)%Z in
  digits4 y +:+ digits2 m +:+ digits2 d +:+ "T" +:+
  digits2 (sod / 3600) +:+ digits2 (sod / 60 mod 60) +:+ digits2 (sod mod 60).

(** The wall clock: the [k]-th call of [time.Now().UTC()] of an operation
    returns [c k]. *)
Definition Clock := nat → Time.

End time.

(** ** package strings *)

Module strings.

Fixpoint HasPrefix (s prefix : string) : bool :=
  match prefix, s with
  | EmptyString, _ => true
  | String _ _, EmptyString => false
  | String a p, String b t => if decide (a = b) then HasPrefix t p else false
  end.

Fixpoint drop (n : nat) (s : string) : string :=
  match n, s with
  | O, _ => s
  | S n, String _ t => drop n t
  | S _, EmptyString => EmptyString
  end.

Definition TrimPrefix (s prefix : string) : string :=
  if HasPrefix s prefix then drop (String.length prefix) s else s.

Definition HasSuffix (s suffix : string) : bool :=
  (String.length suffix <=? String.length s)%nat &&
  bool_decide (drop (String.length s - String.length suffix) s = suffix).

(** [strings.Contains(s, substr)]: [substr] starts somewhere in [s]. *)
Fixpoint Contains (s substr : string) : bool :=
  HasPrefix s substr ||
  match s with
  | EmptyString => false
  | String _ t => Contains t substr
  end.

(** [Replace(s, old, new, n)]: the first [n] non-overlapping instances of
    [old] in [s], leftmost first, are replaced by [new]; all of them when
    [n < 0].  [skip] counts the bytes of the instance being replaced that
    are still to be dropped. *)
Fixpoint replace_from (skip : nat) (n : Z) (old new s : string) : string :=
  match s with
  | EmptyString => EmptyString
  | String c t =>
      match skip with
      | S k => replace_from k n old new t
      | O => if negb (n =? 0)%Z && HasPrefix s old
             then new +:+ replace_from (String.length old - 1) (n - 1) old new t
             else String c (replace_from 0 n old new t)
      end
  end.

(** An empty [old] matches at the start of [s] and after every byte (every
    rune in Go; file names here are taken byte-wise). *)
Fixpoint interleave (n : Z) (new s : string) : string :=
  if (n =? 0)%Z then s
  else match s with
       | EmptyString => new
       | String c t => new +:+ String c (interleave (n - 1) new t)
       end.

Definition Replace (s old new : string) (n : Z) : string :=
  if decide (old = new) then s
  else if (n =? 0)%Z then s
  else if decide (old = EmptyString) then interleave n new s
  else replace_from 0 n old new s.

(** The elements of [s] between separators [sep] (the one-byte case of
    [strings.Split]); never the empty list. *)
Fixpoint Split (sep : ascii) (s : string) : list string :=
  match s with
  | EmptyString => [EmptyString]
  | String c t =>
      if decide (c = sep) then EmptyString :: Split sep t
      else match Split sep t with
           | e :: r => String c e :: r
           | [] => [String c EmptyString]
           end
  end.

Fixpoint Join (elems : list string) (sep : string) : string :=
  match elems with
  | [] => EmptyString
  | [e] => e
  | e :: r => e +:+ sep +:+ Join r sep
  end.

End strings.


(** ** package os: the file table an extraction writes to

    The destination file system is a table from cleaned path names to
    nodes.  The current directory ".", the root "/" and the directories
    above the current one always exist; the empty path names nothing.  In
    a file system a path that exists has a directory at every path
    above it, so a path is looked up at its own entry and a file is
    created where its parent is a directory; where the parent is
    missing, the directories above decide the error, from the top.  The
    mode of what is created is the permission argument as the system
    call takes it, less the umask of the process.  Symbolic links and
    set-group-ID directories at the destination and failing disk writes
    are not part of the table. *)

Module os.

(** [os.FileMode] bits. *)
Definition ModeDir : Z := Z.shiftl 1 31.
Definition ModeAppend : Z := Z.shiftl 1 30.
Definition ModeExclusive : Z := Z.shiftl 1 29.
Definition ModeTemporary : Z := Z.shiftl 1 28.
Definition ModeSymlink : Z := Z.shiftl 1 27.
Definition ModeDevice : Z := Z.shiftl 1 26.
Definition ModeNamedPipe : Z := Z.shiftl 1 25.
Definition ModeSocket : Z := Z.shiftl 1 24.
Definition ModeSetuid : Z := Z.shiftl 1 23.
Definition ModeSetgid : Z := Z.shiftl 1 22.
Definition ModeCharDevice : Z := Z.shiftl 1 21.
Definition ModeSticky : Z := Z.shiftl 1 20.
Definition ModeIrregular : Z := Z.shiftl 1 19.

Definition ModeType : Z :=
  Z.lor ModeDir (Z.lor ModeSymlink (Z.lor ModeNamedPipe (Z.lor ModeSocket
    (Z.lor ModeDevice (Z.lor ModeCharDevice ModeIrregular))))).
Definition ModePerm : Z := 511.    (* 0777 *)

(** [m.IsRegular()]: no mode type bit is set. *)
Definition IsRegular (m : Z) : bool := (Z.land m ModeType =? 0)%Z.
(** [m.IsDir()]. *)
Definition IsDir (m : Z) : bool := negb (Z.land m ModeDir =? 0)%Z.
(** [m.Perm()]. *)
Definition Perm (m : Z) : Z := Z.land m ModePerm.

(** What [os.Lstat] and [os.Stat] report of a file. *)
Record FileInfo := {
  fi_Name : string;              (* base name *)
  fi_Size : Z;
  fi_Mode : Z;                   (* os.FileMode *)
  fi_ModTime : time.Time;
  (* Sys(): what the stat call has beyond it *)
  fi_Uid : Z;
  fi_Gid : Z;
  fi_Uname : string;             (* the owner's name, looked up *)
  fi_Gname : string;
  fi_Atime : time.Time;
  fi_Ctime : time.Time
}.

(** [os.FileMode(x)] of an [int64]: conversion to [uint32]. *)
Definition FileMode (x : Z) : Z := (x mod 2 ^ 32)%Z.

(** The directory a path lies in: the path up to its last separator.
    The empty path names nothing and lies in no directory. *)
Definition parent (path : string) : string :=
  match rev (strings.Split "/" path) with
  | _ :: (_ :: _) as up =>
      let dir := strings.Join (rev up) "/" in
      if decide (dir = EmptyString) then "/" else dir
  | _ => if decide (path = EmptyString) then EmptyString else "."
  end.

Inductive fnode : Type :=
| FFile (mode : Z) (data : byteslice)
| FDir (mode : Z).

Global Instance fnode_eq_dec : EqDecision fnode.
Proof. solve_decision. Defined.

Abbreviation FS := (gmap string fnode).

(** The paths that resolve to a directory whatever the table holds: the
    current directory, the root, and the directories above the current
    one ("..", "../.." and so on). *)
Definition always_there (path : string) : bool :=
  bool_decide (path = "." ∨ path = "/")
  || forallb (λ e, bool_decide (e = "..")) (strings.Split "/" path).

(** What a path resolves to; the empty path resolves to nothing. *)
Definition lookup_path (fs : FS) (path : string) : option fnode :=
  if decide (path = EmptyString) then None
  else if always_there path then Some (FDir 493)
  else fs !! path.

(** [os.Stat(path)]: only whether it succeeds and what it finds. *)
Definition Stat (fs : FS) (path : string) : error + fnode :=
  match lookup_path fs path with
  | Some n => inr n
  | None => inl (PathError "stat" path ENOENT)
  end.

(** The process an extraction runs in: its file mode creation mask. *)
Class Process := { umask : Z }.

(** The mode of a file that [os.OpenFile] creates for the permission
    argument [perm]: [syscallMode(perm)] passes the nine permission bits
    and the setuid, setgid and sticky bits of [perm] to [open(2)], which
    takes the permission bits of the umask off.  (The value is the
    [os.FileMode] a later [os.Stat] reports.) *)
Definition created_file_mode `{Process} (perm : Z) : Z :=
  Z.lor (Z.ldiff (Perm perm) umask)
    (Z.land perm (Z.lor ModeSetuid (Z.lor ModeSetgid ModeSticky))).

(** The mode of a directory that [os.Mkdir] creates: [mkdir(2)] keeps
    the permission bits less the umask, and the sticky bit. *)
Definition created_dir_mode `{Process} (perm : Z) : Z :=
  Z.lor (Z.ldiff (Perm perm) umask) (Z.land perm ModeSticky).

(** The missing directories of a path are made from the top: [pre] is
    the part of the path already known to be a directory, [elems] the
    elements still to visit. *)
Fixpoint mkdir_chain `{Process} (fs : FS) (pre : string) (elems : list string)
  (perm : Z) : FS * option error :=
  match elems with
  | [] => (fs, None)
  | e :: rest =>
      let p := if decide (pre = EmptyString) then e
               else if decide (pre = "/") then "/" +:+ e
               else pre +:+ "/" +:+ e in
      match lookup_path fs p with
      | Some (FDir _) => mkdir_chain fs p rest perm
      | Some (FFile _ _) => (fs, Some (PathError "mkdir" p ENOTDIR))
      | None => mkdir_chain (<[p := FDir (created_dir_mode perm)]> fs) p rest perm
      end
  end.

(** [os.MkdirAll(path, perm)]; the empty path cannot be made. *)
Definition MkdirAll `{Process} (fs : FS) (path : string) (perm : Z)
  : FS * option error :=
  if decide (path = EmptyString) then (fs, Some (PathError "mkdir" path ENOENT))
  else
    mkdir_chain fs (if strings.HasPrefix path "/" then "/" else EmptyString)
      (filter (λ e, e ≠ EmptyString) (strings.Split "/" path)) perm.

(** The paths of the directories above a path, outermost first. *)
Fixpoint prefixes (pre : string) (elems : list string) : list string :=
  match elems with
  | [] => []
  | e :: rest =>
      let p := if decide (pre = EmptyString) then e
               else if decide (pre = "/") then "/" +:+ e
               else pre +:+ "/" +:+ e in
      p :: prefixes p rest
  end.

Definition ancestors (path : string) : list string :=
  removelast
    (prefixes (if strings.HasPrefix path "/" then "/" else EmptyString)
       (filter (λ e, e ≠ EmptyString) (strings.Split "/" path))).

(** Why a path whose parent is missing does not resolve: the first of
    the directories above it, from the top, that is missing (ENOENT) or
    is not a directory (ENOTDIR) decides. *)
Fixpoint first_obstacle (fs : FS) (dirs : list string) : errno :=
  match dirs with
  | [] => ENOENT
  | d :: rest =>
      match lookup_path fs d with
      | Some (FDir _) => first_obstacle fs rest
      | Some (FFile _ _) => ENOTDIR
      | None => ENOENT
      end
  end.

(** [os.OpenFile(path, O_CREATE|O_WRONLY, perm)]: the file is created
    when it is missing and opened as it is when it exists; nothing in
    the flags truncates it.  The result is the content found. *)
Definition OpenFile_create_wronly `{Process} (fs : FS) (path : string) (perm : Z)
  : FS * (error + byteslice) :=
  match lookup_path fs path with
  | Some (FDir _) => (fs, inl (PathError "open" path EISDIR))
  | Some (FFile _ old) => (fs, inr old)
  | None =>
      match lookup_path fs (parent path) with
      | Some (FDir _) => (<[path := FFile (created_file_mode perm) []]> fs, inr [])
      | Some (FFile _ _) => (fs, inl (PathError "open" path ENOTDIR))
      | None =>
          (fs, inl (PathError "open" path (first_obstacle fs (ancestors path))))
      end
  end.

(** Writing [data] through a descriptor opened at offset 0 without
    O_APPEND: the bytes replace the start of the file and whatever the
    file held beyond them stays. *)
Definition write_from_start (old data : byteslice) : byteslice :=
  data ++ List.skipn (length data) old.

Definition set_content (fs : FS) (path : string) (content : byteslice) : FS :=
  match fs !! path with
  | Some (FFile m _) => <[path := FFile m content]> fs
  | _ => fs
  end.

(** *** The tree an archive is made from

    What the source path names, as the archiver reads it: a file that is
    not a directory (regular, named pipe, socket, device: the mode says
    which), a symbolic link with what it points to, a directory with its
    entries in the order [filepath.Walk] visits them (sorted by name), or
    a name whose lstat fails. *)

Record Stat_t := {
  st_mode : Z;                   (* os.FileMode *)
  st_mtime : time.Time;
  st_atime : time.Time;
  st_ctime : time.Time;
  st_uid : Z;
  st_gid : Z;
  st_uname : string;
  st_gname : string
}.

Inductive node : Type :=
| File (st : Stat_t) (data : byteslice) (readable : bool)
| Symlink (st : Stat_t) (target : node)
| Dir (st : Stat_t) (entries : list (string * node)) (read_err : option error)
| Missing (e : error).

(** [basename]: trailing slashes and the leading directories removed. *)
Definition basename (name : string) : string :=
  match filter (λ e, e ≠ EmptyString) (strings.Split "/" name) with
  | [] => if decide (name = EmptyString) then EmptyString else "/"
  | e :: r => List.last r e
  end.

Definition info_of (name : string) (st : Stat_t) (mode size : Z) : FileInfo :=
  {| fi_Name := basename name; fi_Size := size; fi_Mode := mode;
     fi_ModTime := st_mtime st; fi_Uid := st_uid st; fi_Gid := st_gid st;
     fi_Uname := st_uname st; fi_Gname := st_gname st;
     fi_Atime := st_atime st; fi_Ctime := st_ctime st |}.

(** [os.Lstat(name)]: the node itself, a link is not followed. *)
Definition Lstat (name : string) (n : node) : error + FileInfo :=
  match n with
  | File st data _ =>
      inr (info_of name st (Z.ldiff (st_mode st) (Z.lor ModeDir ModeSymlink))
             (Z.of_nat (length data)))
  | Symlink st _ =>
      inr (info_of name st (Z.lor (Z.ldiff (st_mode st) ModeType) ModeSymlink) 0)
  | Dir st _ _ =>
      inr (info_of name st (Z.lor (Z.ldiff (st_mode st) ModeType) ModeDir) 0)
  | Missing e => inl e
  end.

(** What a path resolves to when links are followed. *)
Fixpoint resolve (n : node) : node :=
  match n with
  | Symlink _ target => resolve target
  | _ => n
  end.

(** [os.Stat(name)]: links are followed. *)
Definition Stat_source (name : string) (n : node) : error + FileInfo :=
  Lstat name (resolve n).

(** [os.Open(name)] as a source for [io.Copy]: a file that cannot be
    opened leaves a nil [*os.File], whose reads fail with [ErrInvalid]. *)
Definition Open (n : node) : error + byteslice :=
  match resolve n with
  | File _ data true => inr data
  | _ => inl ErrInvalid
  end.

(** A tree with its time stamps taken away: what two looks at the same
    tree at different times have in common. *)
Definition stat_without_times (st : Stat_t) : Stat_t :=
  {| st_mode := st_mode st; st_mtime := time.zero; st_atime := time.zero;
     st_ctime := time.zero; st_uid := st_uid st; st_gid := st_gid st;
     st_uname := st_uname st; st_gname := st_gname st |}.

Fixpoint without_times (n : node) : node :=
  match n with
  | File st data readable => File (stat_without_times st) data readable
  | Symlink st target => Symlink (stat_without_times st) (without_times target)
  | Dir st entries read_err =>
      Dir (stat_without_times st)
        (List.map (λ p, (fst p, without_times (snd p))) entries) read_err
  | Missing e => Missing e
  end.

Definition info_without_times (fi : FileInfo) : FileInfo :=
  {| fi_Name := fi_Name fi; fi_Size := fi_Size fi; fi_Mode := fi_Mode fi;
     fi_ModTime := time.zero; fi_Uid := fi_Uid fi; fi_Gid := fi_Gid fi;
     fi_Uname := fi_Uname fi; fi_Gname := fi_Gname fi;
     fi_Atime := time.zero; fi_Ctime := time.zero |}.

End os.

(** ** package path/filepath (Unix) *)

Module filepath.

Definition Separator : ascii := "/"%char.

Definition rooted (path : string) : bool :=
  match path with String c _ => bool_decide (c = Separator) | _ => false end.

(** One element of the path met by [Clean]; [out] is the output so far,
    last element first. *)
Definition clean_elem (is_rooted : bool) (out : list string) (e : string)
  : list string :=
  if decide (e = EmptyString) then out
  else if decide (e = ".") then out
  else if decide (e = "..") then
    match out with
    | top :: rest =>
        if decide (top = "..") then ".." :: out else rest
    | [] => if is_rooted then [] else [".."]
    end
  else e :: out.

(** [filepath.Clean]: the shortest path naming the same file by purely
    lexical processing. *)
Definition Clean (path : string) : string :=
  if decide (path = EmptyString) then "."
  else
    let r := rooted path in
    let out := rev (fold_left (clean_elem r) (strings.Split Separator path) []) in
    if r then "/" +:+ strings.Join out "/"
    else match out with [] => "." | _ => strings.Join out "/" end.

(** [filepath.Join(a, b)]. *)
Definition Join (a b : string) : string :=
  if decide (a = EmptyString) then
    if decide (b = EmptyString) then EmptyString else Clean b
  else Clean (a +:+ "/" +:+ b).

(** [filepath.Base]: the last element of the path, trailing separators
    removed; "." for the empty path, "/" for a path of separators only. *)
Definition Base (path : string) : string :=
  if decide (path = EmptyString) then "."
  else match filter (λ e, e ≠ EmptyString) (strings.Split Separator path) with
       | [] => "/"
       | e :: r => List.last r e
       end.

(** [filepath.Dir]: all but the last element of the path, cleaned. *)
Definition Dir (path : string) : string :=
  let elems := strings.Split Separator path in
  Clean (strings.Join (removelast elems ++
                       (match elems with [_] => [] | _ => [EmptyString] end)) "/").

(** What the walk hands to the callback for a node whose lstat works. *)
Definition info_of_node (path : string) (n : os.node)
  : option (os.FileInfo * os.node) :=
  match os.Lstat path n with
  | inr fi => Some (fi, n)
  | inl _ => None
  end.

(** [filepath.WalkFunc] over a state [S]: the path, what lstat reported
    (with the node found there, for the callback to open) or nothing, and
    the error of lstat or of reading the directory. *)
Definition WalkFunc (S : Type) : Type :=
  string → option (os.FileInfo * os.node) → option error → S → S * option error.

Definition is_dir_node (n : os.node) : bool :=
  match n with os.Dir _ _ _ => true | _ => false end.

(** [walk(path, info, walkFn)]. *)
Fixpoint walk {S} (walkFn : WalkFunc S) (path : string) (n : os.node) (s : S)
  {struct n} : S * option error :=
  match n with
  | os.Missing e => walkFn path None (Some e) s
  | os.Dir st entries read_err =>
      let info := info_of_node path n in
      let '(s1, err1) := walkFn path info read_err s in
      if bool_decide (read_err ≠ None ∨ err1 ≠ None) then (s1, err1)
      else
        (fix children (l : list (string * os.node)) (s : S) {struct l}
           : S * option error :=
           match l with
           | [] => (s, None)
           | (name, c) :: rest =>
               let filename := Join path name in
               let '(s', err) := walk walkFn filename c s in
               match err with
               | Some e =>
                   if is_dir_node c && bool_decide (e = SkipDir)
                   then children rest s'
                   else
                     match c with
                     | os.Missing _ =>
                         if decide (e = SkipDir) then children rest s'
                         else (s', Some e)
                     | _ => (s', Some e)
                     end
               | None => children rest s'
               end
           end) entries s1
  | _ => walkFn path (info_of_node path n) None s
  end.

(** [filepath.Walk(root, fn)]. *)
Definition Walk {S} (root : string) (n : os.node) (fn : WalkFunc S) (s : S)
  : S * option error :=
  let '(s', err) := walk fn root n s in
  if bool_decide (err = Some SkipDir ∨ err = Some SkipAll) then (s', None)
  else (s', err).

End filepath.

(** ** package io *)

Module io.

(** The [io.Writer] interface: [Write w p] is the writer after the call,
    the count of bytes taken and the error. *)
Class Writer (W : Type) := Write : W → byteslice → W * (nat * option error).
Global Hint Mode Writer ! : typeclass_instances.

(** A destination handed in by the caller (a file, a hash, a socket).
    It keeps what it was given; [healthy = Some k] makes it accept [k]
    more calls of Write and fail every later one with [failure], taking
    nothing; [healthy = None] never fails (a hash). *)
Record Sink := {
  written : byteslice;
  healthy : option nat;
  failure : error
}.

Definition sink_Write (w : Sink) (p : byteslice) : Sink * (nat * option error) :=
  match healthy w with
  | Some O => (w, (O, Some (failure w)))
  | Some (S k) =>
      ({| written := written w ++ p; healthy := Some k; failure := failure w |},
       (length p, None))
  | None =>
      ({| written := written w ++ p; healthy := None; failure := failure w |},
       (length p, None))
  end.

Global Instance Sink_Writer : Writer Sink := sink_Write.

(** The sink takes [n] more calls of Write without failing. *)
Definition accepts (n : nat) (s : Sink) : Prop :=
  match healthy s with
  | None => True
  | Some k => n ≤ k
  end.

(** The sink after calls of Write with the byte strings [ps], each of
    them taken. *)
Definition fed (ps : list byteslice) (s : Sink) : Sink :=
  {| written := written s ++ concat ps;
     healthy := (λ k, k - length ps) <$> healthy s;
     failure := failure s |}.

(** [io.MultiWriter(writers...)]: each call of Write goes to every
    writer in turn and stops at the first that fails or takes less. *)
Fixpoint multi_Write {W} `{Writer W} (ws : list W) (p : byteslice)
  : list W * (nat * option error) :=
  match ws with
  | [] => ([], (length p, None))
  | w :: rest =>
      let '(w', (n, err)) := Write w p in
      match err with
      | Some e => (w' :: rest, (n, Some e))
      | None =>
          if negb (n =? length p)%nat then (w' :: rest, (n, Some ErrShortWrite))
          else let '(rest', r) := multi_Write rest p in (w' :: rest', r)
      end
  end.

Record MultiWriter (W : Type) := { writers : list W }.
Arguments writers {W} _.

Global Instance MultiWriter_Writer {W} `{Writer W} : Writer (MultiWriter W) :=
  λ mw p, let '(ws, r) := multi_Write (writers mw) p in ({| writers := ws |}, r).

(** [io.Copy(dst, b)] for a [*bytes.Buffer] source ([Buffer.WriteTo]):
    one call of Write with the unread bytes, none when there are none. *)
Definition Copy_buffer {W} `{Writer W} (dst : W) (b : byteslice)
  : W * (Z * option error) :=
  match b with
  | [] => (dst, (0%Z, None))
  | _ =>
      let '(dst', (m, e)) := Write dst b in
      match e with
      | Some err => (dst', (Z.of_nat m, Some err))
      | None =>
          if negb (m =? length b)%nat then (dst', (Z.of_nat m, Some ErrShortWrite))
          else (dst', (Z.of_nat m, None))
      end
  end.

(** The copy loop of [io.Copy] over a source that yields [data] and then
    EOF, read through a buffer of [size] bytes: one call of Write per
    buffer-full.  [fuel] bounds the number of rounds. *)
Fixpoint copy_loop {W} `{Writer W} (fuel size : nat) (dst : W)
  (data : byteslice) (n : Z) : W * (Z * option error) :=
  match fuel, data with
  | _, [] => (dst, (n, None))
  | O, _ => (dst, (n, None))
  | S fuel, _ =>
      let chunk := List.firstn size data in
      let '(dst', (m, e)) := Write dst chunk in
      match e with
      | Some err => (dst', ((n + Z.of_nat m)%Z, Some err))
      | None =>
          if negb (m =? length chunk)%nat
          then (dst', ((n + Z.of_nat m)%Z, Some ErrShortWrite))
          else copy_loop fuel size dst' (List.skipn size data) (n + Z.of_nat m)%Z
      end
  end.

(** The byte strings the copy loop hands to Write, one per buffer-full. *)
Fixpoint chunks (fuel size : nat) (data : byteslice) : list byteslice :=
  match fuel, data with
  | _, [] => []
  | O, _ => []
  | S fuel, _ => List.firstn size data :: chunks fuel size (List.skipn size data)
  end.

(** [io.Copy(dst, f)] for an [*os.File] source: [inl e] is a file whose
    reads fail with [e] (a nil file fails with [ErrInvalid]). *)
Definition Copy_file {W} `{Writer W} (dst : W) (f : error + byteslice)
  : W * (Z * option error) :=
  match f with
  | inl e => (dst, (0%Z, Some e))
  | inr data => copy_loop (length data) (Z.to_nat 32768) dst data 0%Z
  end.

End io.

(** ** package compress/flate: the codec interface

    What the DEFLATE implementation computes is left open; the interface
    fixes how it talks to the writer below it. *)

Module flate.

Class Codec := {
  (** state of a compressor *)
  compressor : Type;
  (** [flate.NewWriter] *)
  NewWriter : compressor;
  (** one call of Write: the new state and the chunks of output pushed to
      the writer below, in order (none while the input is buffered) *)
  feed : compressor → byteslice → compressor * list byteslice;
  (** Close: the chunks that flush what is buffered and end the stream *)
  finish : compressor → list byteslice;
  (** decompression of the DEFLATE stream that starts the input: the
      bytes recovered, and either the error that ends them or the input
      left after the final block *)
  inflate : byteslice → byteslice * (error + byteslice)
}.

(** A series of calls of Write: the state reached and all the chunks
    pushed below. *)
Fixpoint feed_all `{Codec} (c : compressor) (inputs : list byteslice)
  : compressor * list byteslice :=
  match inputs with
  | [] => (c, [])
  | p :: rest =>
      let '(c1, out1) := feed c p in
      let '(c2, out2) := feed_all c1 rest in
      (c2, out1 ++ out2)
  end.

(** What a codec owes: the stream of a compressor that was fed and
    closed decompresses to what it was fed, and the decompressor stops
    where that stream ends. *)
Class Lawful `{Codec} : Prop := {
  inflate_feed_all : ∀ (inputs : list byteslice) (rest : byteslice),
    inflate (concat (snd (feed_all NewWriter inputs))
             ++ concat (finish (fst (feed_all NewWriter inputs))) ++ rest)
    = (concat inputs, inr rest)
}.

End flate.

(** Little-endian integers. *)

Definition byte_of_Z (z : Z) : Init.Byte.byte :=
  default Init.Byte.x00 (Byte.of_N (Z.to_N (z mod 256))).

Definition Z_of_byte (b : Init.Byte.byte) : Z := Z.of_N (Byte.to_N b).

Fixpoint le_put (width : nat) (z : Z) : byteslice :=
  match width with
  | O => []
  | S w => byte_of_Z z :: le_put w (z / 256)
  end.

Fixpoint le_get (bs : byteslice) : Z :=
  match bs with
  | [] => 0
  | b :: r => (Z_of_byte b + 256 * le_get r)%Z
  end.

(** ** package hash/crc32 *)

Module crc32.

Definition IEEE : Z := 3988292384.     (* 0xedb88320, the reversed polynomial *)

Fixpoint shift (k : nat) (c : Z) : Z :=
  match k with
  | O => c
  | S k => shift k (if Z.odd c then Z.lxor (Z.shiftr c 1) IEEE else Z.shiftr c 1)
  end.

Definition update (crc : Z) (b : Init.Byte.byte) : Z :=
  shift 8 (Z.lxor crc (Z_of_byte b)).

(** [crc32.ChecksumIEEE(data)], a [uint32]. *)
Definition ChecksumIEEE (data : byteslice) : Z :=
  (Z.lxor (fold_left update data 4294967295) 4294967295 mod 2 ^ 32)%Z.

End crc32.

(** ** package compress/gzip *)

Module gzip.
Section gzip.
Context `{flate.Codec}.

(** *** Writer *)

Record Writer (W : Type) := {
  w : W;                         (* the writer below *)
  wroteHeader : bool;
  comp : flate.compressor;
  seen : byteslice;              (* everything written so far: size and digest *)
  closed : bool;
  err : option error
}.
#[global] Arguments w {W} _.
#[global] Arguments wroteHeader {W} _.
#[global] Arguments comp {W} _.
#[global] Arguments seen {W} _.
#[global] Arguments closed {W} _.
#[global] Arguments err {W} _.

Definition NewWriter {W} (under : W) : Writer W :=
  {| w := under; wroteHeader := false; comp := flate.NewWriter;
     seen := []; closed := false; err := None |}.

(** The ten header bytes of a member: magic, method 8 (deflate), no
    flags, no modification time, default level, unknown OS. *)
Definition header_bytes : byteslice :=
  [Init.Byte.x1f; Init.Byte.x8b; Init.Byte.x08; Init.Byte.x00;
   Init.Byte.x00; Init.Byte.x00; Init.Byte.x00; Init.Byte.x00;
   Init.Byte.x00; Init.Byte.xff].

(** The calls of Write the writer below sees while the byte strings
    [inputs] are written to a new gzip writer: the header, then the
    chunks of the compressor. *)
Definition sink_calls (inputs : list byteslice) : list byteslice :=
  match inputs with
  | [] => []
  | _ => header_bytes :: snd (flate.feed_all flate.NewWriter inputs)
  end.

(** The compressor pushes its chunks to the writer below and stops at
    the first failure. *)
Fixpoint push {W} `{io.Writer W} (under : W) (chunks : list byteslice)
  : W * option error :=
  match chunks with
  | [] => (under, None)
  | c :: rest =>
      let '(under', (_, e)) := io.Write under c in
      match e with
      | Some err => (under', Some err)
      | None => push under' rest
      end
  end.

Definition Write {W} `{io.Writer W} (z : Writer W) (p : byteslice)
  : Writer W * (nat * option error) :=
  match err z with
  | Some e => (z, (O, Some e))
  | None =>
      (* the header is written lazily, by the first call *)
      let '(under, e) :=
        if wroteHeader z then (w z, None)
        else let '(u, (_, e)) := io.Write (w z) header_bytes in (u, e) in
      match e with
      | Some e =>
          ({| w := under; wroteHeader := true; comp := comp z; seen := seen z;
              closed := closed z; err := Some e |}, (O, Some e))
      | None =>
          let '(c, chunks) := flate.feed (comp z) p in
          let '(under', e) := push under chunks in
          ({| w := under'; wroteHeader := true; comp := c; seen := seen z ++ p;
              closed := closed z; err := e |},
           (match e with Some _ => O | None => length p end, e))
      end
  end.

Global Instance Writer_Writer {W} `{io.Writer W} : io.Writer (Writer W) := Write.

(** The trailer: CRC-32 and size modulo 2^32 of the uncompressed data. *)
Definition trailer (data : byteslice) : byteslice :=
  le_put 4 (crc32.ChecksumIEEE data) ++ le_put 4 (Z.of_nat (length data) mod 2 ^ 32).

Definition Close {W} `{io.Writer W} (z : Writer W) : Writer W * option error :=
  match err z with
  | Some e => (z, Some e)
  | None =>
      if closed z then (z, None)
      else
        let z1 := if wroteHeader z then z else fst (Write z []) in
        let z1 := {| w := w z1; wroteHeader := wroteHeader z1; comp := comp z1;
                     seen := seen z1; closed := true; err := err z1 |} in
        match err z1 with
        | Some e => (z1, Some e)
        | None =>
            let '(under, e) := push (w z1) (flate.finish (comp z1)) in
            match e with
            | Some e =>
                ({| w := under; wroteHeader := true; comp := comp z1;
                    seen := seen z1; closed := true; err := Some e |}, Some e)
            | None =>
                let '(under', (_, e)) := io.Write under (trailer (seen z1)) in
                ({| w := under'; wroteHeader := true; comp := comp z1;
                    seen := seen z1; closed := true; err := e |}, e)
            end
        end
  end.

(** The gzip writer over the sinks [ws] after the byte strings [inputs]
    were written to it and every call below was taken. *)
Definition after (ws : list io.Sink) (inputs : list byteslice)
  : Writer (io.MultiWriter io.Sink) :=
  {| w := {| io.writers := map (io.fed (sink_calls inputs)) ws |};
     wroteHeader := bool_decide (inputs ≠ []);
     comp := fst (flate.feed_all flate.NewWriter inputs);
     seen := concat inputs; closed := false; err := None |}.


(** *** Reader *)

(** [ReadFull]-style take of [n] bytes from the input of a reader whose
    source ends at the end of the list. *)
Definition take_exact (n : nat) (input : byteslice) : error + (byteslice * byteslice) :=
  if (n <=? length input)%nat then inr (List.firstn n input, List.skipn n input)
  else if decide (input = []) then inl EOF else inl ErrUnexpectedEOF.

Definition noEOF (e : error) : error :=
  if decide (e = EOF) then ErrUnexpectedEOF else e.

(** A NUL-terminated header string (name or comment) of at most 511
    bytes: what is left after it. *)
Fixpoint skip_string (budget : nat) (input : byteslice) : error + byteslice :=
  match budget with
  | O => inl GzipErrHeader
  | S k =>
      match input with
      | [] => inl ErrUnexpectedEOF
      | b :: rest => if decide (b = Init.Byte.x00) then inr rest else skip_string k rest
      end
  end.

(** [readHeader]: the input left after a member header, optional fields
    included. *)
Definition readHeader (input : byteslice) : error + byteslice :=
  match take_exact 10 input with
  | inl e => inl e
  | inr (hd, rest) =>
      if negb (bool_decide (List.firstn 3 hd
                 = [Init.Byte.x1f; Init.Byte.x8b; Init.Byte.x08]))
      then inl GzipErrHeader
      else
        let flg := Z_of_byte (List.nth 3 hd Init.Byte.x00) in
        let after_extra :=
          if Z.testbit flg 2 then
            match take_exact 2 rest with
            | inl e => inl (noEOF e)
            | inr (len, r) =>
                match take_exact (Z.to_nat (le_get len)) r with
                | inl e => inl (noEOF e)
                | inr (_, r') => inr r'
                end
            end
          else inr rest in
        let after_name :=
          match after_extra with
          | inl e => inl e
          | inr r => if Z.testbit flg 3 then skip_string 512 r else inr r
          end in
        let after_comment :=
          match after_name with
          | inl e => inl e
          | inr r => if Z.testbit flg 4 then skip_string 512 r else inr r
          end in
        match after_comment with
        | inl e => inl e
        | inr r =>
            if Z.testbit flg 1 then
              match take_exact 2 r with
              | inl e => inl (noEOF e)
              | inr (crc, r') =>
                  let consumed := List.firstn (length input - length r) input in
                  if (le_get crc =? crc32.ChecksumIEEE consumed mod 2 ^ 16)%Z
                  then inr r' else inl GzipErrHeader
              end
            else inr r
        end
  end.

(** The members of the stream from the body of one on: the bytes they
    decompress to, and the error that ends them ([None]: the input ended
    where a member could have started, a clean EOF). *)
Fixpoint read_members (fuel : nat) (body : byteslice) : byteslice * option error :=
  match fuel with
  | O => ([], Some ErrUnexpectedEOF)
  | S fuel =>
      let '(plain, r) := flate.inflate body in
      match r with
      | inl e => (plain, Some e)
      | inr rest =>
          match take_exact 8 rest with
          | inl e => (plain, Some (noEOF e))
          | inr (tl, rest') =>
              if negb ((le_get (List.firstn 4 tl) =? crc32.ChecksumIEEE plain)%Z &&
                       (le_get (List.skipn 4 tl)
                          =? Z.of_nat (length plain) mod 2 ^ 32)%Z)
              then (plain, Some GzipErrChecksum)
              else
                match readHeader rest' with
                | inl e => (plain, if decide (e = EOF) then None else Some e)
                | inr body' =>
                    let '(more, e) := read_members fuel body' in (plain ++ more, e)
                end
          end
      end
  end.

(** A reader over the stream: the decompressed bytes still to deliver
    and how they end. *)
Record Reader := {
  plain : byteslice;
  ending : option error
}.

(** [gzip.NewReader(r)]: the first header is read at once. *)
Definition NewReader (r : byteslice) : error + Reader :=
  match readHeader r with
  | inl e => inl e
  | inr body =>
      let '(p, e) := read_members (S (length body)) body in
      inr {| plain := p; ending := e |}
  end.

End gzip.
End gzip.

(** ** package archive/tar *)

Module tar.

(** [Header.Typeflag] values. *)
Definition TypeReg : Z := 48.       (* '0' *)
Definition TypeRegA : Z := 0.       (* '\x00', the zero value *)
Definition TypeLink : Z := 49.      (* '1' *)
Definition TypeSymlink : Z := 50.   (* '2' *)
Definition TypeChar : Z := 51.      (* '3' *)
Definition TypeBlock : Z := 52.     (* '4' *)
Definition TypeDir : Z := 53.       (* '5' *)
Definition TypeFifo : Z := 54.      (* '6' *)

Record Header := {
  Typeflag : Z;
  Name : string;
  Linkname : string;
  Size : Z;
  Mode : Z;
  Uid : Z;
  Gid : Z;
  Uname : string;
  Gname : string;
  ModTime : time.Time;
  AccessTime : time.Time;
  ChangeTime : time.Time
}.

Global Instance Header_eq_dec : EqDecision Header.
Proof. unfold time.Time. solve_decision. Defined.

(** The zero value [tar.Header{}]. *)
Definition Header0 : Header :=
  {| Typeflag := TypeRegA; Name := ""; Linkname := ""; Size := 0; Mode := 0;
     Uid := 0; Gid := 0; Uname := ""; Gname := "";
     ModTime := time.zero; AccessTime := time.zero; ChangeTime := time.zero |}.

Definition set_Typeflag (h : Header) (v : Z) : Header :=
  {| Typeflag := v; Name := Name h; Linkname := Linkname h; Size := Size h;
     Mode := Mode h; Uid := Uid h; Gid := Gid h; Uname := Uname h;
     Gname := Gname h; ModTime := ModTime h; AccessTime := AccessTime h;
     ChangeTime := ChangeTime h |}.

Definition set_Name (h : Header) (v : string) : Header :=
  {| Typeflag := Typeflag h; Name := v; Linkname := Linkname h; Size := Size h;
     Mode := Mode h; Uid := Uid h; Gid := Gid h; Uname := Uname h;
     Gname := Gname h; ModTime := ModTime h; AccessTime := AccessTime h;
     ChangeTime := ChangeTime h |}.

Definition set_Mode (h : Header) (v : Z) : Header :=
  {| Typeflag := Typeflag h; Name := Name h; Linkname := Linkname h;
     Size := Size h; Mode := v; Uid := Uid h; Gid := Gid h; Uname := Uname h;
     Gname := Gname h; ModTime := ModTime h; AccessTime := AccessTime h;
     ChangeTime := ChangeTime h |}.

Definition set_Uname (h : Header) (v : string) : Header :=
  {| Typeflag := Typeflag h; Name := Name h; Linkname := Linkname h;
     Size := Size h; Mode := Mode h; Uid := Uid h; Gid := Gid h; Uname := v;
     Gname := Gname h; ModTime := ModTime h; AccessTime := AccessTime h;
     ChangeTime := ChangeTime h |}.

Definition set_Gname (h : Header) (v : string) : Header :=
  {| Typeflag := Typeflag h; Name := Name h; Linkname := Linkname h;
     Size := Size h; Mode := Mode h; Uid := Uid h; Gid := Gid h;
     Uname := Uname h; Gname := v; ModTime := ModTime h;
     AccessTime := AccessTime h; ChangeTime := ChangeTime h |}.

Definition set_times (h : Header) (m a c : time.Time) : Header :=
  {| Typeflag := Typeflag h; Name := Name h; Linkname := Linkname h;
     Size := Size h; Mode := Mode h; Uid := Uid h; Gid := Gid h;
     Uname := Uname h; Gname := Gname h; ModTime := m; AccessTime := a;
     ChangeTime := c |}.

Definition c_ISUID : Z := 2048.     (* 04000 *)
Definition c_ISGID : Z := 1024.     (* 02000 *)
Definition c_ISVTX : Z := 512.      (* 01000 *)

Definition has_bit (m bit : Z) : bool := negb (Z.land m bit =? 0)%Z.

(** [tar.FileInfoHeader(fi, link)] on Unix. *)
Definition FileInfoHeader (fi : os.FileInfo) (link : string) : error + Header :=
  let fm := os.fi_Mode fi in
  let h := {| Typeflag := TypeRegA; Name := os.fi_Name fi; Linkname := "";
              Size := 0; Mode := os.Perm fm; Uid := 0; Gid := 0;
              Uname := ""; Gname := ""; ModTime := os.fi_ModTime fi;
              AccessTime := time.zero; ChangeTime := time.zero |} in
  let typed : error + Header :=
    if os.IsRegular fm then
      inr {| Typeflag := TypeReg; Name := Name h; Linkname := "";
             Size := os.fi_Size fi; Mode := Mode h; Uid := 0; Gid := 0;
             Uname := ""; Gname := ""; ModTime := ModTime h;
             AccessTime := time.zero; ChangeTime := time.zero |}
    else if os.IsDir fm then
      inr (set_Name (set_Typeflag h TypeDir) (Name h +:+ "/"))
    else if has_bit fm os.ModeSymlink then
      inr {| Typeflag := TypeSymlink; Name := Name h; Linkname := link;
             Size := 0; Mode := Mode h; Uid := 0; Gid := 0;
             Uname := ""; Gname := ""; ModTime := ModTime h;
             AccessTime := time.zero; ChangeTime := time.zero |}
    else if has_bit fm os.ModeDevice then
      inr (set_Typeflag h (if has_bit fm os.ModeCharDevice then TypeChar else TypeBlock))
    else if has_bit fm os.ModeNamedPipe then inr (set_Typeflag h TypeFifo)
    else if has_bit fm os.ModeSocket then inl TarSocket
    else inl (TarUnknownMode fm) in
  match typed with
  | inl e => inl e
  | inr h =>
      let mode :=
        Z.lor (Z.lor (Z.lor (Mode h)
          (if has_bit fm os.ModeSetuid then c_ISUID else 0))
          (if has_bit fm os.ModeSetgid then c_ISGID else 0))
          (if has_bit fm os.ModeSticky then c_ISVTX else 0) in
      inr {| Typeflag := Typeflag h; Name := Name h; Linkname := Linkname h;
             Size := Size h; Mode := mode; Uid := os.fi_Uid fi; Gid := os.fi_Gid fi;
             Uname := os.fi_Uname fi; Gname := os.fi_Gname fi; ModTime := ModTime h;
             AccessTime := os.fi_Atime fi; ChangeTime := os.fi_Ctime fi |}
  end.

Definition blockSize : nat := 512.

Definition zeroBlock : byteslice := List.repeat Init.Byte.x00 blockSize.

(** [blockPadding(n)]: what takes [n] to the next multiple of the block
    size. *)
Definition blockPadding (n : Z) : Z := ((- n) mod 512)%Z.

Definition isHeaderOnlyType (flag : Z) : bool :=
  bool_decide (flag ∈ [TypeLink; TypeSymlink; TypeChar; TypeBlock; TypeDir; TypeFifo]).

(** A legacy zero type flag becomes [TypeDir] for a name that ends in a
    slash and [TypeReg] otherwise (writer and reader alike). *)
Definition promote (h : Header) : Header :=
  if decide (Typeflag h = TypeRegA) then
    set_Typeflag h (if strings.HasSuffix (Name h) "/" then TypeDir else TypeReg)
  else h.

(** The header record format.  [marshal] stands for the choice of a
    format (USTAR, PAX, GNU) and the encoding of the header in it:
    [inl e] when no format can carry the header, else the record.
    [parse] reads a record that is not a zero block. *)
Class Format := {
  marshal : Header → error + byteslice;
  parse : byteslice → error + Header
}.

(** What a format owes: a record is one block, is not the zero block,
    and reads back as the header it was made from. *)
Class Lawful `{Format} : Prop := {
  marshal_length : ∀ h blk, marshal h = inr blk → length blk = blockSize;
  marshal_not_zero : ∀ h blk, marshal h = inr blk → blk ≠ zeroBlock;
  parse_marshal : ∀ h blk, marshal h = inr blk → parse blk = inr h
}.

Section tar.
Context `{Format}.

(** *** Writer *)

Record Writer (W : Type) := {
  w : W;                         (* the writer below *)
  pad : Z;                       (* padding owed after the current entry *)
  nb : Z;                        (* bytes the current entry still expects *)
  err : option error
}.
#[global] Arguments w {W} _.
#[global] Arguments pad {W} _.
#[global] Arguments nb {W} _.
#[global] Arguments err {W} _.

Definition NewWriter {W} (under : W) : Writer W :=
  {| w := under; pad := 0; nb := 0; err := None |}.

(** [tw.Flush()]: fails while the entry is short of bytes, else writes
    the padding owed (a call of Write even for none). *)
Definition Flush {W} `{io.Writer W} (tw : Writer W) : Writer W * option error :=
  match err tw with
  | Some e => (tw, Some e)
  | None =>
      if (0 <? nb tw)%Z then (tw, Some (TarMissedWriting (nb tw)))
      else
        let '(under, (_, e)) :=
          io.Write (w tw) (List.firstn (Z.to_nat (pad tw)) zeroBlock) in
        match e with
        | Some e => ({| w := under; pad := pad tw; nb := nb tw; err := Some e |}, Some e)
        | None => ({| w := under; pad := 0; nb := nb tw; err := None |}, None)
        end
  end.

(** [writeRawHeader]: the record goes out and the entry's size and
    padding are noted. The error is made sticky by the caller. *)
Definition writeRawHeader {W} `{io.Writer W} (tw : Writer W) (blk : byteslice)
  (size flag : Z) : Writer W * option error :=
  let '(tw1, e) := Flush tw in
  match e with
  | Some e => (tw1, Some e)
  | None =>
      let '(under, (_, e)) := io.Write (w tw1) blk in
      match e with
      | Some e => ({| w := under; pad := pad tw1; nb := nb tw1; err := Some e |}, Some e)
      | None =>
          let size := if isHeaderOnlyType flag then 0%Z else size in
          ({| w := under; pad := blockPadding size; nb := size; err := None |}, None)
      end
  end.

(** What [WriteHeader] makes of the header before it is encoded: the
    type flag promoted, the modification time rounded to the second,
    access and change time dropped (no format was chosen). *)
Definition prepare (hdr : Header) : Header :=
  let h := promote hdr in
  set_times h (time.Round (ModTime h) time.Second) time.zero time.zero.

(** The record of a header that can be encoded. *)
Definition block (h : Header) : byteslice :=
  match marshal h with inr blk => blk | inl _ => [] end.

Definition WriteHeader {W} `{io.Writer W} (tw : Writer W) (hdr : Header)
  : Writer W * option error :=
  let '(tw1, e) := Flush tw in
  match e with
  | Some e => (tw1, Some e)
  | None =>
      let h := prepare hdr in
      match marshal h with
      | inl e => (tw1, Some e)          (* not kept: a non-fatal error *)
      | inr blk => writeRawHeader tw1 blk (Size h) (Typeflag h)
      end
  end.

(** [tw.Write(b)]: at most what the entry still expects goes below. *)
Definition Write {W} `{io.Writer W} (tw : Writer W) (b : byteslice)
  : Writer W * (nat * option error) :=
  match err tw with
  | Some e => (tw, (O, Some e))
  | None =>
      let overwrite := (nb tw <? Z.of_nat (length b))%Z in
      let b := if overwrite then List.firstn (Z.to_nat (nb tw)) b else b in
      match b with
      | [] => (tw, (O, if overwrite then Some TarErrWriteTooLong else None))
      | _ =>
          let '(under, (n, e)) := io.Write (w tw) b in
          let tw' := {| w := under; pad := pad tw; nb := (nb tw - Z.of_nat n)%Z;
                        err := e |} in
          match e with
          | Some e => (tw', (n, Some e))
          | None => (tw', (n, if overwrite then Some TarErrWriteTooLong else None))
          end
      end
  end.

Global Instance Writer_Writer {W} `{io.Writer W} : io.Writer (Writer W) := Write.

(** [tw.Close()]: padding and the two zero blocks of the trailer. *)
Definition Close {W} `{io.Writer W} (tw : Writer W) : Writer W * option error :=
  match err tw with
  | Some e => if decide (e = TarErrWriteAfterClose) then (tw, None) else (tw, Some e)
  | None =>
      let '(tw1, e) := Flush tw in
      let '(under, e) :=
        match e with
        | Some e => (w tw1, Some e)
        | None =>
            let '(u1, (_, e1)) := io.Write (w tw1) zeroBlock in
            match e1 with
            | Some e1 => (u1, Some e1)
            | None => let '(u2, (_, e2)) := io.Write u1 zeroBlock in (u2, e2)
            end
        end in
      ({| w := under; pad := pad tw1; nb := nb tw1;
          err := Some TarErrWriteAfterClose |}, e)
  end.

(** *** Reader *)

Record Reader := {
  r_data : byteslice;            (* decompressed bytes not yet read *)
  r_end : option error;          (* how they end: [None] is a clean EOF *)
  r_nb : Z;                      (* bytes of the current entry not yet read *)
  r_pad : Z;
  r_err : option error
}.

Definition NewReader (gz : @gzip.Reader) : Reader :=
  {| r_data := gzip.plain gz; r_end := gzip.ending gz; r_nb := 0; r_pad := 0;
     r_err := None |}.

(** The error a read meets where the data ends. *)
Definition end_error (r : Reader) : error := default EOF (r_end r).

(** [io.ReadFull] of [n] bytes. *)
Definition readFull (r : Reader) (n : nat) : error + (byteslice * byteslice) :=
  if (n <=? length (r_data r))%nat
  then inr (List.firstn n (r_data r), List.skipn n (r_data r))
  else if decide (r_data r = []) then inl (end_error r)
  else inl (gzip.noEOF (end_error r)).

(** [discard]: skip [n] bytes, an early end is unexpected. *)
Definition discard (r : Reader) (n : nat) : error + byteslice :=
  if (n <=? length (r_data r))%nat then inr (List.skipn n (r_data r))
  else inl (gzip.noEOF (end_error r)).

Definition is_zero_block (blk : byteslice) : bool := bool_decide (blk = zeroBlock).

(** [readHeader]: two zero blocks end the archive. *)
Definition readHeader (r : Reader) : error + (Header * byteslice) :=
  match readFull r blockSize with
  | inl e => inl e
  | inr (blk, rest) =>
      if is_zero_block blk then
        match readFull {| r_data := rest; r_end := r_end r; r_nb := 0; r_pad := 0;
                          r_err := None |} blockSize with
        | inl e => inl e
        | inr (blk2, _) => if is_zero_block blk2 then inl EOF else inl TarErrHeader
        end
      else
        match parse blk with
        | inl e => inl e
        | inr h => inr (h, rest)
        end
  end.

(** [tr.next()]: what is left of the current entry and its padding is
    skipped, the next header read and the entry set up. *)
Definition next (r : Reader) : error + (Header * Reader) :=
  match discard r (Z.to_nat (r_nb r) + Z.to_nat (r_pad r)) with
  | inl e => inl e
  | inr rest =>
      match readHeader {| r_data := rest; r_end := r_end r; r_nb := 0; r_pad := 0;
                          r_err := None |} with
      | inl e => inl e
      | inr (h, rest') =>
          let h := promote h in
          let size := if isHeaderOnlyType (Typeflag h) then 0%Z else Size h in
          if (size <? 0)%Z then inl TarErrHeader
          else inr (h, {| r_data := rest'; r_end := r_end r; r_nb := size;
                          r_pad := blockPadding size; r_err := None |})
      end
  end.

(** [tr.Next()]: the header is nil whenever the error is not, and the
    error (the EOF at the end of the archive too) is kept. *)
Definition Next (r : Reader) : (option Header * option error) * Reader :=
  match r_err r with
  | Some e => ((None, Some e), r)
  | None =>
      match next r with
      | inl e =>
          ((None, Some e),
           {| r_data := r_data r; r_end := r_end r; r_nb := r_nb r;
              r_pad := r_pad r; r_err := Some e |})
      | inr (h, r') => ((Some h, None), r')
      end
  end.

(** All of the current entry, as [io.Copy(f, tr)] reads it: the bytes
    got and the error that stopped the copy, if any. *)
Definition ReadAll (r : Reader) : (byteslice * option error) * Reader :=
  match r_err r with
  | Some e => (([], Some e), r)
  | None =>
      let want := Z.to_nat (r_nb r) in
      let got := List.firstn want (r_data r) in
      let rest := List.skipn want (r_data r) in
      if (want <=? length (r_data r))%nat then
        ((got, None),
         {| r_data := rest; r_end := r_end r; r_nb := 0; r_pad := r_pad r;
            r_err := None |})
      else
        let e := gzip.noEOF (end_error r) in
        ((got, Some e),
         {| r_data := rest; r_end := r_end r;
            r_nb := (r_nb r - Z.of_nat (length got))%Z; r_pad := r_pad r;
            r_err := Some e |})
  end.

End tar.
End tar.

(** * tgz.go *)

(** The writer chain of [Bytes] and [Tar]: the tar writer [tw] over the
    gzip writer [gzw] over the multi-writer [mw] over the caller's
    writers.  [tw] holds [gzw] and [gzw] holds [mw], as the pointers do. *)
Abbreviation pipeline := (tar.Writer (gzip.Writer (io.MultiWriter io.Sink))).

Section tgz.
Context `{os.Process} `{flate.Codec} `{tar.Format}.

(** The writer chain over the sinks [ws] after the byte strings [inputs]
    went through the gzip writer and every call below was taken, with
    [n] bytes of the entry and [p] bytes of padding owed. *)
Definition chain_after (ws : list io.Sink) (inputs : list byteslice) (n p : Z)
  : pipeline :=
  {| tar.w := gzip.after ws inputs; tar.pad := p; tar.nb := n; tar.err := None |}.

(** The two deferred calls, in the order they run when the function
    returns: [tw.Close()], then [gzw.Close()].  What they return is
    dropped by the function; it is kept here beside the state the
    caller's writers are left in. *)
Definition deferred_Close (tw : pipeline)
  : (option error * option error) * list io.Sink :=
  let '(tw, e1) := tar.Close tw in
  let '(gzw, e2) := gzip.Close (tar.w tw) in
  ((e1, e2), io.writers (gzip.w gzw)).

(** The header [Bytes] writes for the buffer. *)
Definition buffer_header (b : byteslice) (opt : tar.Header) : tar.Header :=
  {| tar.Typeflag := tar.TypeRegA; tar.Name := tar.Name opt;
     tar.Linkname := ""; tar.Size := Z.of_nat (length b);
     tar.Mode := tar.Mode opt; tar.Uid := 0; tar.Gid := 0;
     tar.Uname := tar.Uname opt; tar.Gname := tar.Gname opt;
     tar.ModTime := tar.ModTime opt;
     tar.AccessTime := time.zero; tar.ChangeTime := time.zero |}.

(** The options [Bytes] takes for a nil [opt]. *)
Definition Bytes_defaults (clock : time.Clock) : tar.Header :=
  {| tar.Typeflag := tar.TypeRegA;
     tar.Name := time.Format_compact (clock 0%nat);
     tar.Linkname := ""; tar.Size := 0; tar.Mode := 420 (* 0644 *);
     tar.Uid := 0; tar.Gid := 0; tar.Uname := "user"; tar.Gname := "user";
     tar.ModTime := time.Round (clock 1%nat) time.Second;
     tar.AccessTime := time.zero; tar.ChangeTime := time.zero |}.

(** [Bytes(b, opt, w...)], with all it does: the count and error it
    returns, the errors of its two deferred calls, and the writers
    afterwards.  [b] holds the unread bytes of the buffer. *)
Definition Bytes_run (clock : time.Clock) (b : byteslice) (opt : option tar.Header)
  (w : list io.Sink)
  : (Z * option error) * (option error * option error) * list io.Sink :=
  (* apply default options when nil is passed *)
  let opt := match opt with None => Bytes_defaults clock | Some o => o end in
  (* create a writer that duplicates its writes *)
  let mw := {| io.writers := w |} in
  let gzw := gzip.NewWriter mw in
  let tw : pipeline := tar.NewWriter gzw in
  (* write a header to the tarball archive; its error is not looked at *)
  let '(tw, _) := tar.WriteHeader tw (buffer_header b opt) in
  (* copy bytes to archive *)
  let '(tw, r) := io.Copy_buffer tw b in
  let '(dropped, sinks) := deferred_Close tw in
  (r, dropped, sinks).

(** The options [Bytes] works with. *)
Definition Bytes_options (clock : time.Clock) (opt : option tar.Header)
  : tar.Header :=
  match opt with None => Bytes_defaults clock | Some o => o end.

(** The byte strings that reach the gzip writer while [Bytes] runs, for
    a header whose record is [blk]: up to the end of the copy (two
    flushes of no padding, the record, the buffer unless it is empty),
    and up to the end of [tw.Close()] (the padding and two zero
    blocks). *)
Definition copied (b : byteslice) : list byteslice :=
  match b with [] => [] | _ => [b] end.

Definition body_inputs (blk b : byteslice) : list byteslice :=
  [[]; []; blk] ++ copied b.

Definition archive_inputs (blk b : byteslice) : list byteslice :=
  body_inputs blk b
  ++ [List.firstn (Z.to_nat (tar.blockPadding (Z.of_nat (length b)))) tar.zeroBlock;
      tar.zeroBlock; tar.zeroBlock].

(** The calls of Write the sinks see for a whole archive: those of the
    inputs, the rest of the compressed stream, and the trailer. *)
Definition archive_calls (blk b : byteslice) : list byteslice :=
  gzip.sink_calls (archive_inputs blk b)
  ++ flate.finish (fst (flate.feed_all flate.NewWriter (archive_inputs blk b)))
  ++ [gzip.trailer (concat (archive_inputs blk b))].

(** The calls of Write the sinks see for any series of inputs to a gzip
    writer that is closed after them. *)
Definition stream_calls (inputs : list byteslice) : list byteslice :=
  gzip.sink_calls inputs
  ++ flate.finish (fst (flate.feed_all flate.NewWriter inputs))
  ++ [gzip.trailer (concat inputs)].


(** What the caller of [Bytes] gets: the returned values and the
    writers. *)
Definition Bytes (clock : time.Clock) (b : byteslice) (opt : option tar.Header)
  (w : list io.Sink) : (Z * option error) * list io.Sink :=
  let '(r, _, sinks) := Bytes_run clock b opt w in (r, sinks).

(** The name [Tar] gives the entry of a walked file:
    [strings.TrimPrefix(strings.Replace(file, src, "", -1), string(filepath.Separator))]. *)
Definition entry_name (src file : string) : string :=
  strings.TrimPrefix (strings.Replace file src "" (-1))
    (String filepath.Separator "").

(** The entry name as the specification words it: the walked path with
    the [src] prefix removed once from the front and the leading
    separator stripped. *)
Definition relative_name (src file : string) : string :=
  strings.TrimPrefix (strings.TrimPrefix file src) (String filepath.Separator "").

(** The callback [Tar] hands to [filepath.Walk]. *)
Definition walk_file (src : string) (opt : tar.Header)
  : filepath.WalkFunc pipeline :=
  λ file info err tw,
  (* walk failed, so we fail too *)
  match err, info with
  | Some e, _ => (tw, Some e)
  | None, None => (tw, None)   (* no such call: lstat gave an info or an error *)
  | None, Some (info, found) =>
      (* fail when mode bits are set, no executables *)
      if negb (os.IsRegular (os.fi_Mode info)) then (tw, None)
      else
        (* create a new file header for the archive *)
        match tar.FileInfoHeader info (os.fi_Name info) with
        | inl e => (tw, Some e)
        | inr header =>
            let header := tar.set_Gname header (tar.Gname opt) in
            let header := tar.set_Uname header (tar.Uname opt) in
            let header := tar.set_Mode header (tar.Mode opt) in
            (* use updated modification time *)
            let header :=
              if negb (time.IsZero (tar.ModTime opt))
              then tar.set_times header (tar.ModTime opt) (tar.ModTime opt)
                     (tar.ModTime opt)
              else header in
            (* utilize an updated name for the correct path when untaring *)
            let header := tar.set_Name header (entry_name src file) in
            (* write the file header *)
            let '(tw, e) := tar.WriteHeader tw header in
            match e with
            | Some e => (tw, Some e)
            | None =>
                (* copy the file source *)
                let '(tw, (_, e)) := io.Copy_file tw (os.Open found) in
                (tw, e)
            end
        end
  end.

(** The options [Tar] takes for a nil [opt]. *)
Definition Tar_defaults : tar.Header :=
  {| tar.Typeflag := tar.TypeRegA; tar.Name := ""; tar.Linkname := "";
     tar.Size := 0; tar.Mode := 420 (* 0644 *); tar.Uid := 0; tar.Gid := 0;
     tar.Uname := "user"; tar.Gname := "user"; tar.ModTime := time.zero;
     tar.AccessTime := time.zero; tar.ChangeTime := time.zero |}.

(** The options [Tar] works with. *)
Definition Tar_options (opt : option tar.Header) : tar.Header :=
  match opt with None => Tar_defaults | Some o => o end.

(** The header [Tar] writes for a single file. *)
Definition file_header (src : string) (info : os.FileInfo) (opt : tar.Header)
  : tar.Header :=
  {| tar.Typeflag := tar.TypeRegA; tar.Name := filepath.Base src;
     tar.Linkname := ""; tar.Size := os.fi_Size info;
     tar.Mode := tar.Mode opt; tar.Uid := 0; tar.Gid := 0;
     tar.Uname := tar.Uname opt; tar.Gname := tar.Gname opt;
     tar.ModTime := time.zero; tar.AccessTime := time.zero;
     tar.ChangeTime := time.zero |}.

(** [Tar(src, opt, writers...)], with all it does; [root] is what the
    path [src] names.  The error returned, the errors of the two
    deferred calls (none when [Tar] returns before it defers them), and
    the writers afterwards. *)
Definition Tar_run (src : string) (root : os.node) (opt : option tar.Header)
  (writers : list io.Sink)
  : option error * (option error * option error) * list io.Sink :=
  (* apply default options when nil is passed *)
  let opt := match opt with None => Tar_defaults | Some o => o end in
  match os.Stat_source src root with
  | inl e => (Some e, (None, None), writers)
  | inr info =>
      (* create a writer that duplicates its writes *)
      let mw := {| io.writers := writers |} in
      let gzw := gzip.NewWriter mw in
      let tw : pipeline := tar.NewWriter gzw in
      (* path is a single file not a directory *)
      if negb (os.IsDir (os.fi_Mode info)) then
        (* fail when mode bits are set; no executables *)
        if negb (os.IsRegular (os.fi_Mode info)) then
          let '(dropped, sinks) := deferred_Close tw in (None, dropped, sinks)
        else
          (* write a header to the tarball archive *)
          let '(tw, _) := tar.WriteHeader tw (file_header src info opt) in
          (* copy the file source *)
          let '(tw, (_, err)) := io.Copy_file tw (os.Open root) in
          let '(dropped, sinks) := deferred_Close tw in (err, dropped, sinks)
      else
        (* walk path and all sub directory tree *)
        let '(tw, err) := filepath.Walk src root (walk_file src opt) tw in
        let '(dropped, sinks) := deferred_Close tw in (err, dropped, sinks)
  end.

(** What the caller of [Tar] gets: the returned error and the writers. *)
Definition Tar (src : string) (root : os.node) (opt : option tar.Header)
  (writers : list io.Sink) : option error * list io.Sink :=
  let '(err, _, sinks) := Tar_run src root opt writers in (err, sinks).






(** The header the walk callback writes for a regular file [file] of
    which lstat reported [info]. *)
Definition walk_header (src : string) (opt : tar.Header) (file : string)
  (info : os.FileInfo) : tar.Header :=
  match tar.FileInfoHeader info (os.fi_Name info) with
  | inl _ => tar.Header0
  | inr header =>
      let header := tar.set_Gname header (tar.Gname opt) in
      let header := tar.set_Uname header (tar.Uname opt) in
      let header := tar.set_Mode header (tar.Mode opt) in
      let header :=
        if negb (time.IsZero (tar.ModTime opt))
        then tar.set_times header (tar.ModTime opt) (tar.ModTime opt)
               (tar.ModTime opt)
        else header in
      tar.set_Name header (entry_name src file)
  end.

(** The regular files of a tree in the order [filepath.Walk] comes to
    them: the path handed to the callback, what lstat reported, and the
    bytes of the file. *)
Fixpoint walked (path : string) (n : os.node)
  : list (string * os.FileInfo * byteslice) :=
  match n with
  | os.File _ data _ =>
      match os.Lstat path n with
      | inr info =>
          if os.IsRegular (os.fi_Mode info) then [(path, info, data)] else []
      | inl _ => []
      end
  | os.Dir _ entries _ =>
      (fix children (l : list (string * os.node)) :=
         match l with
         | [] => []
         | (name, c) :: rest => walked (filepath.Join path name) c ++ children rest
         end) entries
  | _ => []
  end.

(** An entry of the walk whose header can be encoded, and the entries
    of the walk as the callback hands them to the tar writer. *)
Definition encodable_entry (src : string) (opt : tar.Header)
  (e : string * os.FileInfo * byteslice) : Prop :=
  ∃ blk, tar.marshal (tar.prepare (walk_header src opt e.1.1 e.1.2)) = inr blk.

Definition heads (src : string) (opt : tar.Header)
  (es : list (string * os.FileInfo * byteslice)) : list (tar.Header * byteslice) :=
  map (λ e, (walk_header src opt e.1.1 e.1.2, e.2)) es.

(** A tree the walk gets through: every directory can be read, every
    name can be lstat'ed and every file opened. *)
Fixpoint readable_tree (n : os.node) : bool :=
  match n with
  | os.File _ _ readable => readable
  | os.Symlink _ _ => true
  | os.Dir _ entries read_err =>
      bool_decide (read_err = None)
      && (fix children (l : list (string * os.node)) :=
            match l with
            | [] => true
            | (_, c) :: rest => readable_tree c && children rest
            end) entries
  | os.Missing _ => false
  end.

(** The byte strings that reach the gzip writer for a series of entries
    (header and bytes) written after an entry of [n] bytes: for each one
    the padding of the entry before, the flush of none, the record and
    the bytes in buffers of 32 KiB; and the size of the last entry. *)
Fixpoint entries_inputs (n : Z) (es : list (tar.Header * byteslice))
  : list byteslice * Z :=
  match es with
  | [] => ([], n)
  | (h, data) :: rest =>
      let '(more, last) := entries_inputs (Z.of_nat (length data)) rest in
      ([List.firstn (Z.to_nat (tar.blockPadding n)) tar.zeroBlock; [];
        tar.block (tar.prepare h)]
       ++ io.chunks (length data) (Z.to_nat 32768) data ++ more, last)
  end.

(** A path lies inside a root directory when it is the root or the
    root followed by a separator and more. *)
Definition inside (root path : string) : bool :=
  bool_decide (path = root) || strings.HasPrefix path (root +:+ "/").

(** One round of the loop of [Untar]: either the loop goes on, or the
    function returns. *)
Inductive round : Type :=
| Continue (tr : tar.Reader) (fs : os.FS)
| Return (err : option error) (fs : os.FS).

(** The file table a round leaves. *)
Definition files_after (r : round) : os.FS :=
  match r with Continue _ fs => fs | Return _ fs => fs end.

Definition Untar_round (dst : string) (tr : tar.Reader) (fs : os.FS) : round :=
  let '((header, err), tr) := tar.Next tr in
  match header with
  | None => Continue tr fs                    (* case header == nil: continue *)
  | Some header =>
      if decide (err = Some EOF) then Return None fs  (* case err == io.EOF *)
      else
        match err with
        | Some e => Return (Some e) fs        (* case err != nil *)
        | None =>
            let target := filepath.Join dst (tar.Name header) in
            if decide (tar.Typeflag header = tar.TypeDir) then
              match os.Stat fs target with
              | inl _ =>
                  let '(fs', e) :=
                    os.MkdirAll fs target (os.FileMode (tar.Mode header)) in
                  match e with
                  | Some e => Return (Some e) fs'
                  | None => Continue tr fs'
                  end
              | inr _ => Continue tr fs
              end
            else if decide (tar.Typeflag header = tar.TypeReg) then
              match os.OpenFile_create_wronly fs target
                      (os.FileMode (tar.Mode header)) with
              | (fs', inl e) => Return (Some e) fs'
              | (fs', inr old) =>
                  let '((data, e), tr') := tar.ReadAll tr in
                  let fs'' :=
                    os.set_content fs' target (os.write_from_start old data) in
                  match e with
                  | Some e => Return (Some e) fs''
                  | None => Continue tr' fs''
                  end
              end
            else Continue tr fs
        end
  end.

(** How a call stands after some rounds: returned with an error value,
    or still in the loop. *)
Inductive outcome : Type :=
| Returned (err : option error)
| Running.

Fixpoint Untar_loop (rounds : nat) (dst : string) (tr : tar.Reader) (fs : os.FS)
  : outcome * os.FS :=
  match rounds with
  | O => (Running, fs)
  | S k =>
      match Untar_round dst tr fs with
      | Continue tr' fs' => Untar_loop k dst tr' fs'
      | Return err fs' => (Returned err, fs')
      end
  end.

(** [Untar(dst, r)] on the file table [fs], followed for [rounds] rounds
    of its loop: the outcome and the file table reached. *)
Definition Untar (rounds : nat) (dst : string) (r : byteslice) (fs : os.FS)
  : outcome * os.FS :=
  match gzip.NewReader r with
  | inl e => (Returned (Some e), fs)
  | inr gzr => Untar_loop rounds dst (tar.NewReader gzr) fs
  end.

(** Reading an archive back, entry by entry: the headers [tr.Next()]
    yields, each with the bytes of its entry. *)
Fixpoint entries (fuel : nat) (tr : tar.Reader) : list (tar.Header * byteslice) :=
  match fuel with
  | O => []
  | S k =>
      match tar.Next tr with
      | ((Some h, None), tr') =>
          let '((data, _), tr'') := tar.ReadAll tr' in (h, data) :: entries k tr''
      | _ => []
      end
  end.

Definition listing (stream : byteslice) : list (tar.Header * byteslice) :=
  match gzip.NewReader stream with
  | inr gzr => entries (length stream) (tar.NewReader gzr)
  | inl _ => []
  end.

End tgz.

(** * A codec and a header format that meet the interfaces

    The interfaces above are met by the following pair, small enough to
    run: a compressor that buffers its input until Close and then emits
    it byte-stuffed in one chunk, and a header record of length-prefixed
    fields padded to a block. *)

Module model.

Definition stuff (data : byteslice) : byteslice :=
  flat_map (λ b, [Init.Byte.x01; b]) data ++ [Init.Byte.x00].

Fixpoint unstuff (input : byteslice) : byteslice * (error + byteslice) :=
  match input with
  | [] => ([], inl ErrUnexpectedEOF)
  | t :: r =>
      if decide (t = Init.Byte.x00) then ([], inr r)
      else if decide (t = Init.Byte.x01) then
        match r with
        | [] => ([], inl ErrUnexpectedEOF)
        | b :: r' => let '(p, e) := unstuff r' in (b :: p, e)
        end
      else ([], inl (Custom "flate: corrupt input"))
  end.

Global Instance codec : flate.Codec := {|
  flate.compressor := byteslice;
  flate.NewWriter := [];
  flate.feed c p := (c ++ p, []);
  flate.finish c := [stuff c];
  flate.inflate := unstuff
|}.

(** A codec that buffers nothing: what a call of Write is given goes
    to the writer below at once, as it does from a compressor whose
    window is full. *)
Definition eager : flate.Codec := {|
  flate.compressor := unit;
  flate.NewWriter := tt;
  flate.feed _ p :=
    (tt, match p with [] => [] | _ => [flat_map (λ b, [Init.Byte.x01; b]) p] end);
  flate.finish _ := [[Init.Byte.x00]];
  flate.inflate := unstuff
|}.

(** The process of the runs below: the usual umask, 022. *)
#[export] Instance process : os.Process := {| os.umask := 18 |}.

Definition fits (width : nat) (z : Z) : bool :=
  (0 <=? z)%Z && (z <? 256 ^ Z.of_nat width)%Z.

Definition put_string (s : string) : byteslice :=
  byte_of_Z (Z.of_nat (String.length s)) :: list_byte_of_string s.

Definition get_string (input : byteslice) : option (string * byteslice) :=
  match input with
  | [] => None
  | n :: rest =>
      let k := Z.to_nat (Z_of_byte n) in
      if (k <=? length rest)%nat
      then Some (string_of_list_byte (List.firstn k rest), List.skipn k rest)
      else None
  end.

Definition get_int (width : nat) (input : byteslice) : option (Z * byteslice) :=
  if (width <=? length input)%nat
  then Some (le_get (List.firstn width input), List.skipn width input)
  else None.

Definition encodable (h : tar.Header) : bool :=
  fits 1 (tar.Typeflag h) && fits 8 (tar.Size h) && fits 8 (tar.Mode h) &&
  fits 8 (tar.Uid h) && fits 8 (tar.Gid h) && fits 12 (tar.ModTime h) &&
  fits 12 (tar.AccessTime h) && fits 12 (tar.ChangeTime h) &&
  (String.length (tar.Name h) <? 256)%nat &&
  (String.length (tar.Linkname h) <? 256)%nat &&
  (String.length (tar.Uname h) <? 256)%nat &&
  (String.length (tar.Gname h) <? 256)%nat.

Definition fields (h : tar.Header) : byteslice :=
  le_put 1 (tar.Typeflag h) ++ put_string (tar.Name h) ++
  put_string (tar.Linkname h) ++ le_put 8 (tar.Size h) ++
  le_put 8 (tar.Mode h) ++ le_put 8 (tar.Uid h) ++ le_put 8 (tar.Gid h) ++
  put_string (tar.Uname h) ++ put_string (tar.Gname h) ++
  le_put 12 (tar.ModTime h) ++ le_put 12 (tar.AccessTime h) ++
  le_put 12 (tar.ChangeTime h).

Definition marshal (h : tar.Header) : error + byteslice :=
  let body := Init.Byte.x75 :: fields h in
  if encodable h && (length body <=? tar.blockSize)%nat
  then inr (body ++ List.repeat Init.Byte.x00 (tar.blockSize - length body))
  else inl (Custom "archive/tar: cannot encode header").

Definition parse_fields (input : byteslice) : option tar.Header :=
  '(tf, r) ← get_int 1 input;
  '(name, r) ← get_string r;
  '(link, r) ← get_string r;
  '(size, r) ← get_int 8 r;
  '(mode, r) ← get_int 8 r;
  '(uid, r) ← get_int 8 r;
  '(gid, r) ← get_int 8 r;
  '(uname, r) ← get_string r;
  '(gname, r) ← get_string r;
  '(mtime, r) ← get_int 12 r;
  '(atime, r) ← get_int 12 r;
  '(ctime, r) ← get_int 12 r;
  Some {| tar.Typeflag := tf; tar.Name := name; tar.Linkname := link;
          tar.Size := size; tar.Mode := mode; tar.Uid := uid; tar.Gid := gid;
          tar.Uname := uname; tar.Gname := gname; tar.ModTime := mtime;
          tar.AccessTime := atime; tar.ChangeTime := ctime |}.

Definition parse (blk : byteslice) : error + tar.Header :=
  match blk with
  | t :: r =>
      if decide (t = Init.Byte.x75) then
        match parse_fields r with
        | Some h => inr h
        | None => inl TarErrHeader
        end
      else inl TarErrHeader
  | [] => inl TarErrHeader
  end.

Global Instance format : tar.Format := {|
  tar.marshal := marshal;
  tar.parse := parse
|}.

(** A writer that never fails and one that fails from its [k]-th call
    of Write on. *)
Definition good_sink : io.Sink :=
  {| io.written := []; io.healthy := None; io.failure := Custom "" |}.

Definition failing_sink (k : nat) (msg : string) : io.Sink :=
  {| io.written := []; io.healthy := Some k; io.failure := Custom msg |}.

(** A clock that stands at November 1, 2026, 06:03:07 UTC. *)
Definition clock : time.Clock :=
  λ _, ((739920 * 86400 + 6 * 3600 + 3 * 60 + 7) * 1000000000)%Z.

Definition text : byteslice :=
  list_byte_of_string "test file
line1
line2
".

(** A header override as a caller writes it. *)
Definition override (name : string) (mtime : time.Time) : tar.Header :=
  {| tar.Typeflag := tar.TypeRegA; tar.Name := name; tar.Linkname := "";
     tar.Size := 0; tar.Mode := 384 (* 0600 *); tar.Uid := 0; tar.Gid := 0;
     tar.Uname := "server"; tar.Gname := "server"; tar.ModTime := mtime;
     tar.AccessTime := time.zero; tar.ChangeTime := time.zero |}.

(** The archive [Bytes] and [Tar] leave in a file that takes every write. *)
Definition archive_of_buffer (b : byteslice) (opt : option tar.Header) : byteslice :=
  io.written (List.hd good_sink (snd (Bytes clock b opt [good_sink]))).

Definition archive_of_path (src : string) (root : os.node)
  (opt : option tar.Header) : byteslice :=
  io.written (List.hd good_sink (snd (Tar src root opt [good_sink]))).

(** The reader [Untar] runs its loop on, for a stream that has a gzip
    header. *)
Definition reader_of (stream : byteslice) : tar.Reader :=
  match gzip.NewReader stream with
  | inr gzr => tar.NewReader gzr
  | inl e => {| tar.r_data := []; tar.r_end := None; tar.r_nb := 0;
                tar.r_pad := 0; tar.r_err := Some e |}
  end.

(** Files of a source tree, as a stat call at time [t] finds them. *)
Definition stat_at (t : time.Time) (mode : Z) : os.Stat_t :=
  {| os.st_mode := mode; os.st_mtime := t;
     os.st_atime := (t + 1000000000)%Z; os.st_ctime := (t + 2000000000)%Z;
     os.st_uid := 1000; os.st_gid := 100;
     os.st_uname := "alice"; os.st_gname := "staff" |}.

Definition stat (mode : Z) : os.Stat_t := stat_at 63000000000000000000%Z mode.

Definition file (mode : Z) (content : string) : os.node :=
  os.File (stat mode) (list_byte_of_string content) true.

Definition dir (entries : list (string * os.node)) : os.node :=
  os.Dir (stat 493) entries None.

(** data/backup/data/x.txt *)
Definition nested_tree : os.node :=
  dir [("backup", dir [("data", dir [("x.txt", file 420 "hello")])])].

(** The same tree an hour later, every file touched. *)
Definition nested_tree_later : os.node :=
  let st := stat_at 63000003600000000000%Z in
  os.Dir (st 493%Z)
    [("backup",
      os.Dir (st 493%Z)
        [("data",
          os.Dir (st 493%Z)
            [("x.txt", os.File (st 420%Z) (list_byte_of_string "hello") true)]
            None)]
        None)]
    None.

(** A named pipe, and a regular file with the setuid bit. *)
Definition pipe : os.node := os.File (stat (Z.lor os.ModeNamedPipe 420)) [] true.
Definition setuid_file : os.node := file (Z.lor os.ModeSetuid 493) "#!".

(** An archive with no entry: what [Tar] makes of a named pipe. *)
Definition empty_archive : byteslice := archive_of_path "pipe" pipe None.

(** An empty destination directory, and one that holds a file already. *)
Definition empty_out : os.FS := {[ "out" := os.FDir 493 ]}.
Definition used_out : os.FS :=
  <[ "out/f" := os.FFile 420 (list_byte_of_string "abcdef") ]> empty_out.

(** The archive of the two bytes "xy" under the name "f", its reader,
    and the header [Next] reads from it. *)
Definition xy : byteslice := list_byte_of_string "xy".
Definition xy_archive : byteslice := archive_of_buffer xy (Some (override "f" 0%Z)).
Definition xy_header : tar.Header :=
  {| tar.Typeflag := tar.TypeReg; tar.Name := "f"; tar.Linkname := "";
     tar.Size := 2; tar.Mode := 384; tar.Uid := 0; tar.Gid := 0;
     tar.Uname := "server"; tar.Gname := "server"; tar.ModTime := 0%Z;
     tar.AccessTime := 0%Z; tar.ChangeTime := 0%Z |}.

(** Archives whose entry name climbs out of the destination: a file and
    a directory. *)
Definition climbing_file : byteslice :=
  archive_of_buffer xy (Some (override "../../etc/cron.d/job" 0%Z)).
Definition climbing_dir : byteslice :=
  archive_of_buffer [] (Some (override "../../etc/cron.d/" 0%Z)).
Definition srv : os.FS :=
  <[ "/etc/cron.d" := os.FDir 493 ]> {[ "/srv/out" := os.FDir 493 ]}.

(** A modification time for an override: 2026-11-01 00:00:00 UTC. *)
Definition fixed_time : time.Time := (739920 * 86400 * 1000000000)%Z.

(** The header record [Bytes] writes for [text] at [clock]. *)
Definition text_block : byteslice :=
  match tar.marshal (tar.prepare (buffer_header text (Bytes_options clock None))) with
  | inr blk => blk
  | inl _ => []
  end.

(** The gzip stream a gzip writer leaves in a file for the bytes
    [plain], written in one call and closed. *)
Definition gzip_of (plain : byteslice) : byteslice :=
  let z := gzip.NewWriter {| io.writers := [good_sink] |} in
  let z := fst (gzip.Write z plain) in
  let z := fst (gzip.Close z) in
  io.written (List.hd good_sink (io.writers (gzip.w z))).

Definition block_of (h : tar.Header) : byteslice :=
  match tar.marshal h with inr blk => blk | inl _ => [] end.

(** Streams that are not archives: a text file, and the gzip stream of
    one. *)
Definition plain_text : byteslice := list_byte_of_string "not a gzip stream".
Definition junk : byteslice := gzip_of plain_text.

(** An archive whose only entry is a symbolic link, and one whose only
    entry is a directory. *)
Definition link_header : tar.Header :=
  {| tar.Typeflag := tar.TypeSymlink; tar.Name := "latest"; tar.Linkname := "f";
     tar.Size := 0; tar.Mode := 511; tar.Uid := 0; tar.Gid := 0;
     tar.Uname := "user"; tar.Gname := "user"; tar.ModTime := 0%Z;
     tar.AccessTime := 0%Z; tar.ChangeTime := 0%Z |}.
Definition link_archive : byteslice :=
  gzip_of (block_of link_header ++ tar.zeroBlock ++ tar.zeroBlock).

Definition dir_header : tar.Header :=
  {| tar.Typeflag := tar.TypeDir; tar.Name := "sub/"; tar.Linkname := "";
     tar.Size := 0; tar.Mode := 493; tar.Uid := 0; tar.Gid := 0;
     tar.Uname := "user"; tar.Gname := "user"; tar.ModTime := 0%Z;
     tar.AccessTime := 0%Z; tar.ChangeTime := 0%Z |}.
Definition dir_archive : byteslice :=
  gzip_of (block_of dir_header ++ tar.zeroBlock ++ tar.zeroBlock).

(** The same directory with the mode 0775. *)
Definition wide_dir_header : tar.Header := tar.set_Mode dir_header 509.
Definition wide_dir_archive : byteslice :=
  gzip_of (block_of wide_dir_header ++ tar.zeroBlock ++ tar.zeroBlock).

(** A destination where "out/sub" is a directory of mode 0700, and one
    where it is a file. *)
Definition out_with_sub : os.FS := <[ "out/sub" := os.FDir 448 ]> empty_out.
Definition out_with_file_sub : os.FS :=
  <[ "out/sub" := os.FFile 420 (list_byte_of_string "abc") ]> empty_out.

(** The archive of "xy" under the name "sub/f". *)
Definition xy_in_sub : byteslice := archive_of_buffer xy (Some (override "sub/f" 0%Z)).

Definition xy_sub_header : tar.Header :=
  {| tar.Typeflag := tar.TypeReg; tar.Name := "sub/f"; tar.Linkname := "";
     tar.Size := 2; tar.Mode := 384; tar.Uid := 0; tar.Gid := 0;
     tar.Uname := "server"; tar.Gname := "server"; tar.ModTime := 0%Z;
     tar.AccessTime := 0%Z; tar.ChangeTime := 0%Z |}.

(** Source paths: a symbolic link whose target is gone, a file that
    cannot be opened, a link to a file and a link to a directory. *)
Definition dangling_link : os.node :=
  os.Symlink (stat 511) (os.Missing (PathError "stat" "gone" ENOENT)).
Definition locked_file : os.node :=
  os.File (stat 384) (list_byte_of_string "secret") false.
Definition link_to_file : os.node := os.Symlink (stat 511) (file 420 "hello").
Definition link_to_dir : os.node := os.Symlink (stat 511) nested_tree.

(** A directory with two files, a link, a directory below it that holds
    a file and a named pipe, and an empty file. *)
Definition mixed_tree : os.node :=
  dir [("a.txt", file 420 "hello");
       ("link", os.Symlink (stat 511) (file 420 "zz"));
       ("sub", dir [("b.txt", file 384 "world!"); ("p", pipe)]);
       ("z", file 420 "")].

(** The archive of "xy" under the name "sub/d/f", and the archive of
    "xy" under the name "f" with the mode 0666. *)
Definition xy_deep : byteslice := archive_of_buffer xy (Some (override "sub/d/f" 0%Z)).
Definition xy_deep_header : tar.Header :=
  {| tar.Typeflag := tar.TypeReg; tar.Name := "sub/d/f"; tar.Linkname := "";
     tar.Size := 2; tar.Mode := 384; tar.Uid := 0; tar.Gid := 0;
     tar.Uname := "server"; tar.Gname := "server"; tar.ModTime := 0%Z;
     tar.AccessTime := 0%Z; tar.ChangeTime := 0%Z |}.

(** An archive that ends after two bytes of an entry of six. *)
Definition six_header : tar.Header :=
  {| tar.Typeflag := tar.TypeReg; tar.Name := "f"; tar.Linkname := "";
     tar.Size := 6; tar.Mode := 384; tar.Uid := 0; tar.Gid := 0;
     tar.Uname := "server"; tar.Gname := "server"; tar.ModTime := 0%Z;
     tar.AccessTime := 0%Z; tar.ChangeTime := 0%Z |}.
Definition cut_archive : byteslice := gzip_of (block_of six_header ++ xy).

End model.

(** * Properties *)

Section extraction.
Context `{os.Process} `{flate.Codec} `{tar.Format}.

(** [tr.Next()] never yields a header together with an error: the header
    is nil exactly when the error is not, and the error is kept. *)
Lemma Next_header_or_error (tr : tar.Reader) :
  (∃ e, tar.Next tr = ((None, Some e), snd (tar.Next tr))
        ∧ tar.r_err (snd (tar.Next tr)) = Some e)
  ∨ (∃ h, fst (tar.Next tr) = (Some h, None)).
Proof.
  unfold tar.Next.
  destruct (tar.r_err tr) as [e|] eqn:Hsticky.
  - left. exists e. simpl. auto.
  - destruct (tar.next tr) as [e|[h r']].
    + left. exists e. simpl. auto.
    + right. exists h. reflexivity.
Qed.

(** No round of the loop returns nil: the only [return nil] sits behind
    [header == nil], which takes every call of [Next] that has an error. *)
Lemma Untar_round_never_nil (dst : string) (tr : tar.Reader) (fs fs' : os.FS) :
  Untar_round dst tr fs ≠ Return None fs'.
Proof.
  unfold Untar_round.
  destruct (Next_header_or_error tr) as [[e [Hn _]]|[h Hn]].
  - rewrite Hn. discriminate.
  - destruct (tar.Next tr) as [[hd er] tr1]. simpl in Hn.
    injection Hn as -> ->.
    destruct (decide (None = Some EOF)) as [Heq|_]; [discriminate Heq|].
    repeat case_decide; repeat case_match; discriminate.
Qed.

(** Once the reader holds an error, every round is [continue]. *)
Lemma Untar_round_after_error (dst : string) (tr : tar.Reader) (fs : os.FS) e :
  tar.r_err tr = Some e → Untar_round dst tr fs = Continue tr fs.
Proof.
  intros He. unfold Untar_round, tar.Next. rewrite He. reflexivity.
Qed.

Lemma Untar_loop_after_error (rounds : nat) dst (tr : tar.Reader) (fs : os.FS) e :
  tar.r_err tr = Some e → Untar_loop rounds dst tr fs = (Running, fs).
Proof.
  intros He. induction rounds as [|k IH]; simpl; [reflexivity|].
  rewrite (Untar_round_after_error dst tr fs e He). exact IH.
Qed.

(** The round in which [Next] meets the end of the archive, or any
    decoding error, does not return either. *)
Lemma Untar_round_at_error (dst : string) (tr : tar.Reader) (fs : os.FS) e :
  fst (tar.Next tr) = (None, Some e) →
  Untar_round dst tr fs = Continue (snd (tar.Next tr)) fs.
Proof.
  intros Hn. unfold Untar_round.
  destruct (tar.Next tr) as [[hd er] tr1]. simpl in *.
  injection Hn as -> ->. reflexivity.
Qed.

Lemma Untar_loop_never_nil (rounds : nat) dst (tr : tar.Reader) (fs : os.FS) :
  fst (Untar_loop rounds dst tr fs) ≠ Returned None.
Proof.
  revert tr fs. induction rounds as [|k IH]; intros tr fs; simpl.
  - discriminate.
  - destruct (Untar_round dst tr fs) as [tr' fs'|err fs'] eqn:Hr.
    + apply IH.
    + simpl. intros Heq. injection Heq as ->.
      exact (Untar_round_never_nil dst tr fs fs' Hr).
Qed.

Lemma Untar_result_not_nil (rounds : nat) (dst : string) (r : byteslice)
  (fs : os.FS) :
  fst (Untar rounds dst r fs) ≠ Returned None.
Proof.
  unfold Untar. destruct (gzip.NewReader r) as [e|gzr].
  - simpl. discriminate.
  - apply Untar_loop_never_nil.
Qed.

(** From the round in which [Next] reports the end of the archive (or an
    error) on, the loop runs without end and without touching a file. *)
Lemma Untar_loop_at_error (k : nat) dst (tr : tar.Reader) (fs : os.FS) e :
  fst (tar.Next tr) = (None, Some e) →
  Untar_loop (S k) dst tr fs = (Running, fs).
Proof.
  intros Hn. simpl. rewrite (Untar_round_at_error dst tr fs e Hn).
  destruct (Next_header_or_error tr) as [[e' [_ Hs]]|[h Hh]].
  - exact (Untar_loop_after_error k dst _ fs e' Hs).
  - rewrite Hn in Hh. discriminate.
Qed.

End extraction.

Section archiving.
Context `{flate.Codec} `{tar.Format}.

(** A copy from a buffer that ends without an error has taken the whole
    buffer, whatever the writer is. *)
Lemma Copy_buffer_count {W} `{io.Writer W} (dst dst' : W) (b : byteslice) (n : Z) :
  io.Copy_buffer dst b = (dst', (n, None)) → n = Z.of_nat (length b).
Proof.
  unfold io.Copy_buffer. destruct b as [|x b]; [intros [= _ <-]; reflexivity|].
  destruct (io.Write dst (x :: b)) as [d [m [e|]]]; [discriminate|].
  destruct (m =? length (x :: b))%nat eqn:Hm; simpl; [|discriminate].
  intros [= _ <-]. apply Nat.eqb_eq in Hm. rewrite Hm. reflexivity.
Qed.

(** C8.  A call of [Bytes] that returns no error returns the length of
    the buffer as its count. *)
Theorem Bytes_count (clock : time.Clock) (b : byteslice) (opt : option tar.Header)
  (w : list io.Sink) (n : Z) :
  fst (Bytes clock b opt w) = (n, None) → n = Z.of_nat (length b).
Proof.
  unfold Bytes, Bytes_run.
  destruct (tar.WriteHeader _ _) as [tw e].
  destruct (io.Copy_buffer tw b) as [tw' [m r]] eqn:Hc.
  destruct (deferred_Close tw') as [dropped sinks].
  simpl. intros [= -> ->]. exact (Copy_buffer_count _ _ _ _ Hc).
Qed.

End archiving.

Section extracted_files.
Context `{os.Process} `{flate.Codec} `{tar.Format}.

(** A path that resolves to a file is a key of the table; one that
    resolves to nothing is the empty path or no key of the table. *)
Lemma lookup_path_file (fs : os.FS) (path : string) (m : Z) (o : byteslice) :
  os.lookup_path fs path = Some (os.FFile m o) → fs !! path = Some (os.FFile m o).
Proof.
  unfold os.lookup_path.
  destruct (decide (path = "")); [discriminate|].
  destruct (os.always_there path); [discriminate|]. auto.
Qed.

Lemma lookup_path_missing (fs : os.FS) (path : string) :
  os.lookup_path fs path = None → path = "" ∨ fs !! path = None.
Proof.
  unfold os.lookup_path.
  destruct (decide (path = "")); [auto|].
  destruct (os.always_there path); [discriminate|]. auto.
Qed.

Lemma lookup_parent_of_empty (fs : os.FS) :
  os.lookup_path fs (os.parent "") = None.
Proof. reflexivity. Qed.

(** What a successful open leaves: the file is in the table with the
    content found, which is empty when the file was made by the call;
    every other path is as before. *)
Lemma OpenFile_found (fs fs1 : os.FS) (path : string) (perm : Z) (old : byteslice) :
  os.OpenFile_create_wronly fs path perm = (fs1, inr old) →
  (∃ m, fs1 !! path = Some (os.FFile m old))
  ∧ (∀ p, p ≠ path → fs1 !! p = fs !! p)
  ∧ (fs !! path = None → old = [])
  ∧ (∀ m o, fs !! path = Some (os.FFile m o) → old = o).
Proof.
  unfold os.OpenFile_create_wronly.
  destruct (os.lookup_path fs path) as [[m o|m]|] eqn:Hl.
  - intros [= <- <-]. apply lookup_path_file in Hl.
    repeat split.
    + exists m. exact Hl.
    + intros Hn. rewrite Hn in Hl. discriminate.
    + intros m' o' Hf. rewrite Hf in Hl. injection Hl as _ ->. reflexivity.
  - discriminate.
  - destruct (os.lookup_path fs (os.parent path)) as [[m o|m]|] eqn:Hp;
      try discriminate.
    apply lookup_path_missing in Hl. destruct Hl as [->|Hl].
    { rewrite lookup_parent_of_empty in Hp. discriminate Hp. }
    intros [= <- <-]. repeat split.
    + eexists. apply lookup_insert_eq.
    + intros p Hp'. apply lookup_insert_ne. congruence.
    + intros m' o' Hf. rewrite Hf in Hl. discriminate.
Qed.

Lemma write_from_start_covers (old data : byteslice) :
  length old ≤ length data → os.write_from_start old data = data.
Proof.
  intros Hle. unfold os.write_from_start.
  rewrite List.skipn_all2 by exact Hle. apply app_nil_r.
Qed.

(** The round that extracts a regular file, when the open and the copy
    succeed: the loop goes on with the file holding the entry's bytes
    followed by what an older file had beyond them. *)
Lemma Untar_round_regular (dst : string) (tr tr1 tr2 : tar.Reader) (fs fs1 : os.FS)
  (h : tar.Header) (data old : byteslice) :
  tar.Next tr = ((Some h, None), tr1) →
  tar.Typeflag h = tar.TypeReg →
  tar.ReadAll tr1 = ((data, None), tr2) →
  os.OpenFile_create_wronly fs (filepath.Join dst (tar.Name h))
    (os.FileMode (tar.Mode h)) = (fs1, inr old) →
  Untar_round dst tr fs =
    Continue tr2 (os.set_content fs1 (filepath.Join dst (tar.Name h))
                    (os.write_from_start old data)).
Proof.
  intros Hn Ht Hr Ho. unfold Untar_round. rewrite Hn.
  destruct (decide (None = Some EOF)) as [Heq|_]; [discriminate Heq|].
  destruct (decide (tar.Typeflag h = tar.TypeDir)) as [Hd|_];
    [rewrite Ht in Hd; discriminate Hd|].
  rewrite decide_True by exact Ht.
  rewrite Ho, Hr. reflexivity.
Qed.

(** C3 (amended).  For a regular-file entry whose open and copy succeed,
    the target of the round is the file at [Join dst name]; it is
    created when missing and is not truncated: afterwards it holds the
    entry's bytes followed by the bytes an existing file had beyond the
    entry's length, and so exactly the entry's bytes when no file
    existed or the existing one was not longer.  No other path of the
    table changes. *)
Theorem Untar_regular_file_content (dst : string) (tr tr1 tr2 : tar.Reader)
  (fs fs1 : os.FS) (h : tar.Header) (data old : byteslice) :
  tar.Next tr = ((Some h, None), tr1) →
  tar.Typeflag h = tar.TypeReg →
  tar.ReadAll tr1 = ((data, None), tr2) →
  os.OpenFile_create_wronly fs (filepath.Join dst (tar.Name h))
    (os.FileMode (tar.Mode h)) = (fs1, inr old) →
  ∃ fs2,
    Untar_round dst tr fs = Continue tr2 fs2
    ∧ (∃ m, fs2 !! filepath.Join dst (tar.Name h)
            = Some (os.FFile m (data ++ List.skipn (length data) old)))
    ∧ (∀ p, p ≠ filepath.Join dst (tar.Name h) → fs2 !! p = fs !! p)
    ∧ (fs !! filepath.Join dst (tar.Name h) = None → old = [])
    ∧ (∀ m o, fs !! filepath.Join dst (tar.Name h) = Some (os.FFile m o) → old = o)
    ∧ (length old ≤ length data → data ++ List.skipn (length data) old = data).
Proof.
  intros Hn Ht Hr Ho.
  destruct (OpenFile_found _ _ _ _ _ Ho) as [[m Hm] [Hframe [Hnew Hold]]].
  eexists. split; [exact (Untar_round_regular _ _ _ _ _ _ _ _ _ Hn Ht Hr Ho)|].
  unfold os.set_content. rewrite Hm.
  repeat split.
  - exists m. apply lookup_insert_eq.
  - intros p Hp. rewrite lookup_insert_ne by congruence. apply Hframe, Hp.
  - exact Hnew.
  - exact Hold.
  - apply write_from_start_covers.
Qed.

(** The round that extracts a directory entry whose target does not
    exist: [MkdirAll] is called on [Join dst name]. *)
Lemma Untar_round_directory (dst : string) (tr tr1 : tar.Reader) (fs : os.FS)
  (h : tar.Header) :
  tar.Next tr = ((Some h, None), tr1) →
  tar.Typeflag h = tar.TypeDir →
  os.lookup_path fs (filepath.Join dst (tar.Name h)) = None →
  Untar_round dst tr fs =
    match os.MkdirAll fs (filepath.Join dst (tar.Name h)) (os.FileMode (tar.Mode h)) with
    | (fs', Some e) => Return (Some e) fs'
    | (fs', None) => Continue tr1 fs'
    end.
Proof.
  intros Hn Ht Hl. unfold Untar_round. rewrite Hn.
  destruct (decide (None = Some EOF)) as [Heq|_]; [discriminate Heq|].
  rewrite decide_True by exact Ht.
  unfold os.Stat. rewrite Hl.
  destruct (os.MkdirAll _ _ _) as [fs' [e|]]; reflexivity.
Qed.

End extracted_files.

(** ** Runs of the model codec *)

Section runs.
Import model.

Lemma NewReader_reader_of (stream : byteslice) gzr :
  gzip.NewReader stream = inr gzr → reader_of stream = tar.NewReader gzr.
Proof. intros Hg. unfold reader_of. rewrite Hg. reflexivity. Qed.

Lemma Untar_reader_of (rounds : nat) dst (stream : byteslice) (fs : os.FS) gzr :
  gzip.NewReader stream = inr gzr →
  Untar rounds dst stream fs = Untar_loop rounds dst (reader_of stream) fs.
Proof. intros Hg. unfold Untar, reader_of. rewrite Hg. reflexivity. Qed.

(** The archive without entries: the first round meets the end of the
    archive and the loop never leaves. *)
Lemma Untar_empty_archive_spins (rounds : nat) :
  Untar rounds "out" empty_archive empty_out = (Running, empty_out).
Proof.
  destruct rounds as [|k].
  - vm_compute. reflexivity.
  - destruct (gzip.NewReader empty_archive) as [e|gzr] eqn:Hg;
      [vm_compute in Hg; discriminate Hg|].
    rewrite (Untar_reader_of _ _ _ _ _ Hg).
    apply (Untar_loop_at_error k "out" _ _ EOF). vm_compute. reflexivity.
Qed.

End runs.

Section ends_of_Untar.
Import model.

(** C1.  Whatever the stream, the destination and the file table, and
    however many rounds of its loop are run, [Untar] has not returned
    nil; on an archive that ends cleanly (here the one without entries)
    it is still in its loop after any number of rounds. *)
Theorem Untar_never_returns_nil :
  (∀ (P : os.Process) (C : flate.Codec) (F : tar.Format) (rounds : nat)
     (dst : string) (r : byteslice) (fs : os.FS),
     fst (@Untar P C F rounds dst r fs) ≠ Returned None)
  ∧ (∀ rounds : nat,
       Untar rounds "out" model.empty_archive model.empty_out
       = (Running, model.empty_out)).
Proof.
  split.
  - intros P C F rounds dst r fs. apply Untar_result_not_nil.
  - apply Untar_empty_archive_spins.
Qed.

End ends_of_Untar.

Section runs_of_Untar.
Import model.

(** C3 (as stated, refuted).  Extracting the two-byte entry "f" over a
    six-byte file "out/f" leaves six bytes: the entry's two and the last
    four of the old file. *)
Lemma Untar_keeps_tail_of_longer_file :
  snd (Untar 1 "out" xy_archive used_out) !! "out/f"
    = Some (os.FFile 420 (list_byte_of_string "xycdef"))
  ∧ snd (Untar 1 "out" xy_archive used_out) !! "out/f" ≠ Some (os.FFile 420 xy).
Proof.
  assert (Hrun : snd (Untar 1 "out" xy_archive used_out) !! "out/f"
                 = Some (os.FFile 420 (list_byte_of_string "xycdef")))
    by (vm_compute; reflexivity).
  split; [exact Hrun|]. rewrite Hrun. discriminate.
Qed.

Lemma Untar_regular_file_content_witness :
  tar.Next (reader_of xy_archive)
    = ((Some xy_header, None), snd (tar.Next (reader_of xy_archive)))
  ∧ os.OpenFile_create_wronly used_out "out/f" 384
    = (used_out, inr (list_byte_of_string "abcdef"))
  ∧ ∃ fs2,
      Untar_round "out" (reader_of xy_archive) used_out
        = Continue (snd (tar.ReadAll (snd (tar.Next (reader_of xy_archive))))) fs2
      ∧ ∃ m, fs2 !! "out/f" = Some (os.FFile m (list_byte_of_string "xycdef")).
Proof.
  assert (Hn : tar.Next (reader_of xy_archive)
               = ((Some xy_header, None), snd (tar.Next (reader_of xy_archive))))
    by (vm_compute; reflexivity).
  assert (Ho : os.OpenFile_create_wronly used_out
                 (filepath.Join "out" (tar.Name xy_header))
                 (os.FileMode (tar.Mode xy_header))
               = (used_out, inr (list_byte_of_string "abcdef")))
    by (vm_compute; reflexivity).
  assert (Hr : tar.ReadAll (snd (tar.Next (reader_of xy_archive)))
               = ((xy, None), snd (tar.ReadAll (snd (tar.Next (reader_of xy_archive))))))
    by (vm_compute; reflexivity).
  split; [exact Hn|]. split; [exact Ho|].
  destruct (Untar_regular_file_content "out" _ _ _ used_out used_out xy_header
              xy (list_byte_of_string "abcdef") Hn eq_refl Hr Ho)
    as (fs2 & Hround & Hfile & _).
  exists fs2. split; [exact Hround|exact Hfile].
Defined.

(** C10.  A regular-file entry is written at [Join dst name] and a
    directory entry made by [MkdirAll] on [Join dst name], whatever path
    that is; nothing compares it with [dst].  So an entry named
    "../../etc/cron.d/job" extracted into "/srv/out" is written to
    "/etc/cron.d/job", and the directory entry "../../etc/cron.d/" makes
    "/etc" and "/etc/cron.d": both outside "/srv/out". *)
Theorem Untar_target_is_unchecked_Join :
  (∀ (P : os.Process) (F : tar.Format) (dst : string) (tr tr1 tr2 : tar.Reader)
     (fs fs1 : os.FS) (h : tar.Header) (data old : byteslice),
     tar.Next tr = ((Some h, None), tr1) →
     tar.Typeflag h = tar.TypeReg →
     tar.ReadAll tr1 = ((data, None), tr2) →
     os.OpenFile_create_wronly fs (filepath.Join dst (tar.Name h))
       (os.FileMode (tar.Mode h)) = (fs1, inr old) →
     ∃ fs2, @Untar_round P F dst tr fs = Continue tr2 fs2
            ∧ is_Some (fs2 !! filepath.Join dst (tar.Name h))
            ∧ ∀ p, p ≠ filepath.Join dst (tar.Name h) → fs2 !! p = fs !! p)
  ∧ (∀ (P : os.Process) (F : tar.Format) (dst : string) (tr tr1 : tar.Reader)
       (fs : os.FS) (h : tar.Header),
       tar.Next tr = ((Some h, None), tr1) →
       tar.Typeflag h = tar.TypeDir →
       os.lookup_path fs (filepath.Join dst (tar.Name h)) = None →
       @Untar_round P F dst tr fs =
         match os.MkdirAll fs (filepath.Join dst (tar.Name h))
                 (os.FileMode (tar.Mode h)) with
         | (fs', Some e) => Return (Some e) fs'
         | (fs', None) => Continue tr1 fs'
         end)
  ∧ (".." ∈ strings.Split "/" "../../etc/cron.d/job"
     ∧ filepath.Join "/srv/out" "../../etc/cron.d/job" = "/etc/cron.d/job"
     ∧ inside "/srv/out" "/etc/cron.d/job" = false
     ∧ srv !! "/etc/cron.d/job" = None
     ∧ snd (Untar 1 "/srv/out" climbing_file srv) !! "/etc/cron.d/job"
       = Some (os.FFile 384 xy))
  ∧ (".." ∈ strings.Split "/" "../../etc/cron.d/"
     ∧ inside "/srv/out" "/etc/cron.d" = false
     ∧ snd (Untar 1 "/srv/out" climbing_dir {[ "/srv/out" := os.FDir 493 ]})
       = <[ "/etc/cron.d" := os.FDir 384 ]>
           (<[ "/etc" := os.FDir 384 ]> {[ "/srv/out" := os.FDir 493 ]})).
Proof.
  split; [|split; [|split]].
  - intros P F dst tr tr1 tr2 fs fs1 h data old Hn Ht Hr Ho.
    destruct (OpenFile_found _ _ _ _ _ Ho) as [[m Hm] [Hframe _]].
    eexists. split; [exact (Untar_round_regular _ _ _ _ _ _ _ _ _ Hn Ht Hr Ho)|].
    unfold os.set_content. rewrite Hm. split.
    + rewrite lookup_insert_eq. eexists. reflexivity.
    + intros p Hp. rewrite lookup_insert_ne by congruence. apply Hframe, Hp.
  - intros P F dst tr tr1 fs h. apply Untar_round_directory.
  - split; [vm_compute; apply list_elem_of_In; simpl; tauto|].
    split; [vm_compute; reflexivity|].
    split; [vm_compute; reflexivity|].
    split; vm_compute; reflexivity.
  - split; [vm_compute; apply list_elem_of_In; simpl; tauto|].
    split; vm_compute; reflexivity.
Qed.

End runs_of_Untar.

Section runs_of_Bytes.
Import model.

Lemma Bytes_count_witness :
  fst (Bytes clock text None [good_sink]) = (22%Z, None)
  ∧ 22%Z = Z.of_nat (length text).
Proof.
  assert (Hrun : fst (Bytes clock text None [good_sink]) = (22%Z, None))
    by (vm_compute; reflexivity).
  split; [exact Hrun|].
  exact (Bytes_count clock text None [good_sink] 22%Z Hrun).
Defined.

End runs_of_Bytes.

Section runs_of_Tar.
Import model.

(** C2.  Walking "data", the file "data/backup/data/x.txt" gets the
    entry name "backup//x.txt": [Replace] with count -1 removes the
    second "data" too.  Its path relative to the walk root, which the
    prefix removed once would give, is "backup/data/x.txt". *)
Theorem Tar_entry_name_removes_every_src :
  entry_name "data" "data/backup/data/x.txt" = "backup//x.txt"
  ∧ relative_name "data" "data/backup/data/x.txt" = "backup/data/x.txt"
  ∧ fst (Tar "data" nested_tree None [good_sink]) = None
  ∧ map (λ e, tar.Name (fst e)) (listing (archive_of_path "data" nested_tree None))
    = ["backup//x.txt"].
Proof.
  split; [vm_compute; reflexivity|].
  split; [vm_compute; reflexivity|].
  split; vm_compute; reflexivity.
Qed.

(** C5.  With an override whose modification time is set, the entry of
    a single file has owner, group and mode of the override but a zero
    modification time; the entry of the same file met in a directory
    walk, and the entry of a buffer, have the override's. *)
Theorem Tar_single_file_ignores_ModTime :
  time.IsZero fixed_time = false
  ∧ map fst (listing (archive_of_path "f.txt" (file 420 "hello")
                        (Some (override "" fixed_time))))
    = [ {| tar.Typeflag := tar.TypeReg; tar.Name := "f.txt"; tar.Linkname := "";
           tar.Size := 5; tar.Mode := 384; tar.Uid := 0; tar.Gid := 0;
           tar.Uname := "server"; tar.Gname := "server";
           tar.ModTime := time.zero; tar.AccessTime := time.zero;
           tar.ChangeTime := time.zero |} ]
  ∧ map (λ e, tar.ModTime (fst e))
      (listing (archive_of_path "d" (dir [("f.txt", file 420 "hello")])
                  (Some (override "" fixed_time))))
    = [fixed_time]
  ∧ map (λ e, tar.ModTime (fst e))
      (listing (archive_of_buffer text (Some (override "f.txt" fixed_time))))
    = [fixed_time].
Proof.
  split; [vm_compute; reflexivity|].
  split; [vm_compute; reflexivity|].
  split; vm_compute; reflexivity.
Qed.

End runs_of_Tar.

Section skipping.
Context `{flate.Codec} `{tar.Format}.

(** A mode with a type bit set is not regular. *)
Lemma type_bit_not_regular (m bit : Z) :
  Z.land os.ModeType bit = bit → tar.has_bit m bit = true → os.IsRegular m = false.
Proof.
  unfold tar.has_bit, os.IsRegular. intros Hsub Hbit.
  apply negb_true_iff, Z.eqb_neq in Hbit. apply Z.eqb_neq. intros Hzero.
  apply Hbit. rewrite <- Hsub, Z.land_assoc, Hzero. apply Z.land_0_l.
Qed.

(** Setuid, setgid and sticky are not type bits. *)
Lemma permission_bits_stay_regular (m : Z) :
  os.IsRegular (Z.lor m (Z.lor os.ModeSetuid (Z.lor os.ModeSetgid os.ModeSticky)))
  = os.IsRegular m.
Proof.
  unfold os.IsRegular. rewrite Z.land_lor_distr_l.
  replace (Z.land (Z.lor os.ModeSetuid (Z.lor os.ModeSetgid os.ModeSticky)) os.ModeType)
    with 0%Z by (vm_compute; reflexivity).
  rewrite Z.lor_0_r. reflexivity.
Qed.

(** X25.  A file whose mode has a type bit (symbolic link, device,
    character device, socket, named pipe, irregular) is not regular,
    and [Tar] skips it without an error.  Named alone, where the mode is
    the one [os.Stat] reports (of what a symbolic link points to),
    [Tar] returns nil and the writers get what the two deferred calls
    write for a writer chain nothing was written to; met in a walk,
    where the mode is the one lstat reports (of the link itself), the
    callback returns nil and leaves the writer chain as it was. *)
Theorem Tar_skips_non_regular :
  (∀ m : Z,
     tar.has_bit m os.ModeSymlink = true ∨ tar.has_bit m os.ModeDevice = true
     ∨ tar.has_bit m os.ModeCharDevice = true ∨ tar.has_bit m os.ModeSocket = true
     ∨ tar.has_bit m os.ModeNamedPipe = true ∨ tar.has_bit m os.ModeIrregular = true →
     os.IsRegular m = false)
  ∧ (∀ (src : string) (root : os.node) (opt : option tar.Header)
       (writers : list io.Sink) (info : os.FileInfo),
       os.Stat_source src root = inr info →
       os.IsDir (os.fi_Mode info) = false →
       os.IsRegular (os.fi_Mode info) = false →
       Tar src root opt writers
       = (None, snd (deferred_Close
                       (tar.NewWriter (gzip.NewWriter {| io.writers := writers |})))))
  ∧ (∀ (src : string) (opt : tar.Header) (file : string) (info : os.FileInfo)
       (found : os.node) (tw : pipeline),
       os.IsRegular (os.fi_Mode info) = false →
       walk_file src opt file (Some (info, found)) None tw = (tw, None)).
Proof.
  split; [|split].
  - intros m Hbits.
    destruct Hbits as [Hb|[Hb|[Hb|[Hb|[Hb|Hb]]]]];
      (eapply type_bit_not_regular; [|exact Hb]); vm_compute; reflexivity.
  - intros src root opt writers info Hstat Hdir Hreg.
    unfold Tar, Tar_run. rewrite Hstat, Hdir, Hreg. simpl.
    destruct (deferred_Close _) as [dropped sinks]. reflexivity.
  - intros src opt file info found tw Hreg.
    unfold walk_file. rewrite Hreg. reflexivity.
Qed.

End skipping.

Section runs_of_skipping.
Import model.

(** C6.  The setuid, setgid and sticky bits are no type bits, so a mode
    that carries them is regular when it is regular without them: the
    test [info.Mode().IsRegular()] lets the file through.  A regular
    file with the setuid bit (mode 04755) is archived, named alone and
    met in a walk: [Tar] returns nil and the archive holds its entry
    with its content. *)
Theorem Tar_archives_setuid_file :
  (∀ m : Z,
     os.IsRegular (Z.lor m (Z.lor os.ModeSetuid (Z.lor os.ModeSetgid os.ModeSticky)))
     = os.IsRegular m)
  ∧ tar.has_bit (os.st_mode (stat (Z.lor os.ModeSetuid 493))) os.ModeSetuid = true
  ∧ fst (Tar "su" setuid_file None [good_sink]) = None
  ∧ map (λ e, (tar.Name (fst e), snd e)) (listing (archive_of_path "su" setuid_file None))
    = [("su", list_byte_of_string "#!")]
  ∧ fst (Tar "bin" (dir [("su", setuid_file)]) None [good_sink]) = None
  ∧ map (λ e, (tar.Name (fst e), snd e))
      (listing (archive_of_path "bin" (dir [("su", setuid_file)]) None))
    = [("su", list_byte_of_string "#!")].
Proof.
  split; [exact permission_bits_stay_regular|].
  split; [vm_compute; reflexivity|].
  split; [vm_compute; reflexivity|].
  split; [vm_compute; reflexivity|].
  split; vm_compute; reflexivity.
Qed.

Lemma Tar_skips_non_regular_witness :
  tar.has_bit (Z.lor os.ModeNamedPipe 420) os.ModeNamedPipe = true
  ∧ os.IsRegular (Z.lor os.ModeNamedPipe 420) = false
  ∧ Tar "pipe" pipe None [good_sink]
    = (None, snd (deferred_Close
                    (tar.NewWriter (gzip.NewWriter {| io.writers := [good_sink] |}))))
  ∧ listing empty_archive = [].
Proof.
  assert (Hbit : tar.has_bit (Z.lor os.ModeNamedPipe 420) os.ModeNamedPipe = true)
    by (vm_compute; reflexivity).
  assert (Hstat : os.Stat_source "pipe" pipe
                  = inr (os.info_of "pipe" (stat (Z.lor os.ModeNamedPipe 420))
                           (Z.lor os.ModeNamedPipe 420) 0))
    by (vm_compute; reflexivity).
  destruct Tar_skips_non_regular as (Hmodes & Hsingle & _).
  split; [exact Hbit|].
  split; [apply Hmodes; do 4 right; left; exact Hbit|].
  split; [|vm_compute; reflexivity].
  apply (Hsingle "pipe" pipe None [good_sink] _ Hstat).
  - vm_compute. reflexivity.
  - apply Hmodes. do 4 right. left. exact Hbit.
Defined.

End runs_of_skipping.

(** ** Archives do not depend on the clock or on time stamps *)

Section tree_induction.
Variable P : os.node → Prop.
Hypothesis P_File : ∀ st data readable, P (os.File st data readable).
Hypothesis P_Symlink : ∀ st target, P target → P (os.Symlink st target).
Hypothesis P_Dir : ∀ st entries read_err,
  Forall (λ p, P (snd p)) entries → P (os.Dir st entries read_err).
Hypothesis P_Missing : ∀ e, P (os.Missing e).

(** Induction on a tree, with the property at hand for every entry of a
    directory. *)
Lemma node_tree_ind (n : os.node) : P n.
Proof.
  revert n. fix IH 1. intros [st data readable|st target|st entries read_err|e].
  - apply P_File.
  - apply P_Symlink, IH.
  - apply P_Dir. induction entries as [|[name c] rest IHrest].
    + constructor.
    + constructor; [apply IH|exact IHrest].
  - apply P_Missing.
Qed.

End tree_induction.

Section reproducible.
Context `{flate.Codec} `{tar.Format}.

Lemma resolve_without_times (n : os.node) :
  os.resolve (os.without_times n) = os.without_times (os.resolve n).
Proof.
  induction n as [st data readable|st target IH|st entries read_err _|e]
    using node_tree_ind; simpl; auto.
Qed.

Lemma Lstat_without_times (name : string) (n : os.node) :
  os.Lstat name (os.without_times n)
  = match os.Lstat name n with
    | inr fi => inr (os.info_without_times fi)
    | inl e => inl e
    end.
Proof.
  destruct n as [st data readable|st target|st entries read_err|e]; reflexivity.
Qed.

Lemma Open_without_times (n : os.node) : os.Open (os.without_times n) = os.Open n.
Proof.
  unfold os.Open. rewrite resolve_without_times.
  destruct (os.resolve n) as [st data readable|st target|st entries read_err|e];
    reflexivity.
Qed.

(** With a modification time in the override, the header of a walked
    file has nothing of the file's own time stamps. *)
Lemma walk_file_without_times (src : string) (opt : tar.Header) (file : string)
  (info : os.FileInfo) (found : os.node) (err : option error) (tw : pipeline) :
  time.IsZero (tar.ModTime opt) = false →
  walk_file src opt file (Some (os.info_without_times info, os.without_times found))
    err tw
  = walk_file src opt file (Some (info, found)) err tw.
Proof.
  intros Hset. unfold walk_file. destruct err as [e|]; [reflexivity|].
  change (os.fi_Mode (os.info_without_times info)) with (os.fi_Mode info).
  destruct (os.IsRegular (os.fi_Mode info)) eqn:Hreg; [|reflexivity]. simpl.
  unfold tar.FileInfoHeader.
  change (os.fi_Mode (os.info_without_times info)) with (os.fi_Mode info).
  rewrite Hreg, Hset. simpl. rewrite Open_without_times. reflexivity.
Qed.

Lemma info_of_node_without_times (path : string) (n : os.node) :
  filepath.info_of_node path (os.without_times n)
  = match filepath.info_of_node path n with
    | Some (fi, found) => Some (os.info_without_times fi, os.without_times found)
    | None => None
    end.
Proof.
  unfold filepath.info_of_node. rewrite Lstat_without_times.
  destruct (os.Lstat path n); reflexivity.
Qed.

Lemma walkFn_without_times (src : string) (opt : tar.Header) (path : string)
  (n : os.node) (err : option error) (tw : pipeline) :
  time.IsZero (tar.ModTime opt) = false →
  walk_file src opt path (filepath.info_of_node path (os.without_times n)) err tw
  = walk_file src opt path (filepath.info_of_node path n) err tw.
Proof.
  intros Hset. rewrite info_of_node_without_times.
  destruct (filepath.info_of_node path n) as [[fi found]|]; [|reflexivity].
  apply walk_file_without_times, Hset.
Qed.

(** The walk of a tree and of the tree without its time stamps make the
    same calls of the writer chain. *)
Lemma walk_without_times (src : string) (opt : tar.Header) (n : os.node) :
  time.IsZero (tar.ModTime opt) = false →
  ∀ (path : string) (tw : pipeline),
    filepath.walk (walk_file src opt) path (os.without_times n) tw
    = filepath.walk (walk_file src opt) path n tw.
Proof.
  intros Hset.
  induction n as [st data readable|st target _|st entries read_err IH|e]
    using node_tree_ind; intros path tw.
  - apply (walkFn_without_times src opt path (os.File st data readable) None tw Hset).
  - apply (walkFn_without_times src opt path (os.Symlink st target) None tw Hset).
  - simpl.
    pose proof (walkFn_without_times src opt path (os.Dir st entries read_err)
                  read_err tw Hset) as Hdir.
    simpl in Hdir. rewrite Hdir. clear Hdir.
    destruct (walk_file src opt path _ read_err tw) as [tw1 err1].
    destruct (bool_decide (read_err ≠ None ∨ err1 ≠ None)); [reflexivity|].
    clear tw. revert tw1.
    induction IH as [|[name c] rest Hc _ IHrest]; intros tw1; [reflexivity|].
    simpl. simpl in Hc. rewrite Hc.
    destruct (filepath.walk (walk_file src opt) (filepath.Join path name) c tw1)
      as [tw2 [e|]].
    + replace (filepath.is_dir_node (os.without_times c))
        with (filepath.is_dir_node c) by (destruct c; reflexivity).
      destruct (filepath.is_dir_node c && bool_decide (e = SkipDir));
        [apply IHrest|].
      destruct c as [st' data readable|st' target|st' entries' read_err'|e'];
        simpl; try reflexivity.
      destruct (decide (e = SkipDir)); [apply IHrest|reflexivity].
    + apply IHrest.
  - reflexivity.
Qed.

Lemma Tar_run_without_times (src : string) (root : os.node) (opt : tar.Header)
  (writers : list io.Sink) :
  time.IsZero (tar.ModTime opt) = false →
  Tar_run src (os.without_times root) (Some opt) writers
  = Tar_run src root (Some opt) writers.
Proof.
  intros Hset. unfold Tar_run, os.Stat_source.
  rewrite resolve_without_times, Lstat_without_times.
  destruct (os.Lstat src (os.resolve root)) as [e|info]; [reflexivity|].
  change (os.fi_Mode (os.info_without_times info)) with (os.fi_Mode info).
  destruct (os.IsDir (os.fi_Mode info)); simpl.
  - unfold filepath.Walk. rewrite (walk_without_times src opt root Hset).
    reflexivity.
  - destruct (os.IsRegular (os.fi_Mode info)); simpl; [|reflexivity].
    rewrite Open_without_times. reflexivity.
Qed.

(** C9.  With a header override, what [Bytes] writes and returns does
    not depend on the clock; and with an override whose modification
    time is set, what [Tar] writes and returns for a path is the same
    for two trees that differ in the time stamps of their files only
    (entries in the same walk order).  Two runs on the same buffer or
    tree give the same bytes to the same writers. *)
Theorem archive_is_reproducible :
  (∀ (clock1 clock2 : time.Clock) (b : byteslice) (opt : tar.Header)
     (w : list io.Sink),
     Bytes clock1 b (Some opt) w = Bytes clock2 b (Some opt) w)
  ∧ (∀ (src : string) (root1 root2 : os.node) (opt : tar.Header)
       (writers : list io.Sink),
       time.IsZero (tar.ModTime opt) = false →
       os.without_times root1 = os.without_times root2 →
       Tar src root1 (Some opt) writers = Tar src root2 (Some opt) writers).
Proof.
  split.
  - intros clock1 clock2 b opt w. reflexivity.
  - intros src root1 root2 opt writers Hset Hsame. unfold Tar.
    rewrite <- (Tar_run_without_times src root1 opt writers Hset).
    rewrite <- (Tar_run_without_times src root2 opt writers Hset).
    rewrite Hsame. reflexivity.
Qed.

End reproducible.

Section runs_of_reproducible.
Import model.

Lemma archive_is_reproducible_witness :
  time.IsZero (tar.ModTime (override "" fixed_time)) = false
  ∧ nested_tree ≠ nested_tree_later
  ∧ os.without_times nested_tree = os.without_times nested_tree_later
  ∧ Tar "data" nested_tree (Some (override "" fixed_time)) [good_sink]
    = Tar "data" nested_tree_later (Some (override "" fixed_time)) [good_sink]
  ∧ Bytes clock text (Some (override "notes" fixed_time)) [good_sink]
    = Bytes (λ k, (clock k + 3600000000000)%Z) text
        (Some (override "notes" fixed_time)) [good_sink].
Proof.
  assert (Hset : time.IsZero (tar.ModTime (override "" fixed_time)) = false)
    by (vm_compute; reflexivity).
  assert (Hsame : os.without_times nested_tree = os.without_times nested_tree_later)
    by (vm_compute; reflexivity).
  destruct archive_is_reproducible as [Hbytes Htar].
  split; [exact Hset|].
  split; [vm_compute; discriminate|].
  split; [exact Hsame|].
  split; [exact (Htar "data" _ _ _ [good_sink] Hset Hsame)|apply Hbytes].
Defined.

End runs_of_reproducible.

(** ** The writer chain, call by call *)

Section sinks.

Lemma accepts_le (n m : nat) (s : io.Sink) : m ≤ n → io.accepts n s → io.accepts m s.
Proof. unfold io.accepts. destruct (io.healthy s); [lia|auto]. Qed.

Lemma fed_nil (s : io.Sink) : io.fed [] s = s.
Proof.
  destruct s as [wr [k|] f]; unfold io.fed; simpl; rewrite app_nil_r;
    [rewrite Nat.sub_0_r|]; reflexivity.
Qed.

Lemma map_fed_nil (ws : list io.Sink) : map (io.fed []) ws = ws.
Proof.
  induction ws as [|s ws IH]; [reflexivity|]. simpl. rewrite fed_nil, IH.
  reflexivity.
Qed.

Lemma fed_app (ps qs : list byteslice) (s : io.Sink) :
  io.fed qs (io.fed ps s) = io.fed (ps ++ qs) s.
Proof.
  destruct s as [wr [k|] f]; unfold io.fed; simpl;
    rewrite concat_app, <- app_assoc; [|reflexivity].
  rewrite length_app. do 2 f_equal. lia.
Qed.

Lemma accepts_fed (n : nat) (ps : list byteslice) (s : io.Sink) :
  io.accepts (length ps + n) s → io.accepts n (io.fed ps s).
Proof. unfold io.accepts, io.fed. destruct (io.healthy s); simpl; [lia|auto]. Qed.

(** A sink that takes one more call takes it whole. *)
Lemma sink_Write_taken (s : io.Sink) (p : byteslice) :
  io.accepts 1 s → io.sink_Write s p = (io.fed [p] s, (length p, None)).
Proof.
  unfold io.accepts, io.sink_Write, io.fed.
  destruct s as [wr [[|k]|] f]; simpl; intros Hk; [lia| |];
    rewrite app_nil_r; [rewrite Nat.sub_0_r|]; reflexivity.
Qed.

(** A sink out of calls fails with its own error and keeps nothing. *)
Lemma sink_Write_refused (s : io.Sink) (p : byteslice) :
  io.healthy s = Some 0 → io.sink_Write s p = (s, (0, Some (io.failure s))).
Proof. unfold io.sink_Write. intros ->. reflexivity. Qed.

Lemma multi_Write_cons (s : io.Sink) (ws : list io.Sink) (p : byteslice) :
  io.multi_Write (s :: ws) p
  = let '(s', (n, err)) := io.sink_Write s p in
    match err with
    | Some e => (s' :: ws, (n, Some e))
    | None =>
        if negb (n =? length p)%nat then (s' :: ws, (n, Some ErrShortWrite))
        else let '(ws', r) := io.multi_Write ws p in (s' :: ws', r)
    end.
Proof. reflexivity. Qed.

Lemma multi_Write_taken (ws : list io.Sink) (p : byteslice) :
  Forall (io.accepts 1) ws →
  io.multi_Write ws p = (map (io.fed [p]) ws, (length p, None)).
Proof.
  induction 1 as [|s ws Hs _ IH]; [reflexivity|].
  rewrite multi_Write_cons, (sink_Write_taken s p Hs), Nat.eqb_refl, IH.
  reflexivity.
Qed.

(** The first sink that is out of calls stops the multi-writer: its
    error is the error of the call, the sinks before it have taken the
    bytes, it and the sinks after it have not. *)
Lemma multi_Write_refused (pre post : list io.Sink) (s : io.Sink) (p : byteslice) :
  Forall (io.accepts 1) pre → io.healthy s = Some 0 →
  io.multi_Write (pre ++ s :: post) p
  = (map (io.fed [p]) pre ++ s :: post, (0, Some (io.failure s))).
Proof.
  intros Hpre Hs. induction Hpre as [|q pre Hq _ IH].
  - simpl app. rewrite multi_Write_cons, (sink_Write_refused s p Hs). reflexivity.
  - simpl app. rewrite multi_Write_cons, (sink_Write_taken q p Hq), Nat.eqb_refl, IH.
    reflexivity.
Qed.

End sinks.

Section gzip_calls.
Context `{flate.Codec}.

Lemma MultiWriter_Write (ws : list io.Sink) (p : byteslice) :
  io.Write {| io.writers := ws |} p
  = let '(ws', r) := io.multi_Write ws p in ({| io.writers := ws' |}, r).
Proof. reflexivity. Qed.

Lemma push_cons {W} `{io.Writer W} (under : W) (c : byteslice)
  (rest : list byteslice) :
  gzip.push under (c :: rest)
  = let '(under', (_, e)) := io.Write under c in
    match e with
    | Some err => (under', Some err)
    | None => gzip.push under' rest
    end.
Proof. reflexivity. Qed.

(** Chunks pushed to sinks that take that many calls all arrive. *)
Lemma push_taken (chunks : list byteslice) (ws : list io.Sink) :
  Forall (io.accepts (length chunks)) ws →
  gzip.push {| io.writers := ws |} chunks
  = ({| io.writers := map (io.fed chunks) ws |}, None).
Proof.
  revert ws. induction chunks as [|c rest IH]; intros ws Hws.
  - simpl. rewrite map_fed_nil. reflexivity.
  - rewrite push_cons, MultiWriter_Write, multi_Write_taken.
    + rewrite IH.
      * rewrite map_map. do 2 f_equal. apply map_ext. intros s. apply fed_app.
      * apply Forall_map. eapply Forall_impl; [exact Hws|].
        intros s Hs. apply accepts_fed. exact Hs.
    + eapply Forall_impl; [exact Hws|]. intros s. apply accepts_le.
      simpl. lia.
Qed.


Lemma feed_all_app (c : flate.compressor) (xs ys : list byteslice) :
  flate.feed_all c (xs ++ ys)
  = (fst (flate.feed_all (fst (flate.feed_all c xs)) ys),
     snd (flate.feed_all c xs) ++ snd (flate.feed_all (fst (flate.feed_all c xs)) ys)).
Proof.
  revert c. induction xs as [|x xs IH]; intros c; simpl.
  - destruct (flate.feed_all c ys); reflexivity.
  - destruct (flate.feed c x) as [c1 out1]. rewrite IH.
    destruct (flate.feed_all c1 xs) as [c2 out2]. simpl.
    rewrite app_assoc. reflexivity.
Qed.

Lemma feed_all_one (c : flate.compressor) (p : byteslice) :
  flate.feed_all c [p] = (fst (flate.feed c p), snd (flate.feed c p)).
Proof.
  simpl. destruct (flate.feed c p) as [c1 out1]. rewrite app_nil_r. reflexivity.
Qed.

(** The calls the sinks see grow with the inputs. *)
Lemma sink_calls_snoc (inputs : list byteslice) (p : byteslice) :
  gzip.sink_calls (inputs ++ [p])
  = (if bool_decide (inputs ≠ []) then gzip.sink_calls inputs
     else [gzip.header_bytes])
    ++ snd (flate.feed (fst (flate.feed_all flate.NewWriter inputs)) p).
Proof.
  unfold gzip.sink_calls. rewrite feed_all_app, feed_all_one. simpl.
  destruct inputs as [|x xs]; reflexivity.
Qed.

Lemma sink_calls_app_length (xs ys : list byteslice) :
  length (gzip.sink_calls xs) ≤ length (gzip.sink_calls (xs ++ ys)).
Proof.
  unfold gzip.sink_calls. destruct xs as [|x xs]; [simpl; lia|].
  change ((x :: xs) ++ ys) with (x :: (xs ++ ys)).
  change (x :: (xs ++ ys)) with ((x :: xs) ++ ys).
  rewrite feed_all_app. simpl length. rewrite length_app. lia.
Qed.

(** A new gzip writer is one that has taken nothing. *)
Lemma after_nil (ws : list io.Sink) :
  gzip.after ws [] = gzip.NewWriter {| io.writers := ws |}.
Proof.
  unfold gzip.after, gzip.NewWriter. simpl. rewrite map_fed_nil. reflexivity.
Qed.

(** One more call of Write on a gzip writer whose sinks take the calls
    it leads to. *)
Lemma gzip_Write_after (ws : list io.Sink) (inputs : list byteslice) (p : byteslice) :
  Forall (io.accepts (length (gzip.sink_calls (inputs ++ [p])))) ws →
  gzip.Write (gzip.after ws inputs) p
  = (gzip.after ws (inputs ++ [p]), (length p, None)).
Proof.
  intros Hws. rewrite sink_calls_snoc in Hws.
  assert (Hafter : gzip.after ws (inputs ++ [p])
                   = {| gzip.w := {| io.writers :=
                          map (io.fed (gzip.sink_calls (inputs ++ [p]))) ws |};
                        gzip.wroteHeader := true;
                        gzip.comp := fst (flate.feed
                          (fst (flate.feed_all flate.NewWriter inputs)) p);
                        gzip.seen := concat inputs ++ p; gzip.closed := false;
                        gzip.err := None |}).
  { unfold gzip.after. rewrite feed_all_app, feed_all_one. simpl fst.
    rewrite concat_app. simpl concat. rewrite app_nil_r.
    rewrite bool_decide_true by (destruct inputs; discriminate). reflexivity. }
  rewrite Hafter, sink_calls_snoc. clear Hafter.
  unfold gzip.Write, gzip.after.
  cbn [gzip.err gzip.wroteHeader gzip.w gzip.comp gzip.seen gzip.closed].
  destruct (flate.feed (fst (flate.feed_all flate.NewWriter inputs)) p)
    as [c chunks] eqn:Hfeed. simpl fst. simpl snd in *.
  destruct (bool_decide (inputs ≠ [])) eqn:Hne.
  - rewrite length_app in Hws. rewrite push_taken.
    + rewrite map_map. do 3 f_equal. apply map_ext. intros s. apply fed_app.
    + apply Forall_map. eapply Forall_impl; [exact Hws|].
      intros s Hs. apply accepts_fed. exact Hs.
  - apply bool_decide_eq_false in Hne.
    assert (inputs = []) as -> by (destruct inputs; [reflexivity|exfalso; apply Hne; discriminate]).
    simpl gzip.sink_calls. simpl length in Hws.
    rewrite MultiWriter_Write, multi_Write_taken.
    + rewrite map_fed_nil, push_taken.
      * rewrite map_map. do 3 f_equal. apply map_ext. intros s.
        rewrite fed_app. reflexivity.
      * apply Forall_map. eapply Forall_impl; [exact Hws|].
        intros s Hs. apply accepts_fed. simpl. exact Hs.
    + rewrite map_fed_nil.
      eapply Forall_impl; [exact Hws|]. intros s. apply accepts_le. lia.
Qed.

End gzip_calls.

Section gzip_close.
Context `{flate.Codec}.

(** Close on a gzip writer that has taken input and whose sinks take
    the calls still to come: what the compressor held back and the
    trailer arrive. *)
Lemma gzip_Close_after (ws : list io.Sink) (inputs : list byteslice) :
  inputs ≠ [] →
  Forall (io.accepts (length (gzip.sink_calls inputs)
            + length (flate.finish (fst (flate.feed_all flate.NewWriter inputs))) + 1))
    ws →
  gzip.Close (gzip.after ws inputs)
  = ({| gzip.w := {| io.writers :=
          map (io.fed (gzip.sink_calls inputs
                 ++ flate.finish (fst (flate.feed_all flate.NewWriter inputs))
                 ++ [gzip.trailer (concat inputs)])) ws |};
        gzip.wroteHeader := true;
        gzip.comp := fst (flate.feed_all flate.NewWriter inputs);
        gzip.seen := concat inputs; gzip.closed := true; gzip.err := None |},
     None).
Proof.
  intros Hne Hws. unfold gzip.Close, gzip.after.
  cbn [gzip.err gzip.wroteHeader gzip.w gzip.comp gzip.seen gzip.closed].
  rewrite bool_decide_true by exact Hne.
  cbn [gzip.err gzip.wroteHeader gzip.w gzip.comp gzip.seen gzip.closed].
  rewrite push_taken.
  - rewrite MultiWriter_Write, multi_Write_taken.
    + rewrite !map_map. do 3 f_equal. apply map_ext. intros s.
      rewrite !fed_app. reflexivity.
    + apply Forall_map, Forall_map. eapply Forall_impl; [exact Hws|].
      intros s Hs. apply accepts_fed, accepts_fed.
      eapply accepts_le; [|exact Hs]. lia.
  - apply Forall_map. eapply Forall_impl; [exact Hws|].
    intros s Hs. apply accepts_fed. eapply accepts_le; [|exact Hs]. lia.
Qed.



End gzip_close.

Section tar_calls.
Context `{flate.Codec} `{tar.Format}.

Lemma Write_gzip {W} `{io.Writer W} (z : gzip.Writer W) (p : byteslice) :
  io.Write z p = gzip.Write z p.
Proof. reflexivity. Qed.

Lemma chain_after_nil (ws : list io.Sink) :
  chain_after ws [] 0 0 = tar.NewWriter (gzip.NewWriter {| io.writers := ws |}).
Proof. unfold chain_after, tar.NewWriter. rewrite after_nil. reflexivity. Qed.

Lemma tar_Flush_after (ws : list io.Sink) (inputs : list byteslice) (n p : Z) :
  (n ≤ 0)%Z →
  Forall (io.accepts (length (gzip.sink_calls
            (inputs ++ [List.firstn (Z.to_nat p) tar.zeroBlock])))) ws →
  tar.Flush (chain_after ws inputs n p)
  = (chain_after ws (inputs ++ [List.firstn (Z.to_nat p) tar.zeroBlock]) n 0, None).
Proof.
  intros Hn Hws. unfold tar.Flush, chain_after.
  cbn [tar.err tar.nb tar.pad tar.w].
  destruct (0 <? n)%Z eqn:Hpos; [apply Z.ltb_lt in Hpos; lia|].
  rewrite Write_gzip, (gzip_Write_after ws inputs _ Hws). reflexivity.
Qed.

Lemma tar_WriteHeader_after (ws : list io.Sink) (inputs : list byteslice)
  (n p : Z) (hdr : tar.Header) (blk : byteslice) :
  (n ≤ 0)%Z →
  tar.marshal (tar.prepare hdr) = inr blk →
  Forall (io.accepts (length (gzip.sink_calls
            (inputs ++ [List.firstn (Z.to_nat p) tar.zeroBlock; []; blk])))) ws →
  tar.WriteHeader (chain_after ws inputs n p) hdr
  = (let size := if tar.isHeaderOnlyType (tar.Typeflag (tar.prepare hdr))
                 then 0%Z else tar.Size (tar.prepare hdr) in
     chain_after ws (inputs ++ [List.firstn (Z.to_nat p) tar.zeroBlock; []; blk])
       size (tar.blockPadding size),
     None).
Proof.
  intros Hn Hm Hws.
  remember (List.firstn (Z.to_nat p) tar.zeroBlock) as pad0 eqn:Hpad0.
  assert (H1 : Forall (io.accepts (length (gzip.sink_calls (inputs ++ [pad0])))) ws).
  { eapply Forall_impl; [exact Hws|]. intros s. apply accepts_le.
    change (inputs ++ [pad0; []; blk]) with (inputs ++ [pad0] ++ [[]; blk]).
    rewrite app_assoc. apply sink_calls_app_length. }
  assert (H2 : Forall (io.accepts (length (gzip.sink_calls
                                             ((inputs ++ [pad0]) ++ [[]])))) ws).
  { eapply Forall_impl; [exact Hws|]. intros s. apply accepts_le.
    change (inputs ++ [pad0; []; blk]) with (inputs ++ [pad0] ++ [[]] ++ [blk]).
    rewrite !app_assoc. apply sink_calls_app_length. }
  assert (H3 : Forall (io.accepts (length (gzip.sink_calls
                         (((inputs ++ [pad0]) ++ [[]]) ++ [blk])))) ws).
  { rewrite <- !app_assoc. exact Hws. }
  unfold tar.WriteHeader. rewrite Hpad0 in H1.
  rewrite (tar_Flush_after ws inputs n p Hn H1), <- Hpad0.
  cbv beta iota zeta. rewrite Hm. unfold tar.writeRawHeader.
  pose proof (tar_Flush_after ws (inputs ++ [pad0]) n 0 Hn) as Hflush.
  change (List.firstn (Z.to_nat 0) tar.zeroBlock) with (@nil Init.Byte.byte) in Hflush.
  rewrite (Hflush H2). clear Hflush. cbv beta iota zeta.
  unfold chain_after at 1. cbn [tar.err tar.nb tar.pad tar.w].
  rewrite Write_gzip, (gzip_Write_after ws _ blk H3).
  rewrite <- !app_assoc. reflexivity.
Qed.

Lemma tar_Write_after (ws : list io.Sink) (inputs : list byteslice)
  (n p : Z) (b : byteslice) :
  b ≠ [] → (Z.of_nat (length b) ≤ n)%Z →
  Forall (io.accepts (length (gzip.sink_calls (inputs ++ [b])))) ws →
  tar.Write (chain_after ws inputs n p) b
  = (chain_after ws (inputs ++ [b]) (n - Z.of_nat (length b)) p, (length b, None)).
Proof.
  intros Hb Hn Hws. unfold tar.Write, chain_after.
  cbn [tar.err tar.nb tar.pad tar.w].
  destruct (n <? Z.of_nat (length b))%Z eqn:Hover; [apply Z.ltb_lt in Hover; lia|].
  destruct b as [|x b]; [contradiction|].
  rewrite Write_gzip, (gzip_Write_after ws inputs _ Hws). reflexivity.
Qed.

Lemma tar_Close_after (ws : list io.Sink) (inputs : list byteslice) (n p : Z) :
  (n ≤ 0)%Z →
  Forall (io.accepts (length (gzip.sink_calls
            (inputs ++ [List.firstn (Z.to_nat p) tar.zeroBlock;
                        tar.zeroBlock; tar.zeroBlock])))) ws →
  tar.Close (chain_after ws inputs n p)
  = ({| tar.w := gzip.after ws
                   (inputs ++ [List.firstn (Z.to_nat p) tar.zeroBlock;
                               tar.zeroBlock; tar.zeroBlock]);
        tar.pad := 0; tar.nb := n; tar.err := Some TarErrWriteAfterClose |},
     None).
Proof.
  intros Hn Hws.
  remember (List.firstn (Z.to_nat p) tar.zeroBlock) as pad0 eqn:Hpad0.
  assert (H1 : Forall (io.accepts (length (gzip.sink_calls (inputs ++ [pad0])))) ws).
  { eapply Forall_impl; [exact Hws|]. intros s. apply accepts_le.
    change (inputs ++ [pad0; tar.zeroBlock; tar.zeroBlock])
      with (inputs ++ [pad0] ++ [tar.zeroBlock; tar.zeroBlock]).
    rewrite app_assoc. apply sink_calls_app_length. }
  assert (H2 : Forall (io.accepts (length (gzip.sink_calls
                         ((inputs ++ [pad0]) ++ [tar.zeroBlock])))) ws).
  { eapply Forall_impl; [exact Hws|]. intros s. apply accepts_le.
    change (inputs ++ [pad0; tar.zeroBlock; tar.zeroBlock])
      with (inputs ++ [pad0] ++ [tar.zeroBlock] ++ [tar.zeroBlock]).
    rewrite !app_assoc. apply sink_calls_app_length. }
  assert (H3 : Forall (io.accepts (length (gzip.sink_calls
                         (((inputs ++ [pad0]) ++ [tar.zeroBlock]) ++ [tar.zeroBlock]))))
                 ws).
  { rewrite <- !app_assoc. exact Hws. }
  unfold tar.Close. unfold chain_after at 1. cbn [tar.err].
  change {| tar.w := gzip.after ws inputs; tar.pad := p; tar.nb := n;
            tar.err := None |} with (chain_after ws inputs n p).
  rewrite Hpad0 in H1.
  rewrite (tar_Flush_after ws inputs n p Hn H1), <- Hpad0. cbv beta iota zeta.
  unfold chain_after. cbn [tar.err tar.nb tar.pad tar.w].
  rewrite Write_gzip, (gzip_Write_after ws _ _ H2). cbv beta iota zeta.
  rewrite Write_gzip, (gzip_Write_after ws _ _ H3). cbv beta iota zeta.
  rewrite <- !app_assoc. reflexivity.
Qed.


End tar_calls.

Section Bytes_calls.
Context `{flate.Codec} `{tar.Format}.

Lemma Size_prepare (h : tar.Header) : tar.Size (tar.prepare h) = tar.Size h.
Proof.
  unfold tar.prepare, tar.promote.
  destruct (decide (tar.Typeflag h = tar.TypeRegA)); reflexivity.
Qed.

Lemma Mode_prepare (h : tar.Header) : tar.Mode (tar.prepare h) = tar.Mode h.
Proof.
  unfold tar.prepare, tar.promote.
  destruct (decide (tar.Typeflag h = tar.TypeRegA)); reflexivity.
Qed.

Lemma Name_prepare (h : tar.Header) : tar.Name (tar.prepare h) = tar.Name h.
Proof.
  unfold tar.prepare, tar.promote.
  destruct (decide (tar.Typeflag h = tar.TypeRegA)); reflexivity.
Qed.

(** The header of a buffer is written as a regular file unless its name
    ends in a slash. *)
Lemma Typeflag_buffer_header (b : byteslice) (opt : tar.Header) :
  strings.HasSuffix (tar.Name opt) "/" = false →
  tar.Typeflag (tar.prepare (buffer_header b opt)) = tar.TypeReg.
Proof.
  intros Hname. unfold tar.prepare, tar.promote, buffer_header. simpl.
  rewrite Hname. reflexivity.
Qed.

Lemma concat_copied (b : byteslice) : concat (copied b) = b.
Proof. destruct b; simpl; [reflexivity|rewrite app_nil_r; reflexivity]. Qed.

(** [Bytes] up to its deferred calls, when the header can be encoded,
    the name does not end in a slash and the sinks take every call made
    so far: the whole buffer is copied and no error returned. *)
Lemma Bytes_run_body (clock : time.Clock) (b : byteslice) (opt : option tar.Header)
  (ws : list io.Sink) (blk : byteslice) :
  tar.marshal (tar.prepare (buffer_header b (Bytes_options clock opt))) = inr blk →
  strings.HasSuffix (tar.Name (Bytes_options clock opt)) "/" = false →
  Forall (io.accepts (length (gzip.sink_calls (body_inputs blk b)))) ws →
  Bytes_run clock b opt ws
  = let '(dropped, sinks) :=
      deferred_Close (chain_after ws (body_inputs blk b) 0
                        (tar.blockPadding (Z.of_nat (length b)))) in
    ((Z.of_nat (length b), None), dropped, sinks).
Proof.
  intros Hm Hname Hws. unfold Bytes_run.
  change (match opt with Some o => o | None => Bytes_defaults clock end)
    with (Bytes_options clock opt).
  rewrite <- chain_after_nil.
  assert (Hhdr : Forall (io.accepts (length (gzip.sink_calls
                    ([] ++ [List.firstn (Z.to_nat 0) tar.zeroBlock; []; blk])))) ws).
  { eapply Forall_impl; [exact Hws|]. intros s. apply accepts_le.
    apply (sink_calls_app_length [[]; []; blk] (copied b)). }
  rewrite (tar_WriteHeader_after ws [] 0 0 _ blk (Z.le_refl 0) Hm Hhdr).
  rewrite (Typeflag_buffer_header b _ Hname), Size_prepare.
  change (tar.isHeaderOnlyType tar.TypeReg) with false.
  cbv beta iota zeta.
  change (tar.Size (buffer_header b (Bytes_options clock opt)))
    with (Z.of_nat (length b)).
  change ([] ++ [List.firstn (Z.to_nat 0) tar.zeroBlock; []; blk])
    with [@nil Init.Byte.byte; []; blk].
  unfold io.Copy_buffer. destruct b as [|x b].
  - unfold body_inputs, copied. rewrite app_nil_r. reflexivity.
  - change (io.Write ?tw (x :: b)) with (tar.Write tw (x :: b)).
    rewrite tar_Write_after; [|discriminate|lia|exact Hws].
    rewrite Nat.eqb_refl, Z.sub_diag. reflexivity.
Qed.

(** The two deferred calls on the chain [Bytes] has built, with sinks
    that take every call: both succeed and the sinks have the whole
    archive. *)
Lemma deferred_Close_taken (ws : list io.Sink) (blk b : byteslice) :
  Forall (io.accepts (length (archive_calls blk b))) ws →
  deferred_Close (chain_after ws (body_inputs blk b) 0
                    (tar.blockPadding (Z.of_nat (length b))))
  = ((None, None), map (io.fed (archive_calls blk b)) ws).
Proof.
  intros Hws. unfold deferred_Close, archive_calls in *.
  rewrite !length_app in Hws.
  change (length [gzip.trailer (concat (archive_inputs blk b))]) with 1 in Hws.
  rewrite tar_Close_after; [|lia|].
  - cbn [tar.w]. fold (archive_inputs blk b).
    rewrite gzip_Close_after.
    + reflexivity.
    + unfold archive_inputs, body_inputs. discriminate.
    + eapply Forall_impl; [exact Hws|]. intros s. apply accepts_le. lia.
  - fold (archive_inputs blk b).
    eapply Forall_impl; [exact Hws|]. intros s. apply accepts_le. lia.
Qed.

(** [Bytes] with sinks that take every call. *)
Lemma Bytes_run_taken (clock : time.Clock) (b : byteslice) (opt : option tar.Header)
  (ws : list io.Sink) (blk : byteslice) :
  tar.marshal (tar.prepare (buffer_header b (Bytes_options clock opt))) = inr blk →
  strings.HasSuffix (tar.Name (Bytes_options clock opt)) "/" = false →
  Forall (io.accepts (length (archive_calls blk b))) ws →
  Bytes_run clock b opt ws
  = ((Z.of_nat (length b), None), (None, None),
     map (io.fed (archive_calls blk b)) ws).
Proof.
  intros Hm Hname Hws.
  rewrite (Bytes_run_body clock b opt ws blk Hm Hname).
  - rewrite (deferred_Close_taken ws blk b Hws). reflexivity.
  - eapply Forall_impl; [exact Hws|]. intros s. apply accepts_le.
    unfold archive_calls, archive_inputs. rewrite length_app.
    pose proof (sink_calls_app_length (body_inputs blk b)
                  [List.firstn (Z.to_nat (tar.blockPadding (Z.of_nat (length b))))
                     tar.zeroBlock; tar.zeroBlock; tar.zeroBlock]).
    lia.
Qed.

End Bytes_calls.

Section sink_failures.
Context `{flate.Codec} `{tar.Format}.

(** A tar writer that holds an error takes nothing more. *)
Lemma tar_Write_sticky {W} `{io.Writer W} (tw : tar.Writer W) (e : error)
  (b : byteslice) :
  tar.err tw = Some e → tar.Write tw b = (tw, (0, Some e)).
Proof. intros He. unfold tar.Write. rewrite He. reflexivity. Qed.

Lemma Copy_buffer_sticky {W} `{io.Writer W} (tw : tar.Writer W) (e : error)
  (b : byteslice) :
  tar.err tw = Some e → b ≠ [] →
  io.Copy_buffer tw b = (tw, (0%Z, Some e)).
Proof.
  intros He Hb. unfold io.Copy_buffer. destruct b as [|x b]; [contradiction|].
  change (io.Write tw (x :: b)) with (tar.Write tw (x :: b)).
  rewrite (tar_Write_sticky tw e _ He). reflexivity.
Qed.


(** Every regular file has a header. *)
Lemma FileInfoHeader_regular (fi : os.FileInfo) (link : string) :
  os.IsRegular (os.fi_Mode fi) = true →
  ∃ h, tar.FileInfoHeader fi link = inr h.
Proof.
  intros Hreg. unfold tar.FileInfoHeader. rewrite Hreg. eexists. reflexivity.
Qed.






































End sink_failures.

Section runs_of_failing_sinks.
Import model.



End runs_of_failing_sinks.

(** ** Reading back what was written *)

Section little_endian.

Lemma Z_of_byte_of_Z (z : Z) : Z_of_byte (byte_of_Z z) = (z mod 256)%Z.
Proof.
  unfold Z_of_byte, byte_of_Z.
  assert (Hrange : (0 ≤ z mod 256 < 256)%Z) by (apply Z.mod_pos_bound; lia).
  destruct (Byte.of_N (Z.to_N (z mod 256))) as [b|] eqn:Hb.
  - apply Byte.to_of_N in Hb. simpl. rewrite Hb. apply Z2N.id. lia.
  - apply Byte.of_N_None_iff in Hb. lia.
Qed.

Lemma le_get_put (width : nat) (z : Z) :
  le_get (le_put width z) = (z mod 256 ^ Z.of_nat width)%Z.
Proof.
  revert z. induction width as [|w IH]; intros z.
  - simpl. rewrite Z.mod_1_r. reflexivity.
  - cbn [le_put le_get]. rewrite Z_of_byte_of_Z, IH.
    rewrite Nat2Z.inj_succ, Z.pow_succ_r by lia.
    rewrite Z.rem_mul_r by lia. reflexivity.
Qed.

Lemma le_put_length (width : nat) (z : Z) : length (le_put width z) = width.
Proof.
  revert z. induction width as [|w IH]; intros z; simpl; [|rewrite IH]; reflexivity.
Qed.

End little_endian.

Section gzip_reading.
Context `{flate.Codec} `{!flate.Lawful}.

Lemma readHeader_header_bytes (rest : byteslice) :
  gzip.readHeader (gzip.header_bytes ++ rest) = inr rest.
Proof. reflexivity. Qed.

Lemma readHeader_nil : gzip.readHeader [] = inl EOF.
Proof. reflexivity. Qed.

Lemma ChecksumIEEE_range (data : byteslice) :
  (crc32.ChecksumIEEE data mod 2 ^ 32 = crc32.ChecksumIEEE data)%Z.
Proof. unfold crc32.ChecksumIEEE. apply Z.mod_mod. lia. Qed.

(** The trailer of a member passes the check of the reader. *)
Lemma trailer_checks (data : byteslice) :
  gzip.take_exact 8 (gzip.trailer data) = inr (gzip.trailer data, [])
  ∧ le_get (List.firstn 4 (gzip.trailer data)) = crc32.ChecksumIEEE data
  ∧ le_get (List.skipn 4 (gzip.trailer data))
    = (Z.of_nat (length data) mod 2 ^ 32)%Z.
Proof.
  unfold gzip.trailer.
  set (crc := crc32.ChecksumIEEE data).
  set (size := (Z.of_nat (length data) mod 2 ^ 32)%Z).
  assert (Hcrc : le_get (le_put 4 crc) = crc).
  { rewrite le_get_put. apply ChecksumIEEE_range. }
  assert (Hsize : le_get (le_put 4 size) = size).
  { rewrite le_get_put. unfold size. apply Z.mod_mod. lia. }
  repeat split.
  - exact Hcrc.
  - exact Hsize.
Qed.

(** What a gzip writer leaves on a sink that took every call reads back
    as the bytes written to it, with a clean end. *)
Lemma NewReader_of_written (inputs : list byteslice) :
  gzip.NewReader
    (gzip.header_bytes
     ++ concat (snd (flate.feed_all flate.NewWriter inputs))
     ++ concat (flate.finish (fst (flate.feed_all flate.NewWriter inputs)))
     ++ gzip.trailer (concat inputs))
  = inr {| gzip.plain := concat inputs; gzip.ending := None |}.
Proof.
  unfold gzip.NewReader. rewrite readHeader_header_bytes.
  cbn [gzip.read_members].
  rewrite flate.inflate_feed_all.
  destruct (trailer_checks (concat inputs)) as (Htake & Hcrc & Hsize).
  rewrite Htake, Hcrc, Hsize, !Z.eqb_refl. simpl. reflexivity.
Qed.

End gzip_reading.

Section tar_reading.
Context `{tar.Format} `{!tar.Lawful}.

Lemma zeroBlock_length : length tar.zeroBlock = tar.blockSize.
Proof. apply List.repeat_length. Qed.

Lemma blockPadding_range (n : Z) : (0 ≤ tar.blockPadding n < 512)%Z.
Proof. unfold tar.blockPadding. apply Z.mod_pos_bound. lia. Qed.

Lemma padding_length (n : Z) :
  length (List.firstn (Z.to_nat (tar.blockPadding n)) tar.zeroBlock)
  = Z.to_nat (tar.blockPadding n).
Proof.
  rewrite List.length_firstn, zeroBlock_length. unfold tar.blockSize.
  pose proof (blockPadding_range n). lia.
Qed.

Lemma promote_regular (h : tar.Header) :
  tar.Typeflag h = tar.TypeReg → tar.promote h = h.
Proof.
  intros Ht. unfold tar.promote.
  destruct (decide (tar.Typeflag h = tar.TypeRegA)) as [Ha|_]; [|reflexivity].
  rewrite Ht in Ha. discriminate Ha.
Qed.

(** [Next] at the record of a regular file: the header comes back and
    the entry is set up with its size. *)
Lemma Next_at_record (h : tar.Header) (blk rest : byteslice) (ending : option error) :
  tar.marshal h = inr blk → tar.Typeflag h = tar.TypeReg → (0 ≤ tar.Size h)%Z →
  tar.Next {| tar.r_data := blk ++ rest; tar.r_end := ending; tar.r_nb := 0;
              tar.r_pad := 0; tar.r_err := None |}
  = ((Some h, None),
     {| tar.r_data := rest; tar.r_end := ending; tar.r_nb := tar.Size h;
        tar.r_pad := tar.blockPadding (tar.Size h); tar.r_err := None |}).
Proof.
  intros Hm Ht Hsize.
  pose proof (tar.marshal_length h blk Hm) as Hlen.
  pose proof (tar.marshal_not_zero h blk Hm) as Hnz.
  pose proof (tar.parse_marshal h blk Hm) as Hparse.
  unfold tar.Next, tar.next, tar.discard. cbn [tar.r_err tar.r_nb tar.r_pad tar.r_data tar.r_end].
  change (Z.to_nat 0 + Z.to_nat 0)%nat with 0%nat.
  change (0 <=? length (blk ++ rest))%nat with true. cbv iota.
  change (List.skipn 0 (blk ++ rest)) with (blk ++ rest).
  unfold tar.readHeader, tar.readFull. cbn [tar.r_err tar.r_nb tar.r_pad tar.r_data tar.r_end].
  assert (Hfits : (tar.blockSize <=? length (blk ++ rest))%nat = true).
  { apply Nat.leb_le. rewrite length_app. lia. }
  rewrite Hfits.
  rewrite (take_app_length' blk rest tar.blockSize) by (symmetry; exact Hlen).
  rewrite (drop_app_length' blk rest tar.blockSize) by (symmetry; exact Hlen).
  unfold tar.is_zero_block. rewrite bool_decide_false by exact Hnz.
  rewrite Hparse, (promote_regular h Ht), Ht.
  change (tar.isHeaderOnlyType tar.TypeReg) with false. cbv iota.
  destruct (tar.Size h <? 0)%Z eqn:Hneg; [apply Z.ltb_lt in Hneg; lia|].
  reflexivity.
Qed.

(** Reading the entry to its end. *)
Lemma ReadAll_entry (b rest : byteslice) (ending : option error) (p : Z) :
  tar.ReadAll {| tar.r_data := b ++ rest; tar.r_end := ending;
                 tar.r_nb := Z.of_nat (length b); tar.r_pad := p; tar.r_err := None |}
  = ((b, None),
     {| tar.r_data := rest; tar.r_end := ending; tar.r_nb := 0; tar.r_pad := p;
        tar.r_err := None |}).
Proof.
  unfold tar.ReadAll. cbn [tar.r_err tar.r_nb tar.r_pad tar.r_data tar.r_end].
  rewrite Nat2Z.id.
  assert (Hfits : (length b <=? length (b ++ rest))%nat = true).
  { apply Nat.leb_le. rewrite length_app. lia. }
  rewrite Hfits, (take_app_length b rest), (drop_app_length b rest). reflexivity.
Qed.

(** [Next] behind the last entry: the padding is skipped, the two zero
    blocks are met, and the call reports the end with a nil header. *)
Lemma Next_at_trailer (n : Z) :
  fst (tar.Next {| tar.r_data :=
                     List.firstn (Z.to_nat (tar.blockPadding n)) tar.zeroBlock
                     ++ tar.zeroBlock ++ tar.zeroBlock;
                   tar.r_end := None; tar.r_nb := 0;
                   tar.r_pad := tar.blockPadding n; tar.r_err := None |})
  = (None, Some EOF).
Proof.
  unfold tar.Next, tar.next, tar.discard.
  cbn [tar.r_err tar.r_nb tar.r_pad tar.r_data tar.r_end].
  change (Z.to_nat 0 + Z.to_nat (tar.blockPadding n))%nat
    with (Z.to_nat (tar.blockPadding n)).
  set (pad0 := List.firstn (Z.to_nat (tar.blockPadding n)) tar.zeroBlock).
  assert (Hpad : length pad0 = Z.to_nat (tar.blockPadding n)) by apply padding_length.
  assert (Hfits : (Z.to_nat (tar.blockPadding n)
                   <=? length (pad0 ++ tar.zeroBlock ++ tar.zeroBlock))%nat = true).
  { apply Nat.leb_le. rewrite length_app. lia. }
  rewrite Hfits.
  rewrite (drop_app_length' pad0 _ _) by (symmetry; exact Hpad).
  unfold tar.readHeader, tar.readFull.
  cbn [tar.r_err tar.r_nb tar.r_pad tar.r_data tar.r_end].
  assert (Hfits2 : (tar.blockSize <=? length (tar.zeroBlock ++ tar.zeroBlock))%nat = true).
  { apply Nat.leb_le. rewrite length_app, zeroBlock_length. lia. }
  rewrite Hfits2.
  rewrite (take_app_length' tar.zeroBlock tar.zeroBlock tar.blockSize)
    by (symmetry; apply zeroBlock_length).
  rewrite (drop_app_length' tar.zeroBlock tar.zeroBlock tar.blockSize)
    by (symmetry; apply zeroBlock_length).
  unfold tar.is_zero_block at 1. rewrite bool_decide_true by reflexivity.
  assert (Hfits3 : (tar.blockSize <=? length tar.zeroBlock)%nat = true).
  { apply Nat.leb_le. rewrite zeroBlock_length. lia. }
  rewrite Hfits3.
  rewrite (firstn_all2 tar.zeroBlock) by (rewrite zeroBlock_length; lia).
  unfold tar.is_zero_block. rewrite bool_decide_true by reflexivity.
  reflexivity.
Qed.

End tar_reading.

Section round_trip.
Context `{os.Process} `{flate.Codec} `{tar.Format} `{!flate.Lawful} `{!tar.Lawful}.

Lemma concat_archive_inputs (blk b : byteslice) :
  concat (archive_inputs blk b)
  = blk ++ b
    ++ List.firstn (Z.to_nat (tar.blockPadding (Z.of_nat (length b)))) tar.zeroBlock
    ++ tar.zeroBlock ++ tar.zeroBlock.
Proof.
  unfold archive_inputs, body_inputs. rewrite !concat_app, concat_copied.
  cbn [concat app]. rewrite app_nil_r, <- !app_assoc. reflexivity.
Qed.

(** The bytes a sink has of a whole archive are a gzip stream of the tar
    stream. *)
Lemma concat_archive_calls (blk b : byteslice) :
  concat (archive_calls blk b)
  = gzip.header_bytes
    ++ concat (snd (flate.feed_all flate.NewWriter (archive_inputs blk b)))
    ++ concat (flate.finish (fst (flate.feed_all flate.NewWriter (archive_inputs blk b))))
    ++ gzip.trailer (concat (archive_inputs blk b)).
Proof.
  unfold archive_calls, gzip.sink_calls.
  assert (Hne : archive_inputs blk b = [] :: List.tl (archive_inputs blk b))
    by reflexivity.
  rewrite Hne at 1. rewrite !concat_app. cbn [concat].
  rewrite app_nil_r, <- !app_assoc. reflexivity.
Qed.

(** The stream [Bytes] leaves on a sink that never fails is read by
    [Untar] as follows: the first round writes the buffer to the target,
    and every later round meets the end of the archive and goes on. *)
Lemma Untar_loop_of_archive (k : nat) (dst : string) (fs : os.FS)
  (h : tar.Header) (blk b : byteslice) (m : Z) :
  tar.marshal h = inr blk → tar.Typeflag h = tar.TypeReg →
  tar.Size h = Z.of_nat (length b) →
  os.lookup_path fs (filepath.Join dst (tar.Name h)) = None →
  os.lookup_path fs (os.parent (filepath.Join dst (tar.Name h))) = Some (os.FDir m) →
  Untar_loop (S k) dst
    (tar.NewReader {| gzip.plain := concat (archive_inputs blk b);
                      gzip.ending := None |}) fs
  = (Running,
     <[filepath.Join dst (tar.Name h) := os.FFile (os.created_file_mode (os.FileMode (tar.Mode h))) b]> fs).
Proof.
  intros Hm Ht Hsize Hfree Hparent.
  unfold tar.NewReader. cbn [gzip.plain gzip.ending].
  rewrite concat_archive_inputs.
  assert (Hopen : os.OpenFile_create_wronly fs (filepath.Join dst (tar.Name h))
                    (os.FileMode (tar.Mode h))
                  = (<[filepath.Join dst (tar.Name h)
                       := os.FFile (os.created_file_mode (os.FileMode (tar.Mode h))) []]> fs, inr [])).
  { unfold os.OpenFile_create_wronly. rewrite Hfree, Hparent. reflexivity. }
  cbn [Untar_loop].
  rewrite (Untar_round_regular dst _ _ _ fs _ h b []
             (Next_at_record h blk _ None Hm Ht ltac:(lia)) Ht
             ltac:(rewrite Hsize; apply ReadAll_entry) Hopen).
  unfold os.set_content. rewrite lookup_insert_eq, insert_insert_eq.
  unfold os.write_from_start. rewrite List.skipn_nil, app_nil_r.
  destruct k as [|k]; [reflexivity|].
  apply (Untar_loop_at_error k dst _ _ EOF).
  rewrite <- Hsize. apply Next_at_trailer.
Qed.

(** C7.  For a buffer whose header can be encoded and whose name does
    not end in a slash, [Bytes] writes to a sink that never fails an
    archive from which the first round of [Untar] makes, in a directory
    where the target is free, the file with exactly the bytes of the
    buffer and nothing else; but [Untar] is then still in its loop
    after every number of rounds: it does not return. *)
Theorem Untar_of_Bytes_never_returns (clock : time.Clock) (b : byteslice)
  (opt : option tar.Header) (s : io.Sink) (dst : string) (fs : os.FS)
  (blk : byteslice) (m : Z) :
  tar.marshal (tar.prepare (buffer_header b (Bytes_options clock opt))) = inr blk →
  strings.HasSuffix (tar.Name (Bytes_options clock opt)) "/" = false →
  io.healthy s = None → io.written s = [] →
  os.lookup_path fs (filepath.Join dst (tar.Name (Bytes_options clock opt))) = None →
  os.lookup_path fs
    (os.parent (filepath.Join dst (tar.Name (Bytes_options clock opt))))
  = Some (os.FDir m) →
  ∃ s',
    Bytes clock b opt [s] = ((Z.of_nat (length b), None), [s'])
    ∧ ∀ k, Untar (S k) dst (io.written s') fs
           = (Running,
              <[filepath.Join dst (tar.Name (Bytes_options clock opt))
                := os.FFile (os.created_file_mode
                             (os.FileMode (tar.Mode (Bytes_options clock opt)))) b]> fs).
Proof.
  intros Hm Hname Hs Hw Hfree Hparent.
  exists (io.fed (archive_calls blk b) s). split.
  - unfold Bytes. rewrite (Bytes_run_taken clock b opt [s] blk Hm Hname).
    + reflexivity.
    + constructor; [|constructor]. unfold io.accepts. rewrite Hs. exact I.
  - intros k. unfold Untar, io.fed. cbn [io.written].
    rewrite Hw, app_nil_l, concat_archive_calls, NewReader_of_written.
    pose proof (Untar_loop_of_archive k dst fs
                  (tar.prepare (buffer_header b (Bytes_options clock opt))) blk b m
                  Hm (Typeflag_buffer_header b _ Hname)) as Hloop.
    rewrite Size_prepare, Name_prepare, Mode_prepare in Hloop.
    apply Hloop; [reflexivity|exact Hfree|exact Hparent].
Qed.

End round_trip.

(** ** The model codec and format meet what the interfaces owe *)

Section model_laws.
Import model.

Lemma unstuff_stuff (data rest : byteslice) :
  unstuff (stuff data ++ rest) = (data, inr rest).
Proof.
  unfold stuff. induction data as [|x data IH]; [reflexivity|].
  cbn [flat_map app unstuff].
  destruct (decide (Init.Byte.x01 = Init.Byte.x00)) as [Heq|_]; [discriminate Heq|].
  destruct (decide (Init.Byte.x01 = Init.Byte.x01)) as [_|Hne]; [|contradiction].
  rewrite IH. reflexivity.
Qed.

Lemma model_feed_all (c : byteslice) (inputs : list byteslice) :
  flate.feed_all (c : flate.compressor) inputs = (c ++ concat inputs, []).
Proof.
  revert c. induction inputs as [|p inputs IH]; intros c; cbn [flate.feed_all concat].
  - rewrite app_nil_r. reflexivity.
  - cbn [flate.feed codec]. rewrite (IH (c ++ p)), <- app_assoc. reflexivity.
Qed.

Lemma codec_lawful : flate.Lawful.
Proof.
  constructor. intros inputs rest.
  assert (E : flate.feed_all flate.NewWriter inputs = (concat inputs, []))
    by exact (model_feed_all [] inputs).
  rewrite E. cbn [fst snd concat app flate.finish flate.inflate codec].
  rewrite app_nil_r. apply unstuff_stuff.
Qed.

Lemma eager_feed_all (c : unit) (inputs : list byteslice) :
  concat (snd (@flate.feed_all eager c inputs))
  = flat_map (λ b, [Init.Byte.x01; b]) (concat inputs).
Proof.
  induction inputs as [|p inputs IH]; [reflexivity|].
  cbn [flate.feed_all flate.feed eager concat].
  destruct (@flate.feed_all eager tt inputs) as [c2 out2] eqn:Hrest.
  destruct c. rewrite Hrest in IH. cbn [snd] in IH |- *.
  rewrite concat_app, IH, flat_map_app.
  destruct p; [reflexivity|]. cbn [concat]. rewrite app_nil_r. reflexivity.
Qed.

Lemma eager_lawful : @flate.Lawful eager.
Proof.
  constructor. intros inputs rest.
  change (@flate.NewWriter eager) with tt.
  rewrite (eager_feed_all tt inputs).
  cbn [flate.finish flate.inflate eager concat app].
  change (flat_map (λ b, [Init.Byte.x01; b]) (concat inputs)
          ++ Init.Byte.x00 :: rest)
    with (flat_map (λ b, [Init.Byte.x01; b]) (concat inputs)
          ++ [Init.Byte.x00] ++ rest).
  rewrite app_assoc. apply unstuff_stuff.
Qed.

Lemma list_byte_of_string_length (s : string) :
  length (list_byte_of_string s) = String.length s.
Proof.
  induction s as [|a s IH]; [reflexivity|].
  change (list_byte_of_string (String a s))
    with (byte_of_ascii a :: list_byte_of_string s).
  cbn [length String.length]. rewrite IH. reflexivity.
Qed.

Lemma get_int_put (width : nat) (z : Z) (rest : byteslice) :
  fits width z = true → get_int width (le_put width z ++ rest) = Some (z, rest).
Proof.
  unfold fits, get_int. intros Hfit.
  apply andb_true_iff in Hfit as [Hlo Hhi].
  apply Z.leb_le in Hlo. apply Z.ltb_lt in Hhi.
  assert (Hlen : (width <=? length (le_put width z ++ rest))%nat = true).
  { apply Nat.leb_le. rewrite length_app, le_put_length. lia. }
  rewrite Hlen.
  rewrite (take_app_length' _ _ width) by (symmetry; apply le_put_length).
  rewrite (drop_app_length' _ _ width) by (symmetry; apply le_put_length).
  rewrite le_get_put, Z.mod_small by lia. reflexivity.
Qed.

Lemma get_string_put (s : string) (rest : byteslice) :
  (String.length s <? 256)%nat = true →
  get_string (put_string s ++ rest) = Some (s, rest).
Proof.
  intros Hlen. apply Nat.ltb_lt in Hlen.
  unfold put_string, get_string. cbn [app].
  rewrite Z_of_byte_of_Z, Z.mod_small, Nat2Z.id by lia.
  assert (Hfits : (String.length s <=? length (list_byte_of_string s ++ rest))%nat
                  = true).
  { apply Nat.leb_le. rewrite length_app, list_byte_of_string_length. lia. }
  rewrite Hfits.
  rewrite (take_app_length' _ _ _) by (symmetry; apply list_byte_of_string_length).
  rewrite (drop_app_length' _ _ _) by (symmetry; apply list_byte_of_string_length).
  rewrite string_of_list_byte_of_string. reflexivity.
Qed.

Lemma parse_fields_fields (h : tar.Header) (rest : byteslice) :
  encodable h = true → parse_fields (fields h ++ rest) = Some h.
Proof.
  unfold encodable. rewrite !andb_true_iff.
  intros [[[[[[[[[[[Htf Hsize] Hmode] Huid] Hgid] Hmt] Hat] Hct] Hname] Hlink] Hun] Hgn].
  unfold parse_fields, fields. rewrite <- !app_assoc.
  rewrite (get_int_put 1 _ _ Htf). cbn [mbind option_bind].
  rewrite (get_string_put _ _ Hname). cbn [mbind option_bind].
  rewrite (get_string_put _ _ Hlink). cbn [mbind option_bind].
  rewrite (get_int_put 8 _ _ Hsize). cbn [mbind option_bind].
  rewrite (get_int_put 8 _ _ Hmode). cbn [mbind option_bind].
  rewrite (get_int_put 8 _ _ Huid). cbn [mbind option_bind].
  rewrite (get_int_put 8 _ _ Hgid). cbn [mbind option_bind].
  rewrite (get_string_put _ _ Hun). cbn [mbind option_bind].
  rewrite (get_string_put _ _ Hgn). cbn [mbind option_bind].
  rewrite (get_int_put 12 _ _ Hmt). cbn [mbind option_bind].
  rewrite (get_int_put 12 _ _ Hat). cbn [mbind option_bind].
  rewrite (get_int_put 12 _ _ Hct). cbn [mbind option_bind].
  destruct h. reflexivity.
Qed.

Lemma marshal_inr (h : tar.Header) (blk : byteslice) :
  marshal h = inr blk →
  encodable h = true
  ∧ length (Init.Byte.x75 :: fields h) ≤ tar.blockSize
  ∧ blk = (Init.Byte.x75 :: fields h)
          ++ List.repeat Init.Byte.x00
               (tar.blockSize - length (Init.Byte.x75 :: fields h)).
Proof.
  unfold marshal.
  destruct (encodable h); [|discriminate].
  destruct (length (Init.Byte.x75 :: fields h) <=? tar.blockSize)%nat eqn:Hlen;
    [|discriminate].
  apply Nat.leb_le in Hlen. intros [= <-]. auto.
Qed.

Lemma format_lawful : tar.Lawful.
Proof.
  constructor; intros h blk Hm; apply marshal_inr in Hm as (Henc & Hlen & ->).
  - rewrite length_app, List.repeat_length. lia.
  - intros Heq. apply (f_equal (List.hd Init.Byte.x00)) in Heq.
    vm_compute in Heq. discriminate Heq.
  - cbn [tar.parse format parse app].
    destruct (decide (Init.Byte.x75 = Init.Byte.x75)) as [_|Hne]; [|contradiction].
    rewrite (parse_fields_fields h _ Henc). reflexivity.
Qed.

End model_laws.

Section runs_of_round_trip.
Import model.

Lemma Untar_of_Bytes_never_returns_witness :
  ∃ s', Bytes clock text None [good_sink] = ((Z.of_nat (length text), None), [s'])
    ∧ ∀ k, Untar (S k) "out" (io.written s') empty_out
           = (Running,
              <[filepath.Join "out" (tar.Name (Bytes_options clock None))
                := os.FFile (os.created_file_mode
                             (os.FileMode (tar.Mode (Bytes_options clock None)))) text]>
                empty_out).
Proof.
  apply (@Untar_of_Bytes_never_returns process codec format codec_lawful format_lawful
           clock text None good_sink "out" empty_out text_block 493%Z).
  - vm_compute. reflexivity.
  - vm_compute. reflexivity.
  - reflexivity.
  - reflexivity.
  - vm_compute. reflexivity.
  - vm_compute. reflexivity.
Defined.

End runs_of_round_trip.

(** * More of what the code does *)

(** ** Entry names of the walk *)

Section entry_names.

Lemma append_cons (a : ascii) (p t : string) : String a p +:+ t = String a (p +:+ t).
Proof. reflexivity. Qed.

Lemma append_empty (t : string) : "" +:+ t = t.
Proof. reflexivity. Qed.

Lemma HasPrefix_app (p t : string) : strings.HasPrefix (p +:+ t) p = true.
Proof.
  induction p as [|a p IH]; [destruct t; reflexivity|].
  rewrite append_cons. cbn [strings.HasPrefix].
  destruct (decide (a = a)) as [_|Hne]; [exact IH|contradiction].
Qed.

Lemma drop_app (p t : string) : strings.drop (String.length p) (p +:+ t) = t.
Proof.
  induction p as [|a p IH]; [destruct t; reflexivity|].
  rewrite append_cons. exact IH.
Qed.

Lemma TrimPrefix_app (p t : string) : strings.TrimPrefix (p +:+ t) p = t.
Proof. unfold strings.TrimPrefix. rewrite HasPrefix_app. apply drop_app. Qed.

Lemma replace_from_skip (p t old new : string) (n : Z) :
  strings.replace_from (String.length p) n old new (p +:+ t)
  = strings.replace_from 0 n old new t.
Proof.
  induction p as [|a p IH]; [reflexivity|].
  rewrite append_cons. cbn [String.length strings.replace_from]. exact IH.
Qed.

Lemma replace_from_absent (t old new : string) (n : Z) :
  strings.Contains t old = false → strings.replace_from 0 n old new t = t.
Proof.
  induction t as [|c t IH]; [reflexivity|].
  cbn [strings.Contains]. intros Hc. apply orb_false_iff in Hc as [Hp Ht].
  cbn [strings.replace_from]. rewrite Hp, andb_false_r, (IH Ht). reflexivity.
Qed.

Lemma Replace_absent (s old : string) (n : Z) :
  strings.Contains s old = false → strings.Replace s old "" n = s.
Proof.
  intros Hc. unfold strings.Replace.
  destruct (decide (old = "")) as [_|_]; [reflexivity|].
  destruct (n =? 0)%Z; [reflexivity|].
  apply replace_from_absent, Hc.
Qed.

(** X1.  The walk hands the callback the path [src/rel]; when [src]
    does not occur again in [/rel], the entry is named [rel], the path
    relative to the walk root. *)
Theorem entry_name_is_relative (src rel : string) :
  src ≠ "" → strings.Contains ("/" +:+ rel) src = false →
  entry_name src (src +:+ "/" +:+ rel) = rel
  ∧ entry_name src (src +:+ "/" +:+ rel) = relative_name src (src +:+ "/" +:+ rel).
Proof.
  intros Hsrc Hc.
  assert (Hname : entry_name src (src +:+ "/" +:+ rel) = rel).
  { destruct src as [|a src]; [contradiction|].
    pose proof (HasPrefix_app (String a src) ("/" +:+ rel)) as Hp.
    unfold entry_name, strings.Replace.
    destruct (decide (String a src = "")) as [Heq|_]; [discriminate Heq|].
    rewrite append_cons in Hp |- *.
    cbn [strings.replace_from]. rewrite Hp.
    change (-1 =? 0)%Z with false.
    change (negb false && true) with true. cbv iota.
    rewrite append_empty.
    change (String.length (String a src) - 1) with (String.length src - 0).
    rewrite Nat.sub_0_r, replace_from_skip, (replace_from_absent _ _ _ _ Hc).
    apply (TrimPrefix_app "/" rel). }
  split; [exact Hname|]. rewrite Hname.
  unfold relative_name. rewrite TrimPrefix_app.
  symmetry. apply (TrimPrefix_app "/" rel).
Qed.

(** X2.  A walked path in which [src] does not occur keeps all of itself
    in the entry name, but for one leading separator: so it is for a
    [src] that [filepath.Join] rewrites, as "./data" whose files are
    walked as "data/...". *)
Theorem entry_name_keeps_unmatched_path (src file : string) :
  strings.Contains file src = false →
  entry_name src file = strings.TrimPrefix file "/".
Proof.
  intros Hc. unfold entry_name. rewrite (Replace_absent _ _ _ Hc). reflexivity.
Qed.

End entry_names.

Lemma entry_name_is_relative_witness :
  entry_name "data" ("data" +:+ "/" +:+ "backup/x.txt") = "backup/x.txt"
  ∧ entry_name "data" ("data" +:+ "/" +:+ "backup/x.txt")
    = relative_name "data" ("data" +:+ "/" +:+ "backup/x.txt").
Proof.
  apply (entry_name_is_relative "data" "backup/x.txt"); [discriminate|reflexivity].
Defined.

Lemma entry_name_keeps_unmatched_path_witness :
  filepath.Join "./data" "x.txt" = "data/x.txt"
  ∧ entry_name "./data" (filepath.Join "./data" "x.txt") = "data/x.txt".
Proof.
  split; [reflexivity|].
  exact (entry_name_keeps_unmatched_path "./data" (filepath.Join "./data" "x.txt")
           eq_refl).
Defined.

(** ** The ways out of the loop of [Untar], and the rounds that change
    nothing *)

Section Untar_returns.
Context `{os.Process} `{flate.Codec} `{tar.Format}.

(** X3.  A stream that does not start with a gzip member header is
    refused before anything is read from it as an archive: [Untar]
    returns the error of [gzip.NewReader] ([io.EOF] for an empty stream,
    [io.ErrUnexpectedEOF] for fewer than ten bytes, [gzip.ErrHeader] for
    other magic or method bytes) and changes no file. *)
Theorem Untar_rejects_what_is_not_gzip (rounds : nat) (dst : string)
  (r : byteslice) (fs : os.FS) :
  length r < 10
  ∨ List.firstn 3 r ≠ [Init.Byte.x1f; Init.Byte.x8b; Init.Byte.x08] →
  Untar rounds dst r fs
  = (Returned (Some (if decide (r = []) then EOF
                     else if (length r <? 10)%nat then ErrUnexpectedEOF
                     else GzipErrHeader)), fs).
Proof.
  intros Hr.
  assert (Hhead : gzip.readHeader r
                  = inl (if decide (r = []) then EOF
                         else if (length r <? 10)%nat then ErrUnexpectedEOF
                         else GzipErrHeader)).
  { unfold gzip.readHeader, gzip.take_exact.
    destruct (10 <=? length r)%nat eqn:Hlen.
    - apply Nat.leb_le in Hlen.
      destruct Hr as [Hshort|Hmagic]; [lia|].
      rewrite List.firstn_firstn. change (Init.Nat.min 3 10) with 3%nat.
      rewrite bool_decide_eq_false_2 by exact Hmagic. cbn [negb].
      destruct (decide (r = [])) as [->|_]; [simpl in Hlen; lia|].
      destruct (length r <? 10)%nat eqn:Hlt; [apply Nat.ltb_lt in Hlt; lia|].
      reflexivity.
    - apply Nat.leb_gt in Hlen.
      destruct (decide (r = [])) as [_|_]; [reflexivity|].
      destruct (length r <? 10)%nat eqn:Hlt; [reflexivity|].
      apply Nat.ltb_ge in Hlt. lia. }
  unfold Untar, gzip.NewReader. rewrite Hhead. reflexivity.
Qed.

(** X4.  An error of [tr.Next()] never comes back to the caller: where
    the next header cannot be read (the archive is cut short, a header
    is damaged, the compressed stream fails its checksum, or the archive
    simply ends), every further round leaves the files as they are and
    the loop goes on. *)
Theorem Untar_never_reports_header_errors (dst : string) (tr : tar.Reader)
  (fs : os.FS) (e : error) :
  fst (tar.Next tr) = (None, Some e) →
  ∀ rounds, Untar_loop rounds dst tr fs = (Running, fs).
Proof.
  intros Hnext [|k]; [reflexivity|].
  exact (Untar_loop_at_error k dst tr fs e Hnext).
Qed.

(** X5.  An entry that is neither a directory nor a regular file (a
    symbolic or hard link, a device, a fifo) is passed over: the round
    changes no file, raises no error, and the loop goes on to the next
    header. *)
Theorem Untar_skips_other_types (dst : string) (tr tr1 : tar.Reader) (fs : os.FS)
  (h : tar.Header) :
  tar.Next tr = ((Some h, None), tr1) →
  tar.Typeflag h ≠ tar.TypeDir → tar.Typeflag h ≠ tar.TypeReg →
  Untar_round dst tr fs = Continue tr1 fs.
Proof.
  intros Hn Hd Hr. unfold Untar_round. rewrite Hn.
  rewrite decide_False by discriminate.
  rewrite (decide_False (P := tar.Typeflag h = tar.TypeDir)) by exact Hd.
  rewrite (decide_False (P := tar.Typeflag h = tar.TypeReg)) by exact Hr.
  reflexivity.
Qed.

(** X6.  A directory entry whose target exists already, as a directory
    or as anything else, changes nothing: nothing is made, the mode of
    what is there stays, and a file in the way is no error. *)
Theorem Untar_leaves_existing_target_of_directory (dst : string)
  (tr tr1 : tar.Reader) (fs : os.FS) (h : tar.Header) (found : os.fnode) :
  tar.Next tr = ((Some h, None), tr1) →
  tar.Typeflag h = tar.TypeDir →
  os.lookup_path fs (filepath.Join dst (tar.Name h)) = Some found →
  Untar_round dst tr fs = Continue tr1 fs.
Proof.
  intros Hn Hd Hfound. unfold Untar_round. rewrite Hn.
  rewrite decide_False by discriminate.
  rewrite (decide_True (P := tar.Typeflag h = tar.TypeDir)) by exact Hd.
  unfold os.Stat. rewrite Hfound. reflexivity.
Qed.


Lemma Perm_created_dir_mode (perm : Z) :
  os.Perm (os.created_dir_mode perm) = Z.ldiff (os.Perm perm) os.umask.
Proof.
  unfold os.created_dir_mode, os.Perm.
  assert (Hdisj : Z.land os.ModeSticky os.ModePerm = 0%Z) by reflexivity.
  apply Z.bits_inj'. intros i Hi.
  apply (f_equal (λ z, Z.testbit z i)) in Hdisj.
  rewrite Z.land_spec, Z.bits_0 in Hdisj.
  rewrite !Z.land_spec, Z.lor_spec, !Z.ldiff_spec, !Z.land_spec.
  destruct (Z.testbit perm i), (Z.testbit os.umask i), (Z.testbit os.ModePerm i),
    (Z.testbit os.ModeSticky i);
    cbn in Hdisj |- *; congruence.
Qed.

(** X7.  A regular-file entry whose target cannot be opened ends the
    extraction: [Untar] returns the error of [os.OpenFile] and changes
    nothing.  The directories above a file are not made: where the
    target is missing and its directory is too, the error is that of the
    first directory above the target, from the top, that is missing
    (ENOENT) or is not a directory (ENOTDIR); it is ENOTDIR where the
    directory of the target is a file, and EISDIR where the target is a
    directory. *)
Theorem Untar_returns_open_error (k : nat) (dst : string) (tr tr1 : tar.Reader)
  (fs fs1 : os.FS) (h : tar.Header) (e : error) :
  tar.Next tr = ((Some h, None), tr1) →
  tar.Typeflag h = tar.TypeReg →
  os.OpenFile_create_wronly fs (filepath.Join dst (tar.Name h))
    (os.FileMode (tar.Mode h)) = (fs1, inl e) →
  Untar_loop (S k) dst tr fs = (Returned (Some e), fs)
  ∧ e = PathError "open" (filepath.Join dst (tar.Name h))
          (match os.lookup_path fs (filepath.Join dst (tar.Name h)) with
           | Some _ => EISDIR
           | None =>
               match os.lookup_path fs (os.parent (filepath.Join dst (tar.Name h))) with
               | Some _ => ENOTDIR
               | None =>
                   os.first_obstacle fs (os.ancestors (filepath.Join dst (tar.Name h)))
               end
           end).
Proof.
  intros Hn Ht Ho.
  assert (Hfs : fs1 = fs ∧ e = PathError "open" (filepath.Join dst (tar.Name h))
          (match os.lookup_path fs (filepath.Join dst (tar.Name h)) with
           | Some _ => EISDIR
           | None =>
               match os.lookup_path fs (os.parent (filepath.Join dst (tar.Name h))) with
               | Some _ => ENOTDIR
               | None =>
                   os.first_obstacle fs (os.ancestors (filepath.Join dst (tar.Name h)))
               end
           end)).
  { unfold os.OpenFile_create_wronly in Ho.
    destruct (os.lookup_path fs (filepath.Join dst (tar.Name h))) as [[m old|m]|].
    - discriminate Ho.
    - injection Ho as <- <-. auto.
    - destruct (os.lookup_path fs (os.parent (filepath.Join dst (tar.Name h))))
        as [[m old|m]|].
      + injection Ho as <- <-. auto.
      + discriminate Ho.
      + injection Ho as <- <-. auto. }
  destruct Hfs as [-> He]. split; [|exact He].
  cbn [Untar_loop]. unfold Untar_round. rewrite Hn.
  rewrite decide_False by discriminate.
  assert (Hnd : tar.Typeflag h ≠ tar.TypeDir) by (rewrite Ht; discriminate).
  rewrite (decide_False (P := tar.Typeflag h = tar.TypeDir)) by exact Hnd.
  rewrite (decide_True (P := tar.Typeflag h = tar.TypeReg)) by exact Ht.
  rewrite Ho. reflexivity.
Qed.


(** X9.  An entry whose bytes end before its size is reached ends the
    extraction with the error of the copy; the file is left with the
    bytes that did arrive. *)
Theorem Untar_returns_copy_error (k : nat) (dst : string) (tr tr1 tr2 : tar.Reader)
  (fs fs1 : os.FS) (h : tar.Header) (data old : byteslice) (e : error) :
  tar.Next tr = ((Some h, None), tr1) →
  tar.Typeflag h = tar.TypeReg →
  tar.ReadAll tr1 = ((data, Some e), tr2) →
  os.OpenFile_create_wronly fs (filepath.Join dst (tar.Name h))
    (os.FileMode (tar.Mode h)) = (fs1, inr old) →
  fst (Untar_loop (S k) dst tr fs) = Returned (Some e)
  ∧ ∃ m, snd (Untar_loop (S k) dst tr fs) !! filepath.Join dst (tar.Name h)
         = Some (os.FFile m (data ++ List.skipn (length data) old)).
Proof.
  intros Hn Ht Hr Ho.
  assert (Hround : Untar_round dst tr fs
                   = Return (Some e)
                       (os.set_content fs1 (filepath.Join dst (tar.Name h))
                          (os.write_from_start old data))).
  { unfold Untar_round. rewrite Hn.
    rewrite decide_False by discriminate.
    assert (Hnd : tar.Typeflag h ≠ tar.TypeDir) by (rewrite Ht; discriminate).
    rewrite (decide_False (P := tar.Typeflag h = tar.TypeDir)) by exact Hnd.
    rewrite (decide_True (P := tar.Typeflag h = tar.TypeReg)) by exact Ht.
    rewrite Ho, Hr. reflexivity. }
  cbn [Untar_loop]. rewrite Hround. cbn [fst snd]. split; [reflexivity|].
  destruct (OpenFile_found _ _ _ _ _ Ho) as [[m Hm] _].
  exists m. unfold os.set_content. rewrite Hm. apply lookup_insert_eq.
Qed.

End Untar_returns.

Section runs_of_Untar_returns.
Import model.

Lemma Untar_rejects_what_is_not_gzip_witness :
  Untar 5 "out" plain_text empty_out = (Returned (Some GzipErrHeader), empty_out).
Proof.
  apply (@Untar_rejects_what_is_not_gzip process codec format 5 "out" plain_text empty_out).
  right. intros Heq. vm_compute in Heq. discriminate Heq.
Defined.

Lemma Untar_never_reports_header_errors_witness :
  fst (tar.Next (reader_of junk)) = (None, Some ErrUnexpectedEOF)
  ∧ ∀ rounds, Untar_loop rounds "out" (reader_of junk) empty_out
              = (Running, empty_out).
Proof.
  assert (Hn : fst (tar.Next (reader_of junk)) = (None, Some ErrUnexpectedEOF))
    by (vm_compute; reflexivity).
  split; [exact Hn|].
  exact (Untar_never_reports_header_errors "out" (reader_of junk) empty_out
           ErrUnexpectedEOF Hn).
Defined.

Lemma Untar_skips_other_types_witness :
  Untar_round "out" (reader_of link_archive) empty_out
  = Continue (snd (tar.Next (reader_of link_archive))) empty_out.
Proof.
  apply (Untar_skips_other_types "out" (reader_of link_archive) _ empty_out
           link_header).
  - vm_compute. reflexivity.
  - intros Heq. vm_compute in Heq. discriminate Heq.
  - intros Heq. vm_compute in Heq. discriminate Heq.
Defined.

Lemma Untar_leaves_existing_target_of_directory_witness :
  Untar_round "out" (reader_of dir_archive) out_with_file_sub
  = Continue (snd (tar.Next (reader_of dir_archive))) out_with_file_sub.
Proof.
  apply (Untar_leaves_existing_target_of_directory "out" (reader_of dir_archive) _
           out_with_file_sub dir_header
           (os.FFile 420 (list_byte_of_string "abc"))).
  - vm_compute. reflexivity.
  - reflexivity.
  - vm_compute. reflexivity.
Defined.

Lemma Untar_returns_open_error_witness :
  Untar_loop 1 "out" (reader_of xy_in_sub) empty_out
  = (Returned (Some (PathError "open" "out/sub/f" ENOENT)), empty_out)
  ∧ Untar_loop 1 "out" (reader_of xy_deep) out_with_file_sub
    = (Returned (Some (PathError "open" "out/sub/d/f" ENOTDIR)), out_with_file_sub).
Proof.
  split.
  - apply (Untar_returns_open_error 0 "out" (reader_of xy_in_sub)
             (snd (tar.Next (reader_of xy_in_sub))) empty_out empty_out
             xy_sub_header).
    + vm_compute. reflexivity.
    + reflexivity.
    + vm_compute. reflexivity.
  - apply (Untar_returns_open_error 0 "out" (reader_of xy_deep)
             (snd (tar.Next (reader_of xy_deep))) out_with_file_sub
             out_with_file_sub xy_deep_header).
    + vm_compute. reflexivity.
    + reflexivity.
    + vm_compute. reflexivity.
Defined.


Lemma Untar_returns_copy_error_witness :
  fst (Untar_loop 1 "out" (reader_of cut_archive) empty_out)
  = Returned (Some ErrUnexpectedEOF)
  ∧ ∃ m, snd (Untar_loop 1 "out" (reader_of cut_archive) empty_out) !! "out/f"
         = Some (os.FFile m xy).
Proof.
  apply (Untar_returns_copy_error 0 "out" (reader_of cut_archive)
           (snd (tar.Next (reader_of cut_archive)))
           (snd (tar.ReadAll (snd (tar.Next (reader_of cut_archive)))))
           empty_out (<["out/f" := os.FFile 384 []]> empty_out) six_header xy []).
  - vm_compute. reflexivity.
  - reflexivity.
  - vm_compute. reflexivity.
  - vm_compute. reflexivity.
Defined.

End runs_of_Untar_returns.

(** ** More of [Bytes] *)

Section more_of_Bytes.
Context `{flate.Codec} `{tar.Format}.

Lemma never_failing_accepts (n : nat) (ws : list io.Sink) :
  Forall (λ s, io.healthy s = None) ws → Forall (io.accepts n) ws.
Proof.
  intros Hws. eapply Forall_impl; [exact Hws|].
  intros s Hs. unfold io.accepts. rewrite Hs. exact I.
Qed.

Lemma fed_never_failing (ps : list byteslice) (ws : list io.Sink) :
  Forall (λ s, io.healthy s = None) ws →
  map (io.fed ps) ws
  = map (λ s, {| io.written := io.written s ++ concat ps; io.healthy := None;
                 io.failure := io.failure s |}) ws.
Proof.
  induction 1 as [|s ws Hs _ IH]; [reflexivity|].
  cbn [map]. rewrite IH. unfold io.fed at 1. rewrite Hs. reflexivity.
Qed.

(** X10.  With writers that never fail, [Bytes] returns the length of
    the buffer and leaves every writer with the same bytes added to what
    it held: the one compressed archive, whatever the number of writers
    (a file and a hash see the same stream). *)
Theorem Bytes_gives_every_writer_the_archive (clock : time.Clock) (b : byteslice)
  (opt : option tar.Header) (ws : list io.Sink) (blk : byteslice) :
  tar.marshal (tar.prepare (buffer_header b (Bytes_options clock opt))) = inr blk →
  strings.HasSuffix (tar.Name (Bytes_options clock opt)) "/" = false →
  Forall (λ s, io.healthy s = None) ws →
  Bytes clock b opt ws
  = ((Z.of_nat (length b), None),
     map (λ s, {| io.written := io.written s ++ concat (archive_calls blk b);
                  io.healthy := None; io.failure := io.failure s |}) ws).
Proof.
  intros Hm Hname Hws. unfold Bytes.
  rewrite (Bytes_run_taken clock b opt ws blk Hm Hname
             (never_failing_accepts _ ws Hws)).
  rewrite (fed_never_failing _ ws Hws). reflexivity.
Qed.

Lemma tar_Write_too_long {W} `{io.Writer W} (tw : tar.Writer W) (b : byteslice) :
  tar.err tw = None → tar.nb tw = 0%Z → b ≠ [] →
  tar.Write tw b = (tw, (0, Some TarErrWriteTooLong)).
Proof.
  intros He Hn Hb. unfold tar.Write. rewrite He, Hn.
  destruct b as [|x b]; [contradiction|].
  change (0 <? Z.of_nat (length (x :: b)))%Z with true.
  reflexivity.
Qed.

(** X11.  A name that ends in a slash makes the entry a directory, which
    takes no content: for a buffer that is not empty the copy stops at
    once and [Bytes] returns 0 and [tar.ErrWriteTooLong]. *)
Theorem Bytes_refuses_content_for_directory_name (clock : time.Clock)
  (b : byteslice) (opt : option tar.Header) (ws : list io.Sink) (blk : byteslice) :
  tar.marshal (tar.prepare (buffer_header b (Bytes_options clock opt))) = inr blk →
  strings.HasSuffix (tar.Name (Bytes_options clock opt)) "/" = true →
  b ≠ [] →
  Forall (λ s, io.healthy s = None) ws →
  fst (Bytes clock b opt ws) = (0%Z, Some TarErrWriteTooLong).
Proof.
  intros Hm Hname Hb Hws. unfold Bytes, Bytes_run.
  change (match opt with Some o => o | None => Bytes_defaults clock end)
    with (Bytes_options clock opt).
  rewrite <- chain_after_nil.
  rewrite (tar_WriteHeader_after ws [] 0 0 _ blk (Z.le_refl 0) Hm
             (never_failing_accepts _ ws Hws)).
  assert (Hflag : tar.Typeflag (tar.prepare (buffer_header b (Bytes_options clock opt)))
                  = tar.TypeDir).
  { unfold tar.prepare, tar.promote, buffer_header. cbn [tar.Typeflag tar.Name].
    rewrite decide_True by reflexivity. cbn [tar.set_times tar.set_Typeflag tar.Typeflag tar.Name].
    rewrite Hname. reflexivity. }
  rewrite Hflag. change (tar.isHeaderOnlyType tar.TypeDir) with true.
  cbv beta iota zeta.
  unfold io.Copy_buffer. destruct b as [|x b]; [contradiction|].
  change (io.Write ?tw (x :: b)) with (tar.Write tw (x :: b)).
  rewrite tar_Write_too_long; [|reflexivity|reflexivity|discriminate].
  match goal with
  | |- context [deferred_Close ?tw] => destruct (deferred_Close tw) as [dropped sinks]
  end.
  reflexivity.
Qed.

(** X12.  Of the options [Bytes] is given it reads the name, the owner
    and group names, the mode and the modification time, and nothing
    else: type flag, size, ids, link name, access and change time of
    [opt] do not reach the archive. *)
Theorem Bytes_reads_five_options (clock : time.Clock) (b : byteslice)
  (opt1 opt2 : tar.Header) (ws : list io.Sink) :
  tar.Name opt1 = tar.Name opt2 → tar.Uname opt1 = tar.Uname opt2 →
  tar.Gname opt1 = tar.Gname opt2 → tar.Mode opt1 = tar.Mode opt2 →
  tar.ModTime opt1 = tar.ModTime opt2 →
  Bytes clock b (Some opt1) ws = Bytes clock b (Some opt2) ws.
Proof.
  intros Hn Hu Hg Hm Ht. unfold Bytes, Bytes_run, buffer_header.
  rewrite Hn, Hu, Hg, Hm, Ht. reflexivity.
Qed.

End more_of_Bytes.

Section runs_of_more_of_Bytes.
Import model.

Lemma Bytes_gives_every_writer_the_archive_witness :
  Bytes clock text None
    [good_sink; {| io.written := xy; io.healthy := None; io.failure := EOF |}]
  = ((Z.of_nat (length text), None),
     [ {| io.written := [] ++ concat (archive_calls text_block text);
          io.healthy := None; io.failure := Custom "" |};
       {| io.written := xy ++ concat (archive_calls text_block text);
          io.healthy := None; io.failure := EOF |} ]).
Proof.
  apply (Bytes_gives_every_writer_the_archive clock text None
           [good_sink; {| io.written := xy; io.healthy := None; io.failure := EOF |}]
           text_block).
  - vm_compute. reflexivity.
  - vm_compute. reflexivity.
  - repeat constructor.
Defined.

Lemma Bytes_refuses_content_for_directory_name_witness :
  fst (Bytes clock xy (Some (override "dir/" 0%Z)) [good_sink])
  = (0%Z, Some TarErrWriteTooLong).
Proof.
  apply (Bytes_refuses_content_for_directory_name clock xy
           (Some (override "dir/" 0%Z)) [good_sink]
           (block_of (tar.prepare (buffer_header xy (override "dir/" 0%Z))))).
  - vm_compute. reflexivity.
  - vm_compute. reflexivity.
  - discriminate.
  - repeat constructor.
Defined.

Lemma Bytes_reads_five_options_witness :
  Bytes clock text (Some (override "f" 0%Z)) [good_sink]
  = Bytes clock text (Some (tar.set_Typeflag (override "f" 0%Z) tar.TypeDir))
      [good_sink].
Proof.
  apply (Bytes_reads_five_options clock text (override "f" 0%Z)
           (tar.set_Typeflag (override "f" 0%Z) tar.TypeDir) [good_sink]);
    reflexivity.
Defined.

End runs_of_more_of_Bytes.

(** ** More of [Tar] *)

Section file_modes.

Lemma resolve_not_Symlink (n : os.node) (st : os.Stat_t) (target : os.node) :
  os.resolve n ≠ os.Symlink st target.
Proof.
  induction n as [st' data readable|st' target' IH|st' entries read_err _|e]
    using node_tree_ind; simpl; try discriminate. exact IH.
Qed.

Lemma file_is_not_dir (m : Z) :
  os.IsDir (Z.ldiff m (Z.lor os.ModeDir os.ModeSymlink)) = false.
Proof.
  unfold os.IsDir.
  assert (Hz : Z.land (Z.ldiff m (Z.lor os.ModeDir os.ModeSymlink)) os.ModeDir = 0%Z).
  { apply Z.bits_inj'. intros i Hi.
    rewrite Z.land_spec, Z.ldiff_spec, Z.lor_spec, Z.bits_0.
    destruct (Z.testbit os.ModeDir i); cbn [orb negb];
      rewrite ?andb_false_r; reflexivity. }
  rewrite Hz. reflexivity.
Qed.

Lemma symlink_is_not_regular (m : Z) :
  os.IsRegular (Z.lor (Z.ldiff m os.ModeType) os.ModeSymlink) = false.
Proof.
  unfold os.IsRegular.
  destruct (Z.eqb_spec (Z.land (Z.lor (Z.ldiff m os.ModeType) os.ModeSymlink)
                          os.ModeType) 0) as [Heq|_]; [|reflexivity].
  apply (f_equal (λ z, Z.testbit z 27)) in Heq.
  rewrite Z.land_spec, Z.lor_spec, Z.ldiff_spec in Heq.
  change (Z.testbit os.ModeSymlink 27) with true in Heq.
  change (Z.testbit os.ModeType 27) with true in Heq.
  rewrite orb_true_r in Heq. discriminate Heq.
Qed.

Lemma dir_is_dir (m : Z) :
  os.IsDir (Z.lor (Z.ldiff m os.ModeType) os.ModeDir) = true.
Proof.
  unfold os.IsDir.
  destruct (Z.eqb_spec (Z.land (Z.lor (Z.ldiff m os.ModeType) os.ModeDir)
                          os.ModeDir) 0) as [Heq|_]; [|reflexivity].
  apply (f_equal (λ z, Z.testbit z 31)) in Heq.
  rewrite Z.land_spec, Z.lor_spec, Z.ldiff_spec in Heq.
  change (Z.testbit os.ModeDir 31) with true in Heq.
  rewrite orb_true_r in Heq. discriminate Heq.
Qed.

(** What [os.Stat] reports of a path, by what the path resolves to. *)
Lemma Stat_source_File (src : string) (root : os.node) (st : os.Stat_t)
  (data : byteslice) (readable : bool) :
  os.resolve root = os.File st data readable →
  ∃ info, os.Stat_source src root = inr info
          ∧ os.IsDir (os.fi_Mode info) = false
          ∧ os.fi_Mode info = Z.ldiff (os.st_mode st) (Z.lor os.ModeDir os.ModeSymlink)
          ∧ os.fi_Size info = Z.of_nat (length data).
Proof.
  intros Hr. unfold os.Stat_source. rewrite Hr. eexists. split; [reflexivity|].
  split; [apply file_is_not_dir|]. split; reflexivity.
Qed.

End file_modes.

Section more_of_Tar.
Context `{flate.Codec} `{tar.Format}.

(** X13.  A source path that cannot be stat'ed (it is missing, or a
    symbolic link whose target is) makes [Tar] return the error of
    [os.Stat] before any writer is built: no writer receives a byte. *)
Theorem Tar_returns_stat_error (src : string) (root : os.node)
  (opt : option tar.Header) (writers : list io.Sink) (e : error) :
  os.resolve root = os.Missing e →
  Tar src root opt writers = (Some e, writers).
Proof.
  intros Hr. unfold Tar, Tar_run, os.Stat_source. rewrite Hr. reflexivity.
Qed.

(** X14.  The error of [os.Open] is dropped, and the copy from the nil
    file fails: for a regular file that cannot be opened [Tar] returns
    [os.ErrInvalid] whatever the writers do, and the walk callback
    returns an error, which stops the walk. *)
Theorem Tar_unreadable_file (src : string) (root : os.node)
  (opt : option tar.Header) (writers : list io.Sink) (info : os.FileInfo)
  (e : error) :
  os.Stat_source src root = inr info →
  os.IsDir (os.fi_Mode info) = false →
  os.IsRegular (os.fi_Mode info) = true →
  os.Open root = inl e →
  fst (Tar src root opt writers) = Some ErrInvalid
  ∧ ∀ (o : tar.Header) (file : string) (i : os.FileInfo) (tw : pipeline),
      os.IsRegular (os.fi_Mode i) = true →
      ∃ e', snd (walk_file src o file (Some (i, root)) None tw) = Some e'.
Proof.
  intros Hstat Hdir Hreg Hopen.
  assert (He : e = ErrInvalid).
  { unfold os.Open in Hopen.
    destruct (os.resolve root) as [st data [|]|st t|st es re|e0];
      congruence. }
  subst e. split.
  - unfold Tar, Tar_run. rewrite Hstat, Hdir, Hreg, Hopen. cbn [negb].
    destruct (tar.WriteHeader _ _) as [tw e1]. cbn [io.Copy_file].
    destruct (deferred_Close tw) as [dropped sinks]. reflexivity.
  - intros o file i tw Hi. unfold walk_file. rewrite Hi. cbn [negb].
    destruct (FileInfoHeader_regular i (os.fi_Name i) Hi) as [hdr Hhdr].
    rewrite Hhdr.
    destruct (tar.WriteHeader tw _) as [tw1 [e1|]]; [eexists; reflexivity|].
    rewrite Hopen. cbn [io.Copy_file]. eexists. reflexivity.
Qed.

(** X15.  [os.Stat] follows a symbolic link and [filepath.Walk] does
    not.  A link to anything but a directory is archived as what it
    points to; a link to a directory is walked as the link itself, which
    is not a regular file: [Tar] returns nil and the archive is empty,
    whatever the directory holds. *)
Theorem Tar_of_symbolic_link (src : string) (st : os.Stat_t) (target : os.node)
  (opt : option tar.Header) (writers : list io.Sink) :
  (filepath.is_dir_node (os.resolve target) = false →
   Tar src (os.Symlink st target) opt writers = Tar src target opt writers)
  ∧ (filepath.is_dir_node (os.resolve target) = true →
     Tar src (os.Symlink st target) opt writers
     = (None, snd (deferred_Close
                     (tar.NewWriter (gzip.NewWriter {| io.writers := writers |}))))).
Proof.
  split; intros Hd.
  - unfold Tar, Tar_run, os.Stat_source, os.Open. cbn [os.resolve].
    destruct (os.resolve target) as [st' data readable|st' t|st' es re|e] eqn:Hr;
      try discriminate Hd.
    + cbn [os.Lstat os.info_of os.fi_Mode]. rewrite file_is_not_dir. reflexivity.
    + exfalso. exact (resolve_not_Symlink target st' t Hr).
    + reflexivity.
  - unfold Tar, Tar_run, os.Stat_source. cbn [os.resolve].
    destruct (os.resolve target) as [st' data readable|st' t|st' es re|e] eqn:Hr;
      try discriminate Hd.
    cbn [os.Lstat os.info_of os.fi_Mode]. rewrite dir_is_dir. cbn [negb].
    unfold filepath.Walk. cbn [filepath.walk].
    unfold filepath.info_of_node. cbn [os.Lstat].
    unfold walk_file. cbn [os.info_of os.fi_Mode].
    rewrite symlink_is_not_regular. cbn [negb].
    rewrite bool_decide_eq_false_2 by (intros [Hx|Hx]; discriminate Hx).
    destruct (deferred_Close _) as [dropped sinks]. reflexivity.
Qed.

(** X16.  A directory that cannot be read: the callback is handed the
    error of reading it and returns it, the walk stops there, and [Tar]
    returns the error; the writers get an archive with no entry. *)
Theorem Tar_unreadable_directory (src : string) (st : os.Stat_t)
  (entries : list (string * os.node)) (e : error) (opt : option tar.Header)
  (writers : list io.Sink) :
  Tar src (os.Dir st entries (Some e)) opt writers
  = (if bool_decide (Some e = Some SkipDir ∨ Some e = Some SkipAll)
     then None else Some e,
     snd (deferred_Close
            (tar.NewWriter (gzip.NewWriter {| io.writers := writers |})))).
Proof.
  unfold Tar, Tar_run, os.Stat_source. cbn [os.resolve os.Lstat os.info_of os.fi_Mode].
  rewrite dir_is_dir. cbn [negb].
  unfold filepath.Walk. cbn [filepath.walk].
  unfold walk_file at 1.
  rewrite bool_decide_eq_true_2 by (left; discriminate).
  destruct (bool_decide (Some e = Some SkipDir ∨ Some e = Some SkipAll));
    destruct (deferred_Close _) as [dropped sinks]; reflexivity.
Qed.

End more_of_Tar.

(** ** The options [Tar] reads *)

Section walk_extensional.
Context {S : Type} (f g : filepath.WalkFunc S).
Hypothesis Hfg : ∀ path info err s, f path info err s = g path info err s.

(** Two callbacks that return the same on every call are walked alike. *)
Lemma walk_ext (n : os.node) :
  ∀ (path : string) (s : S), filepath.walk f path n s = filepath.walk g path n s.
Proof.
  induction n as [st data readable|st target _|st entries read_err IH|e]
    using node_tree_ind; intros path s.
  - apply Hfg.
  - apply Hfg.
  - simpl. rewrite Hfg.
    destruct (g path _ read_err s) as [s1 err1].
    destruct (bool_decide (read_err ≠ None ∨ err1 ≠ None)); [reflexivity|].
    clear s. revert s1.
    induction IH as [|[name c] rest Hc _ IHrest]; intros s1; [reflexivity|].
    simpl. simpl in Hc. rewrite Hc.
    destruct (filepath.walk g (filepath.Join path name) c s1) as [s2 [e|]].
    + destruct (filepath.is_dir_node c && bool_decide (e = SkipDir));
        [apply IHrest|].
      destruct c as [st' data readable|st' target|st' entries' read_err'|e'];
        try reflexivity.
      destruct (decide (e = SkipDir)); [apply IHrest|reflexivity].
    + apply IHrest.
  - apply Hfg.
Qed.

End walk_extensional.

Section options_of_Tar.
Context `{flate.Codec} `{tar.Format}.

(** X17.  Of the options [Tar] is given it reads the owner and group
    names and the mode, and in the directory walk the modification time;
    nothing else.  Two option headers that agree on these give the same
    archive, and for a path that is not a directory they need not agree
    on the modification time either. *)
Theorem Tar_reads_four_options (src : string) (root : os.node)
  (opt1 opt2 : tar.Header) (writers : list io.Sink) :
  tar.Uname opt1 = tar.Uname opt2 → tar.Gname opt1 = tar.Gname opt2 →
  tar.Mode opt1 = tar.Mode opt2 →
  tar.ModTime opt1 = tar.ModTime opt2
  ∨ filepath.is_dir_node (os.resolve root) = false →
  Tar src root (Some opt1) writers = Tar src root (Some opt2) writers.
Proof.
  intros Hu Hg Hm Ht.
  assert (Hfh : ∀ info, file_header src info opt1 = file_header src info opt2)
    by (intros info; unfold file_header; rewrite Hu, Hg, Hm; reflexivity).
  destruct Ht as [Ht|Hnd].
  - assert (Hwf : ∀ path info err tw,
               walk_file src opt1 path info err tw = walk_file src opt2 path info err tw)
      by (intros path info err tw; unfold walk_file; rewrite Hu, Hg, Hm, Ht;
          reflexivity).
    unfold Tar, Tar_run.
    destruct (os.Stat_source src root) as [e|info]; [reflexivity|].
    destruct (negb (os.IsDir (os.fi_Mode info))).
    + destruct (negb (os.IsRegular (os.fi_Mode info))); [reflexivity|].
      rewrite Hfh. reflexivity.
    + unfold filepath.Walk.
      rewrite (walk_ext _ _ Hwf root src). reflexivity.
  - unfold Tar, Tar_run, os.Stat_source.
    destruct (os.resolve root) as [st data readable|st t|st es re|e] eqn:Hr;
      try discriminate Hnd.
    + cbn [os.Lstat os.info_of os.fi_Mode]. rewrite file_is_not_dir. cbn [negb].
      destruct (negb (os.IsRegular _)); [reflexivity|].
      rewrite Hfh. reflexivity.
    + exfalso. exact (resolve_not_Symlink root st t Hr).
    + reflexivity.
Qed.

End options_of_Tar.

(** ** A file archived by [Tar] and extracted by [Untar] *)

Section copy_of_a_file.
Context `{os.Process} `{flate.Codec} `{tar.Format} `{!flate.Lawful} `{!tar.Lawful}.

Lemma concat_chunks (fuel size : nat) (data : byteslice) :
  0 < size → length data ≤ fuel → concat (io.chunks fuel size data) = data.
Proof.
  intros Hsize. revert data.
  induction fuel as [|fuel IH]; intros [|x data] Hlen; try reflexivity.
  - simpl in Hlen. lia.
  - cbn [io.chunks concat]. rewrite IH.
    + apply List.firstn_skipn.
    + rewrite List.length_skipn. simpl in Hlen. simpl. lia.
Qed.

(** The copy loop over a chain whose sinks never fail: every buffer-full
    goes through, and the count is the length of the file. *)
Lemma copy_loop_after (ws : list io.Sink) (fuel size : nat) (data : byteslice) :
  Forall (λ s, io.healthy s = None) ws → 0 < size →
  ∀ (inputs : list byteslice) (n p acc : Z),
    length data ≤ fuel → (Z.of_nat (length data) ≤ n)%Z →
    io.copy_loop fuel size (chain_after ws inputs n p) data acc
    = (chain_after ws (inputs ++ io.chunks fuel size data)
         (n - Z.of_nat (length data)) p,
       ((acc + Z.of_nat (length data))%Z, None)).
Proof.
  intros Hws Hsize. revert data.
  induction fuel as [|fuel IH]; intros [|x data] inputs n p acc Hlen Hn.
  - cbn [io.copy_loop io.chunks length]. rewrite app_nil_r, Z.sub_0_r, Z.add_0_r.
    reflexivity.
  - simpl in Hlen. lia.
  - cbn [io.copy_loop io.chunks length]. rewrite app_nil_r, Z.sub_0_r, Z.add_0_r.
    reflexivity.
  - cbn [io.copy_loop io.chunks].
    remember (x :: data) as d eqn:Hd.
    assert (Hchunk : List.firstn size d ≠ [])
      by (subst d; destruct size; [lia|discriminate]).
    assert (Hcl : length (List.firstn size d) + length (List.skipn size d) = length d)
      by (rewrite <- length_app, List.firstn_skipn; reflexivity).
    change (io.Write ?tw (List.firstn size d)) with (tar.Write tw (List.firstn size d)).
    rewrite tar_Write_after;
      [|exact Hchunk|lia|apply never_failing_accepts, Hws].
    rewrite Nat.eqb_refl. cbn [negb].
    rewrite IH.
    + rewrite <- app_assoc. cbn [app].
      f_equal; [f_equal; lia|f_equal; lia].
    + subst d. rewrite List.length_skipn. simpl in Hlen |- *. lia.
    + lia.
Qed.


(** The two deferred calls on a chain that owes no bytes, with sinks
    that never fail. *)
Lemma deferred_Close_after (ws : list io.Sink) (inputs : list byteslice) (p : Z) :
  Forall (λ s, io.healthy s = None) ws →
  deferred_Close (chain_after ws inputs 0 p)
  = ((None, None),
     map (io.fed (stream_calls
                    (inputs ++ [List.firstn (Z.to_nat p) tar.zeroBlock;
                                tar.zeroBlock; tar.zeroBlock]))) ws).
Proof.
  intros Hws. unfold deferred_Close, stream_calls.
  rewrite tar_Close_after; [|lia|apply never_failing_accepts, Hws].
  cbn [tar.w]. rewrite gzip_Close_after.
  - reflexivity.
  - destruct inputs; discriminate.
  - apply never_failing_accepts, Hws.
Qed.

Lemma concat_stream_calls (inputs : list byteslice) :
  inputs ≠ [] →
  concat (stream_calls inputs)
  = gzip.header_bytes
    ++ concat (snd (flate.feed_all flate.NewWriter inputs))
    ++ concat (flate.finish (fst (flate.feed_all flate.NewWriter inputs)))
    ++ gzip.trailer (concat inputs).
Proof.
  intros Hne. unfold stream_calls, gzip.sink_calls.
  destruct inputs as [|i inputs]; [contradiction|].
  rewrite !concat_app. cbn [concat].
  rewrite app_nil_r, <- !app_assoc. reflexivity.
Qed.




End copy_of_a_file.

Section runs_of_more_of_Tar.
Import model.

Lemma Tar_returns_stat_error_witness :
  Tar "current" dangling_link None [good_sink]
  = (Some (PathError "stat" "gone" ENOENT), [good_sink]).
Proof.
  apply (Tar_returns_stat_error "current" dangling_link None [good_sink]).
  reflexivity.
Defined.

Lemma Tar_unreadable_file_witness :
  fst (Tar "key" locked_file None [good_sink]) = Some ErrInvalid.
Proof.
  destruct (Stat_source_File "key" locked_file (stat 384)
              (list_byte_of_string "secret") false eq_refl)
    as (info & Hstat & Hdir & Hmode & _).
  assert (Hreg : os.IsRegular (os.fi_Mode info) = true)
    by (rewrite Hmode; vm_compute; reflexivity).
  exact (proj1 (Tar_unreadable_file "key" locked_file None [good_sink] info
                  ErrInvalid Hstat Hdir Hreg eq_refl)).
Defined.

Lemma Tar_of_symbolic_link_witness :
  Tar "l" link_to_file None [good_sink] = Tar "l" (file 420 "hello") None [good_sink]
  ∧ Tar "current" link_to_dir None [good_sink]
    = (None, snd (deferred_Close
                    (tar.NewWriter (gzip.NewWriter {| io.writers := [good_sink] |})))).
Proof.
  split.
  - apply (proj1 (Tar_of_symbolic_link "l" (stat 511) (file 420 "hello") None
                    [good_sink])).
    reflexivity.
  - apply (proj2 (Tar_of_symbolic_link "current" (stat 511) nested_tree None
                    [good_sink])).
    reflexivity.
Defined.

Lemma Tar_reads_four_options_witness :
  Tar "data" nested_tree (Some (override "" fixed_time)) [good_sink]
  = Tar "data" nested_tree (Some (override "ignored" fixed_time)) [good_sink].
Proof.
  apply (Tar_reads_four_options "data" nested_tree (override "" fixed_time)
           (override "ignored" fixed_time) [good_sink]);
    try reflexivity.
  left. reflexivity.
Defined.


End runs_of_more_of_Tar.

(** ** The default name of [Bytes] *)

Section default_name.
Context `{flate.Codec} `{tar.Format}.

Lemma digit_not_slash (n : Z) : time.digit n ≠ "/"%char.
Proof.
  unfold time.digit.
  assert (Hr : (0 ≤ n mod 10 < 10)%Z) by (apply Z.mod_pos_bound; lia).
  assert (Hc : (n mod 10 = 0 ∨ n mod 10 = 1 ∨ n mod 10 = 2 ∨ n mod 10 = 3
                ∨ n mod 10 = 4 ∨ n mod 10 = 5 ∨ n mod 10 = 6 ∨ n mod 10 = 7
                ∨ n mod 10 = 8 ∨ n mod 10 = 9)%Z) by lia.
  destruct Hc as [Hc|[Hc|[Hc|[Hc|[Hc|[Hc|[Hc|[Hc|[Hc|Hc]]]]]]]]];
    rewrite Hc; vm_compute; discriminate.
Qed.

(** X19.  The name [Bytes] takes for a nil [opt], the clock reading
    formatted as "20060102T150405", has fifteen characters and never
    ends in a slash: with a nil [opt] the entry is always a regular
    file. *)
Theorem Bytes_default_name_is_regular (clock : time.Clock) (b : byteslice) :
  String.length (tar.Name (Bytes_options clock None)) = 15
  ∧ strings.HasSuffix (tar.Name (Bytes_options clock None)) "/" = false
  ∧ tar.Typeflag (tar.prepare (buffer_header b (Bytes_options clock None)))
    = tar.TypeReg.
Proof.
  assert (Hname : String.length (tar.Name (Bytes_options clock None)) = 15
                  ∧ strings.HasSuffix (tar.Name (Bytes_options clock None)) "/"
                    = false).
  { unfold Bytes_options, Bytes_defaults. cbn [tar.Name].
    unfold time.Format_compact.
    destruct (time.civil (clock 0%nat / time.Second / 86400)) as [[y m] d].
    cbv [time.digits4 time.digits2 String.append].
    split; [reflexivity|].
    unfold strings.HasSuffix. cbn [String.length Nat.leb Nat.sub strings.drop andb].
    apply bool_decide_eq_false_2. intros Heq. injection Heq as Hd.
    exact (digit_not_slash _ Hd). }
  destruct Hname as [Hlen Hsuffix].
  split; [exact Hlen|]. split; [exact Hsuffix|].
  apply Typeflag_buffer_header, Hsuffix.
Qed.

End default_name.

(** ** The writers after a failure *)

Section writers_after_failure.
Context `{flate.Codec} `{tar.Format}.

(** The first header through a new chain, with a sink that takes
    nothing: the gzip header reached the sinks before it and no other,
    and both writers of the chain keep the error. *)
Lemma tar_WriteHeader_first_refused_state (pre post : list io.Sink) (s : io.Sink)
  (hdr : tar.Header) :
  Forall (io.accepts 1) pre → io.healthy s = Some 0 →
  tar.WriteHeader
    (tar.NewWriter (gzip.NewWriter {| io.writers := pre ++ s :: post |})) hdr
  = ({| tar.w :=
          {| gzip.w := {| io.writers :=
                            map (io.fed [gzip.header_bytes]) pre ++ s :: post |};
             gzip.wroteHeader := true; gzip.comp := flate.NewWriter;
             gzip.seen := []; gzip.closed := false;
             gzip.err := Some (io.failure s) |};
        tar.pad := 0; tar.nb := 0; tar.err := Some (io.failure s) |},
     Some (io.failure s)).
Proof.
  intros Hpre Hs. unfold tar.WriteHeader, tar.Flush, tar.NewWriter.
  cbn [tar.err tar.nb tar.pad tar.w].
  change (0 <? 0)%Z with false. cbv beta iota.
  rewrite Write_gzip. unfold gzip.Write, gzip.NewWriter.
  cbn [gzip.err gzip.wroteHeader gzip.w gzip.comp gzip.seen gzip.closed].
  rewrite MultiWriter_Write, (multi_Write_refused pre post s _ Hpre Hs).
  reflexivity.
Qed.

(** X20.  When a writer fails on the first write it is handed, the
    writers are left unlike each other: those listed before it hold the
    ten bytes of the gzip header and nothing more, the failing one and
    those after it hold nothing new.  The deferred closes add nothing. *)
Theorem Bytes_writers_after_first_failure (clock : time.Clock) (b : byteslice)
  (opt : option tar.Header) (pre post : list io.Sink) (s : io.Sink) :
  Forall (io.accepts 1) pre → io.healthy s = Some 0 →
  snd (Bytes clock b opt (pre ++ s :: post))
  = map (λ w, {| io.written := io.written w ++ gzip.header_bytes;
                 io.healthy := (λ k, k - 1) <$> io.healthy w;
                 io.failure := io.failure w |}) pre
    ++ s :: post.
Proof.
  intros Hpre Hs. unfold Bytes, Bytes_run.
  rewrite (tar_WriteHeader_first_refused_state pre post s _ Hpre Hs).
  assert (Hfed : map (io.fed [gzip.header_bytes]) pre
                 = map (λ w, {| io.written := io.written w ++ gzip.header_bytes;
                                io.healthy := (λ k, k - 1) <$> io.healthy w;
                                io.failure := io.failure w |}) pre).
  { apply map_ext. intros w. unfold io.fed. cbn [concat length].
    rewrite app_nil_r. reflexivity. }
  rewrite Hfed.
  assert (Hclose : ∀ tw : pipeline,
             tar.err tw = Some (io.failure s) →
             gzip.err (tar.w tw) = Some (io.failure s) →
             snd (deferred_Close tw) = io.writers (gzip.w (tar.w tw))).
  { intros tw Ht Hg. unfold deferred_Close, tar.Close. rewrite Ht.
    destruct (decide (io.failure s = TarErrWriteAfterClose));
      unfold gzip.Close; rewrite Hg; reflexivity. }
  destruct b as [|x b].
  - cbn [io.Copy_buffer].
    match goal with
    | |- context [deferred_Close ?tw] =>
        pose proof (Hclose tw eq_refl eq_refl) as Hc;
        destruct (deferred_Close tw) as [dropped sinks]
    end.
    exact Hc.
  - rewrite (Copy_buffer_sticky _ (io.failure s)); [|reflexivity|discriminate].
    match goal with
    | |- context [deferred_Close ?tw] =>
        pose proof (Hclose tw eq_refl eq_refl) as Hc;
        destruct (deferred_Close tw) as [dropped sinks]
    end.
    exact Hc.
Qed.

End writers_after_failure.

Section runs_of_writers_after_failure.
Import model.

Lemma Bytes_writers_after_first_failure_witness :
  snd (Bytes clock text None [good_sink; failing_sink 0 "disk full"; good_sink])
  = [ {| io.written := [] ++ gzip.header_bytes; io.healthy := None;
         io.failure := Custom "" |};
      failing_sink 0 "disk full"; good_sink ].
Proof.
  apply (Bytes_writers_after_first_failure clock text None [good_sink] [good_sink]
           (failing_sink 0 "disk full")).
  - repeat constructor.
  - reflexivity.
Defined.

End runs_of_writers_after_failure.

(** ** The archive of a directory tree *)

Section walk_of_a_tree.
Context `{flate.Codec} `{tar.Format} `{!flate.Lawful} `{!tar.Lawful}.
Variables (src : string) (opt : tar.Header) (ws : list io.Sink).
Hypothesis Hws : Forall (λ s, io.healthy s = None) ws.

Lemma entries_inputs_app (n : Z) (es1 es2 : list (tar.Header * byteslice)) :
  entries_inputs n (es1 ++ es2)
  = (fst (entries_inputs n es1)
     ++ fst (entries_inputs (snd (entries_inputs n es1)) es2),
     snd (entries_inputs (snd (entries_inputs n es1)) es2)).
Proof.
  revert n. induction es1 as [|[h data] es1 IH]; intros n.
  - cbn [app entries_inputs fst snd]. destruct (entries_inputs n es2). reflexivity.
  - cbn [app entries_inputs]. rewrite IH.
    destruct (entries_inputs (Z.of_nat (length data)) es1) as [more last].
    cbn [fst snd app]. rewrite <- app_assoc. reflexivity.
Qed.

Lemma dir_is_not_regular (m : Z) :
  os.IsRegular (Z.lor (Z.ldiff m os.ModeType) os.ModeDir) = false.
Proof.
  unfold os.IsRegular.
  destruct (Z.eqb_spec (Z.land (Z.lor (Z.ldiff m os.ModeType) os.ModeDir)
                          os.ModeType) 0) as [Heq|_]; [|reflexivity].
  apply (f_equal (λ z, Z.testbit z 31)) in Heq.
  rewrite Z.land_spec, Z.lor_spec, Z.ldiff_spec in Heq.
  change (Z.testbit os.ModeDir 31) with true in Heq.
  change (Z.testbit os.ModeType 31) with true in Heq.
  rewrite orb_true_r in Heq. discriminate Heq.
Qed.

Lemma walk_file_regular (file : string) (info : os.FileInfo) (found : os.node)
  (tw : pipeline) :
  os.IsRegular (os.fi_Mode info) = true →
  walk_file src opt file (Some (info, found)) None tw
  = let '(tw, e) := tar.WriteHeader tw (walk_header src opt file info) in
    match e with
    | Some e => (tw, Some e)
    | None => let '(tw, (_, e)) := io.Copy_file tw (os.Open found) in (tw, e)
    end.
Proof.
  intros Hreg. unfold walk_file, walk_header. rewrite Hreg. cbn [negb].
  destruct (FileInfoHeader_regular info (os.fi_Name info) Hreg) as [hdr Hhdr].
  rewrite Hhdr. reflexivity.
Qed.

Lemma walk_header_regular (file : string) (info : os.FileInfo) :
  os.IsRegular (os.fi_Mode info) = true →
  tar.Typeflag (tar.prepare (walk_header src opt file info)) = tar.TypeReg
  ∧ tar.Size (tar.prepare (walk_header src opt file info)) = os.fi_Size info.
Proof.
  intros Hreg. rewrite Size_prepare.
  unfold walk_header, tar.FileInfoHeader. rewrite Hreg.
  destruct (negb (time.IsZero (tar.ModTime opt))); split; reflexivity.
Qed.

(** The callback on a regular file that can be opened. *)
Lemma walk_file_taken (file : string) (info : os.FileInfo) (found : os.node)
  (data blk : byteslice) (inputs : list byteslice) (n : Z) :
  os.IsRegular (os.fi_Mode info) = true →
  os.Open found = inr data →
  os.fi_Size info = Z.of_nat (length data) →
  tar.marshal (tar.prepare (walk_header src opt file info)) = inr blk →
  walk_file src opt file (Some (info, found)) None
    (chain_after ws inputs 0 (tar.blockPadding n))
  = (chain_after ws
       (inputs
        ++ [List.firstn (Z.to_nat (tar.blockPadding n)) tar.zeroBlock; []; blk]
        ++ io.chunks (length data) (Z.to_nat 32768) data)
       0 (tar.blockPadding (Z.of_nat (length data))),
     None).
Proof.
  intros Hreg Hopen Hsize Hm.
  destruct (walk_header_regular file info Hreg) as [Hflag Hsz].
  rewrite (walk_file_regular file info found _ Hreg).
  rewrite (tar_WriteHeader_after ws inputs 0 _ _ blk (Z.le_refl 0) Hm
             (never_failing_accepts _ ws Hws)).
  rewrite Hflag, Hsz, Hsize.
  change (tar.isHeaderOnlyType tar.TypeReg) with false. cbv beta iota zeta.
  rewrite Hopen. unfold io.Copy_file.
  rewrite (copy_loop_after ws _ _ data Hws); [|lia|lia|lia].
  rewrite Z.sub_diag, <- app_assoc. reflexivity.
Qed.

Lemma walked_regular (n : os.node) :
  ∀ path, Forall (λ e, os.IsRegular (os.fi_Mode e.1.2) = true
                      ∧ os.fi_Size e.1.2 = Z.of_nat (length e.2))
            (walked path n).
Proof.
  induction n as [st data readable|st target _|st entries read_err IH|e]
    using node_tree_ind; intros path; cbn [walked]; try constructor.
  - cbn [os.Lstat].
    destruct (os.IsRegular (os.fi_Mode (os.info_of path st _ _))) eqn:Hreg;
      [|constructor].
    constructor; [|constructor]. split; [exact Hreg|reflexivity].
  - induction IH as [|[name c] rest Hc _ IHrest]; [constructor|].
    apply Forall_app. split; [apply Hc|exact IHrest].
Qed.

(** The walk of a tree that can be read, over a chain whose sinks never
    fail: the regular files go through in walk order, nothing else
    does, and the walk ends without an error. *)
Lemma walk_taken (n : os.node) :
  readable_tree n = true →
  ∀ (path : string) (inputs : list byteslice) (k : Z),
    Forall (encodable_entry src opt) (walked path n) →
    filepath.walk (walk_file src opt) path n
      (chain_after ws inputs 0 (tar.blockPadding k))
    = (chain_after ws
         (inputs ++ fst (entries_inputs k (heads src opt (walked path n))))
         0 (tar.blockPadding (snd (entries_inputs k (heads src opt (walked path n))))),
       None).
Proof.
  induction n as [st data readable|st target _|st entries read_err IH|e]
    using node_tree_ind; intros Hread path inputs k Henc.
  - cbn [readable_tree] in Hread. subst readable.
    pose proof (walked_regular (os.File st data true) path) as Hfacts.
    cbn [filepath.walk]. unfold filepath.info_of_node.
    cbn [walked] in Henc, Hfacts |- *. cbn [os.Lstat] in Henc, Hfacts |- *.
    destruct (os.IsRegular (os.fi_Mode (os.info_of path st _ _))) eqn:Hreg.
    + apply Forall_inv in Henc. destruct Henc as [blk Hm]. cbn [fst snd] in Hm.
      apply Forall_inv in Hfacts. destruct Hfacts as [_ Hsize]. cbn [fst snd] in Hsize.
      rewrite (walk_file_taken path _ (os.File st data true) data blk inputs k
                 Hreg eq_refl Hsize Hm).
      unfold heads. cbn [map entries_inputs fst snd]. unfold tar.block.
      rewrite Hm, app_nil_r. reflexivity.
    + unfold walk_file. rewrite Hreg. cbn [negb heads map entries_inputs fst snd].
      rewrite app_nil_r. reflexivity.
  - cbn [filepath.walk walked heads map entries_inputs fst snd].
    unfold filepath.info_of_node. cbn [os.Lstat]. unfold walk_file.
    cbn [os.info_of os.fi_Mode]. rewrite symlink_is_not_regular. cbn [negb].
    rewrite app_nil_r. reflexivity.
  - cbn [readable_tree] in Hread. apply andb_true_iff in Hread as [Herr Hchildren].
    apply bool_decide_eq_true_1 in Herr. subst read_err.
    cbn [filepath.walk]. unfold filepath.info_of_node. cbn [os.Lstat].
    unfold walk_file at 1. cbn [os.info_of os.fi_Mode].
    rewrite dir_is_not_regular. cbn [negb].
    rewrite bool_decide_eq_false_2 by (intros [Hx|Hx]; contradiction).
    cbn [walked] in Henc |- *.
    revert inputs k Hchildren Henc.
    induction IH as [|[name c] rest Hc _ IHrest]; intros inputs k Hchildren Henc.
    + cbn [heads map entries_inputs fst snd]. rewrite app_nil_r. reflexivity.
    + apply andb_true_iff in Hchildren as [Hcr Hrr].
      apply Forall_app in Henc as [Hce Hre].
      cbn [snd] in Hc. rewrite (Hc Hcr (filepath.Join path name) inputs k Hce).
      rewrite (IHrest _ _ Hrr Hre).
      unfold heads. rewrite map_app, entries_inputs_app. cbn [fst snd].
      rewrite <- app_assoc. reflexivity.
  - discriminate Hread.
Qed.

End walk_of_a_tree.

Section archive_of_a_tree.
Context `{flate.Codec} `{tar.Format} `{!flate.Lawful} `{!tar.Lawful}.

(** The next header after the padding of the entry before. *)
Lemma Next_after_padding (h : tar.Header) (blk rest : byteslice)
  (ending : option error) (n : Z) :
  tar.marshal h = inr blk → tar.Typeflag h = tar.TypeReg → (0 ≤ tar.Size h)%Z →
  tar.Next {| tar.r_data :=
                List.firstn (Z.to_nat (tar.blockPadding n)) tar.zeroBlock
                ++ blk ++ rest;
              tar.r_end := ending; tar.r_nb := 0;
              tar.r_pad := tar.blockPadding n; tar.r_err := None |}
  = ((Some h, None),
     {| tar.r_data := rest; tar.r_end := ending; tar.r_nb := tar.Size h;
        tar.r_pad := tar.blockPadding (tar.Size h); tar.r_err := None |}).
Proof.
  intros Hm Ht Hsize.
  pose proof (Next_at_record h blk rest ending Hm Ht Hsize) as Hrec.
  unfold tar.Next, tar.next, tar.discard in Hrec |- *.
  cbn [tar.r_err tar.r_nb tar.r_pad tar.r_data tar.r_end] in Hrec |- *.
  change (Z.to_nat 0 + Z.to_nat 0)%nat with 0%nat in Hrec.
  change (0 <=? length (blk ++ rest))%nat with true in Hrec.
  change (List.skipn 0 (blk ++ rest)) with (blk ++ rest) in Hrec.
  cbv iota in Hrec.
  change (Z.to_nat 0 + Z.to_nat (tar.blockPadding n))%nat
    with (Z.to_nat (tar.blockPadding n)).
  set (pad0 := List.firstn (Z.to_nat (tar.blockPadding n)) tar.zeroBlock).
  assert (Hpad : length pad0 = Z.to_nat (tar.blockPadding n)) by apply padding_length.
  assert (Hfits : (Z.to_nat (tar.blockPadding n) <=? length (pad0 ++ blk ++ rest))%nat
                  = true)
    by (apply Nat.leb_le; rewrite length_app; lia).
  rewrite Hfits.
  rewrite (drop_app_length' pad0 _ _) by (symmetry; exact Hpad).
  destruct (tar.readHeader _) as [e|[h' rest']]; [discriminate Hrec|].
  destruct (_ <? 0)%Z; [discriminate Hrec|].
  exact Hrec.
Qed.

(** Reading back the stream of a series of entries: every entry comes
    out with its header and its bytes, in order. *)
Lemma entries_of_inputs (es : list (tar.Header * byteslice)) :
  Forall (λ e, ∃ blk, tar.marshal (tar.prepare e.1) = inr blk
                      ∧ tar.Typeflag (tar.prepare e.1) = tar.TypeReg
                      ∧ tar.Size (tar.prepare e.1) = Z.of_nat (length e.2)) es →
  ∀ (n : Z) (fuel : nat),
    length es < fuel →
    entries fuel
      {| tar.r_data :=
           concat (fst (entries_inputs n es))
           ++ List.firstn (Z.to_nat (tar.blockPadding (snd (entries_inputs n es))))
                tar.zeroBlock
           ++ tar.zeroBlock ++ tar.zeroBlock;
         tar.r_end := None; tar.r_nb := 0; tar.r_pad := tar.blockPadding n;
         tar.r_err := None |}
    = map (λ e, (tar.prepare e.1, e.2)) es.
Proof.
  induction 1 as [|[h data] es (blk & Hm & Ht & Hsize) _ IH];
    intros n [|fuel] Hfuel; try (simpl in Hfuel; lia).
  - cbn [entries_inputs fst snd concat app entries map].
    pose proof (Next_at_trailer n) as Hend.
    destruct (tar.Next _) as [[hd err] tr]. cbn [fst] in Hend.
    injection Hend as -> ->. reflexivity.
  - cbn [fst snd] in Hm, Ht, Hsize.
    cbn [entries_inputs map fst snd].
    specialize (IH (Z.of_nat (length data)) fuel ltac:(simpl in Hfuel; lia)).
    destruct (entries_inputs (Z.of_nat (length data)) es) as [more last].
    cbn [fst snd] in IH |- *. unfold tar.block. rewrite Hm.
    rewrite concat_app, concat_app, concat_chunks by lia.
    cbn [concat app]. rewrite app_nil_r, <- !app_assoc.
    cbn [entries].
    rewrite (Next_after_padding (tar.prepare h) blk _ None n Hm Ht ltac:(lia)).
    rewrite Hsize, ReadAll_entry, IH. reflexivity.
Qed.

(** X21.  [Tar] on a directory whose tree can be read throughout, with a
    writer that never fails and headers that can be encoded: it returns
    nil, and the archive read back holds one entry for each regular file
    of the tree, in the order of the walk, with the bytes of the file
    and the header the callback made (name cut down from the walked
    path, owner, group and mode of the options); directories, links and
    other files leave no entry. *)
Theorem Tar_archives_regular_files_in_walk_order (src : string)
  (st : os.Stat_t) (children : list (string * os.node)) (opt : option tar.Header)
  (s : io.Sink) :
  readable_tree (os.Dir st children None) = true →
  Forall (encodable_entry src (Tar_options opt))
    (walked src (os.Dir st children None)) →
  io.healthy s = None → io.written s = [] →
  ∃ s' gzr,
    Tar src (os.Dir st children None) opt [s] = (None, [s'])
    ∧ gzip.NewReader (io.written s') = inr gzr
    ∧ ∀ fuel, length (walked src (os.Dir st children None)) < fuel →
        entries fuel (tar.NewReader gzr)
        = map (λ e, (tar.prepare (walk_header src (Tar_options opt) e.1.1 e.1.2), e.2))
            (walked src (os.Dir st children None)).
Proof.
  intros Hread Henc Hs Hw.
  assert (Hws : Forall (λ s, io.healthy s = None) [s]) by (repeat constructor; exact Hs).
  set (root := os.Dir st children None) in *.
  set (es := heads src (Tar_options opt) (walked src root)).
  set (inputs := fst (entries_inputs 0 es)
                 ++ [List.firstn (Z.to_nat (tar.blockPadding (snd (entries_inputs 0 es))))
                       tar.zeroBlock; tar.zeroBlock; tar.zeroBlock]).
  assert (Hrun : Tar_run src root opt [s]
                 = (None, (None, None), map (io.fed (stream_calls inputs)) [s])).
  { unfold Tar_run.
    change (match opt with Some o => o | None => Tar_defaults end)
      with (Tar_options opt).
    unfold os.Stat_source, root. cbn [os.resolve os.Lstat os.info_of os.fi_Mode].
    rewrite dir_is_dir. cbn [negb]. fold root.
    unfold filepath.Walk. rewrite <- chain_after_nil.
    change 0%Z with (tar.blockPadding 0) at 2.
    rewrite (walk_taken src (Tar_options opt) [s] Hws root Hread src [] 0 Henc).
    rewrite bool_decide_eq_false_2 by (intros [Hx|Hx]; discriminate Hx).
    cbn [app]. fold es.
    rewrite (deferred_Close_after [s] _ _ Hws). reflexivity. }
  exists (io.fed (stream_calls inputs) s),
         {| gzip.plain := concat inputs; gzip.ending := None |}.
  split; [unfold Tar; rewrite Hrun; reflexivity|].
  split.
  - unfold io.fed. cbn [io.written].
    rewrite Hw, app_nil_l, concat_stream_calls
      by (unfold inputs; destruct (entries_inputs 0 es).1; discriminate).
    apply NewReader_of_written.
  - intros fuel Hfuel. unfold tar.NewReader. cbn [gzip.plain gzip.ending].
    unfold inputs. rewrite concat_app. cbn [concat]. rewrite app_nil_r.
    assert (Hmap : map (λ e, (tar.prepare e.1, e.2)) es
                   = map (λ e, (tar.prepare (walk_header src (Tar_options opt)
                                               e.1.1 e.1.2), e.2))
                       (walked src root))
      by (unfold es, heads; rewrite map_map; reflexivity).
    rewrite <- Hmap.
    apply (entries_of_inputs es).
    + unfold es, heads. apply Forall_map.
      pose proof (walked_regular root src) as Hfacts.
      rewrite Forall_forall in Henc, Hfacts |- *.
      intros e He. destruct (Henc e He) as [blk Hm].
      destruct (Hfacts e He) as [Hreg Hsize].
      destruct (walk_header_regular src (Tar_options opt) e.1.1 e.1.2 Hreg)
        as [Hflag Hsz].
      exists blk. cbn [fst snd]. rewrite Hsz. auto.
    + unfold es, heads. rewrite length_map. exact Hfuel.
Qed.

End archive_of_a_tree.

Section runs_of_archive_of_a_tree.
Import model.

Lemma encodable_entries_check `{tar.Format} (src : string) (opt : tar.Header)
  (es : list (string * os.FileInfo * byteslice)) :
  forallb (λ e, match tar.marshal (tar.prepare (walk_header src opt e.1.1 e.1.2)) with
                | inr _ => true
                | inl _ => false
                end) es = true →
  Forall (encodable_entry src opt) es.
Proof.
  induction es as [|e es IH]; intros Hall; [constructor|].
  cbn [forallb] in Hall. apply andb_true_iff in Hall as [He Hes].
  constructor; [|exact (IH Hes)].
  unfold encodable_entry.
  destruct (tar.marshal _) as [err|blk]; [discriminate He|].
  exists blk. reflexivity.
Qed.

Lemma Tar_archives_regular_files_in_walk_order_witness :
  ∃ s' gzr,
    Tar "data" mixed_tree None [good_sink] = (None, [s'])
    ∧ gzip.NewReader (io.written s') = inr gzr
    ∧ ∀ fuel, length (walked "data" mixed_tree) < fuel →
        entries fuel (tar.NewReader gzr)
        = map (λ e, (tar.prepare (walk_header "data" (Tar_options None) e.1.1 e.1.2),
                     e.2))
            (walked "data" mixed_tree).
Proof.
  apply (@Tar_archives_regular_files_in_walk_order codec format codec_lawful
           format_lawful "data" (stat 493)
           [("a.txt", file 420 "hello");
            ("link", os.Symlink (stat 511) (file 420 "zz"));
            ("sub", dir [("b.txt", file 384 "world!"); ("p", pipe)]);
            ("z", file 420 "")] None good_sink).
  - vm_compute. reflexivity.
  - apply encodable_entries_check. vm_compute. reflexivity.
  - reflexivity.
  - reflexivity.
Defined.

End runs_of_archive_of_a_tree.

(** ** Directory entries *)

Section directory_entries.
Context `{os.Process} `{tar.Format}.

(** A path put together from elements that are not empty is not empty. *)
Lemma chain_path_not_empty (pre e : string) :
  e ≠ "" →
  (if decide (pre = "") then e
   else if decide (pre = "/") then "/" +:+ e else pre +:+ "/" +:+ e) ≠ "".
Proof.
  intros He. destruct (decide (pre = "")) as [_|Hpre]; [exact He|].
  destruct (decide (pre = "/")) as [_|_]; [discriminate|].
  destruct pre; [contradiction|discriminate].
Qed.

(** [os.MkdirAll] changes nothing that exists, and all it makes are
    directories of the mode [os.Mkdir] makes of the one it was given. *)
Lemma mkdir_chain_adds_directories (perm : Z) (elems : list string) :
  Forall (λ e, e ≠ "") elems →
  ∀ (fs : os.FS) (pre q : string),
    fst (os.mkdir_chain fs pre elems perm) !! q = fs !! q
    ∨ (fs !! q = None
       ∧ fst (os.mkdir_chain fs pre elems perm) !! q
         = Some (os.FDir (os.created_dir_mode perm))).
Proof.
  induction 1 as [|e rest He _ IH]; intros fs pre q; [left; reflexivity|].
  cbn [os.mkdir_chain]. cbv zeta.
  pose proof (chain_path_not_empty pre e He) as Hne.
  set (p := if decide (pre = "") then e
            else if decide (pre = "/") then "/" +:+ e else pre +:+ "/" +:+ e)
    in Hne |- *.
  destruct (os.lookup_path fs p) as [[m old|m]|] eqn:Hp.
  - left. reflexivity.
  - apply IH.
  - apply lookup_path_missing in Hp. destruct Hp as [Hp|Hp]; [contradiction|].
    destruct (IH (<[p := os.FDir (os.created_dir_mode perm)]> fs) p q)
      as [Hsame|[Hnone Hnew]].
    + destruct (decide (q = p)) as [->|Hq].
      * right. rewrite Hsame, lookup_insert_eq. auto.
      * left. rewrite Hsame. apply lookup_insert_ne. congruence.
    + destruct (decide (q = p)) as [->|Hq].
      * rewrite lookup_insert_eq in Hnone. discriminate Hnone.
      * right. rewrite lookup_insert_ne in Hnone by congruence. auto.
Qed.

(** X22.  A round of [Untar] on a directory entry never changes or
    removes what exists: whatever the outcome (the directories made, or
    the error of [os.MkdirAll] with some of them made), every path holds
    what it held before, or held nothing and is now a directory with the
    mode [os.Mkdir] makes of the mode of the entry, whose permission bits
    are those of the entry less the umask of the process (0775 gives
    0755 under the umask 022). *)
Theorem Untar_directory_entry_only_adds_directories (dst : string)
  (tr tr1 : tar.Reader) (fs : os.FS) (h : tar.Header) (q : string) :
  tar.Next tr = ((Some h, None), tr1) →
  tar.Typeflag h = tar.TypeDir →
  (files_after (Untar_round dst tr fs) !! q = fs !! q
   ∨ (fs !! q = None
      ∧ files_after (Untar_round dst tr fs) !! q
        = Some (os.FDir (os.created_dir_mode (os.FileMode (tar.Mode h))))))
  ∧ os.Perm (os.created_dir_mode (os.FileMode (tar.Mode h)))
    = Z.ldiff (os.Perm (os.FileMode (tar.Mode h))) os.umask.
Proof.
  intros Hn Hd. split; [|apply Perm_created_dir_mode].
  unfold Untar_round. rewrite Hn.
  rewrite decide_False by discriminate.
  rewrite (decide_True (P := tar.Typeflag h = tar.TypeDir)) by exact Hd.
  destruct (os.Stat fs _) as [e|found]; [|left; reflexivity].
  unfold os.MkdirAll.
  destruct (decide (filepath.Join dst (tar.Name h) = "")); [left; reflexivity|].
  match goal with
  | |- context [os.mkdir_chain fs ?pre ?elems ?perm] =>
      assert (Helems : Forall (λ e, e ≠ "") elems)
        by (apply Forall_forall; intros x Hx;
            apply list_elem_of_filter in Hx; exact (proj1 Hx));
      pose proof (mkdir_chain_adds_directories perm elems Helems fs pre q)
        as Hchain;
      destruct (os.mkdir_chain fs pre elems perm) as [fs' [e'|]]
  end; exact Hchain.
Qed.

End directory_entries.

Section runs_of_directory_entries.
Import model.

Lemma Untar_directory_entry_only_adds_directories_witness :
  (files_after (Untar_round "out" (reader_of wide_dir_archive) empty_out) !! "out/sub"
   = empty_out !! "out/sub"
   ∨ (empty_out !! "out/sub" = None
      ∧ files_after (Untar_round "out" (reader_of wide_dir_archive) empty_out)
          !! "out/sub"
        = Some (os.FDir (os.created_dir_mode
                           (os.FileMode (tar.Mode wide_dir_header))))))
  ∧ os.Perm (os.created_dir_mode (os.FileMode (tar.Mode wide_dir_header)))
    = Z.ldiff (os.Perm (os.FileMode (tar.Mode wide_dir_header))) os.umask.
Proof.
  apply (Untar_directory_entry_only_adds_directories "out"
           (reader_of wide_dir_archive)
           (snd (tar.Next (reader_of wide_dir_archive))) empty_out
           wide_dir_header "out/sub").
  - vm_compute. reflexivity.
  - reflexivity.
Defined.

(** The run above: the entry of mode 0775 makes "out/sub" with the mode
    0755 under the umask 022. *)
Lemma Untar_makes_directory_less_umask :
  files_after (Untar_round "out" (reader_of wide_dir_archive) empty_out)
  = <["out/sub" := os.FDir 493]> empty_out.
Proof. vm_compute. reflexivity. Qed.

End runs_of_directory_entries.

(** ** The default modification time and the count of [Bytes] *)

Section more_results_of_Bytes.
Context `{flate.Codec} `{tar.Format}.

Lemma Round_to_second (t : time.Time) :
  (time.Round t time.Second mod time.Second = 0
   ∧ 2 * Z.abs (time.Round t time.Second - t) ≤ time.Second)%Z.
Proof.
  unfold time.Round, time.Second.
  change (1000000000 <=? 0)%Z with false. cbv iota zeta.
  pose proof (Z.mod_pos_bound t 1000000000 ltac:(lia)) as Hr.
  pose proof (Z.div_mod t 1000000000 ltac:(lia)) as Hq.
  destruct (t mod 1000000000 + t mod 1000000000 <? 1000000000)%Z eqn:Hhalf.
  - apply Z.ltb_lt in Hhalf. split; [|lia].
    replace (t - t mod 1000000000)%Z with ((t / 1000000000) * 1000000000)%Z by lia.
    apply Z.mod_mul. lia.
  - apply Z.ltb_ge in Hhalf. split; [|lia].
    replace (t + 1000000000 - t mod 1000000000)%Z
      with ((t / 1000000000 + 1) * 1000000000)%Z by lia.
    apply Z.mod_mul. lia.
Qed.

Lemma Round_of_whole_seconds (t : time.Time) :
  (t mod time.Second = 0)%Z → time.Round t time.Second = t.
Proof.
  unfold time.Round, time.Second. intros Hz.
  change (1000000000 <=? 0)%Z with false. cbv iota zeta.
  rewrite Hz. change (0 + 0 <? 1000000000)%Z with true. cbv iota. lia.
Qed.

(** X23.  With a nil [opt] the modification time of the entry is the
    second reading of the clock rounded to the nearest second: a whole
    number of seconds, at most half a second from the reading, and
    written to the archive as it is. *)
Theorem Bytes_default_ModTime (clock : time.Clock) (b : byteslice) :
  (tar.ModTime (Bytes_options clock None) mod time.Second = 0
   ∧ 2 * Z.abs (tar.ModTime (Bytes_options clock None) - clock 1%nat) ≤ time.Second)%Z
  ∧ tar.ModTime (tar.prepare (buffer_header b (Bytes_options clock None)))
    = tar.ModTime (Bytes_options clock None).
Proof.
  split; [exact (Round_to_second (clock 1%nat))|].
  unfold tar.prepare.
  assert (Hm : tar.ModTime (tar.promote (buffer_header b (Bytes_options clock None)))
               = tar.ModTime (Bytes_options clock None)).
  { unfold tar.promote.
    destruct (decide _); [|reflexivity].
    destruct (strings.HasSuffix _ _); reflexivity. }
  cbn [tar.set_times tar.ModTime]. rewrite Hm.
  apply Round_of_whole_seconds, (Round_to_second (clock 1%nat)).
Qed.

(** The count of a call of Write on the gzip writer is all of the
    bytes, or none with an error. *)
Lemma gzip_Write_all_or_nothing {W} `{io.Writer W} (z : gzip.Writer W)
  (p : byteslice) :
  snd (gzip.Write z p) = (length p, None) ∨ ∃ e, snd (gzip.Write z p) = (0, Some e).
Proof.
  unfold gzip.Write. destruct (gzip.err z) as [e|]; [right; eauto|].
  destruct (if gzip.wroteHeader z then _ else _) as [under [e|]]; [right; eauto|].
  destruct (flate.feed (gzip.comp z) p) as [c chunks].
  destruct (gzip.push under chunks) as [under' [e|]]; cbn [snd]; eauto.
Qed.

Lemma Flush_nb {W} `{io.Writer W} (tw : tar.Writer W) :
  tar.nb (fst (tar.Flush tw)) = tar.nb tw.
Proof.
  unfold tar.Flush. destruct (tar.err tw); [reflexivity|].
  destruct (0 <? tar.nb tw)%Z; [reflexivity|].
  destruct (io.Write _ _) as [under [n [e|]]]; reflexivity.
Qed.

(** After the header of an entry the tar writer expects the size of the
    entry, or nothing when the header did not go out. *)
Lemma WriteHeader_nb {W} `{io.Writer W} (tw : tar.Writer W) (hdr : tar.Header) :
  tar.nb tw = 0%Z →
  tar.nb (fst (tar.WriteHeader tw hdr)) = 0%Z
  ∨ tar.nb (fst (tar.WriteHeader tw hdr)) = tar.Size hdr.
Proof.
  intros Hnb. unfold tar.WriteHeader.
  pose proof (Flush_nb tw) as Hf. rewrite Hnb in Hf.
  destruct (tar.Flush tw) as [tw1 [e|]]; cbn [fst] in Hf |- *; [left; exact Hf|].
  destruct (tar.marshal _) as [e|blk]; cbn [fst]; [left; exact Hf|].
  unfold tar.writeRawHeader.
  pose proof (Flush_nb tw1) as Hf1. rewrite Hf in Hf1.
  destruct (tar.Flush tw1) as [tw2 [e|]]; cbn [fst] in Hf1 |- *; [left; exact Hf1|].
  destruct (io.Write _ _) as [under [n [e|]]]; cbn [fst tar.nb]; [left; exact Hf1|].
  destruct (tar.isHeaderOnlyType _); [left; reflexivity|].
  right. apply Size_prepare.
Qed.

(** X24.  The count [Bytes] returns is all or nothing: whatever the
    writers and the compressor do, an error comes with the count 0 (and
    no error with the length of the buffer). *)
Theorem Bytes_count_is_all_or_nothing (clock : time.Clock) (b : byteslice)
  (opt : option tar.Header) (w : list io.Sink) :
  fst (Bytes clock b opt w) = (Z.of_nat (length b), None)
  ∨ ∃ e, fst (Bytes clock b opt w) = (0%Z, Some e).
Proof.
  unfold Bytes, Bytes_run.
  match goal with
  | |- context [tar.WriteHeader ?tw0 ?hdr] =>
      pose proof (WriteHeader_nb tw0 hdr eq_refl) as Hnb;
      destruct (tar.WriteHeader tw0 hdr) as [tw e0]
  end.
  cbn [fst] in Hnb.
  change (tar.Size (buffer_header b _)) with (Z.of_nat (length b)) in Hnb.
  assert (Hcopy : snd (io.Copy_buffer tw b) = (Z.of_nat (length b), None)
                  ∨ ∃ e, snd (io.Copy_buffer tw b) = (0%Z, Some e)).
  { unfold io.Copy_buffer. destruct b as [|x b]; [left; reflexivity|].
    change (io.Write tw (x :: b)) with (tar.Write tw (x :: b)).
    unfold tar.Write. destruct (tar.err tw) as [e|]; [right; eauto|].
    destruct Hnb as [Hnb|Hnb]; rewrite Hnb.
    - change (0 <? Z.of_nat (length (x :: b)))%Z with true.
      right. eexists. reflexivity.
    - rewrite Z.ltb_irrefl, Write_gzip.
      destruct (gzip_Write_all_or_nothing (tar.w tw) (x :: b)) as [Hall|[e Hnone]];
        destruct (gzip.Write (tar.w tw) (x :: b)) as [under [n e']];
        cbn [snd] in *.
      + injection Hall as -> ->. rewrite Nat.eqb_refl. left. reflexivity.
      + injection Hnone as -> ->. right. eauto. }
  destruct (io.Copy_buffer tw b) as [tw' r]. cbn [snd] in Hcopy.
  destruct (deferred_Close tw') as [dropped sinks]. cbn [fst]. exact Hcopy.
Qed.

End more_results_of_Bytes.
